(** * BcmHost.cpp: host entries, ECMP hosts and the reference-counted host table

    A shallow embedding of fboss/agent/hw/bcm/BcmHost.cpp.  The C++ objects
    live in one mutable [BcmSwitch]; every member function becomes a
    computation in a state monad whose outcomes are a normal return, a
    propagating C++ exception, or a process abort ([CHECK] / [LOG(FATAL)]). *)

From stdpp Require Import gmap list strings.

Open Scope Z_scope.

(** ** Data *)

(** [folly::IPAddress]: a v4 or a v6 address. *)
Inductive IPAddress :=
| IPAddressV4 (a : N)
| IPAddressV6 (a : N).

Definition isV4 (a : IPAddress) : bool :=
  match a with IPAddressV4 _ => true | IPAddressV6 _ => false end.

#[global] Instance IPAddress_eq_dec : EqDecision IPAddress.
Proof. solve_decision. Defined.

#[global] Instance IPAddress_countable : Countable IPAddress :=
  inj_countable'
    (λ a, match a with IPAddressV4 n => inl n | IPAddressV6 n => inr n end)
    (λ x, match x with inl n => IPAddressV4 n | inr n => IPAddressV6 n end)
    (λ a, match a with IPAddressV4 _ => eq_refl | IPAddressV6 _ => eq_refl end).

(** [folly::MacAddress], as its 48-bit value. *)
Definition MacAddress := N.

Inductive RouteForwardAction := DROP | TO_CPU | NEXTHOPS.

(** One next hop of a route: outgoing interface and next-hop address. *)
Record RouteForwardInfo := NextHop { intf : Z; nexthop : IPAddress }.

#[global] Instance RouteForwardInfo_eq_dec : EqDecision RouteForwardInfo.
Proof. solve_decision. Defined.

#[global] Instance RouteForwardInfo_countable : Countable RouteForwardInfo :=
  inj_countable' (λ n, (intf n, nexthop n)) (λ p, NextHop p.1 p.2)
    (λ n, match n with NextHop _ _ => eq_refl end).

(** [RouteForwardNexthops] is a [flat_set]; the list is its iteration
    sequence. *)
Abbreviation RouteForwardNexthops := (list RouteForwardInfo).

Abbreviation HostKey := (Z * IPAddress)%type.
Abbreviation EcmpKey := (Z * RouteForwardNexthops)%type.

(** The fields of [opennsl_l3_host_t] that BcmHost.cpp reads or writes. *)
Record opennsl_l3_host_t := L3Host {
  l3a_flags : Z;
  l3a_vrf : Z;
  l3a_intf : Z;
  l3a_ip_addr : N;
  l3a_ip6_addr : N
}.

(** What a simple egress object forwards to. *)
Inductive EgressAction :=
| ToPort (intf : Z) (mac : MacAddress) (port : Z)
| ToDrop (intf : Z)
| ToCPU (intf : Z).

(** [BcmEgressBase] and its two subclasses.  A group keeps its member
    egress ids in order, each with a flag telling whether the path is
    currently reachable. *)
Inductive BcmEgressBase :=
| BcmEgress (id : Z) (action : EgressAction)
| BcmEcmpEgress (id : Z) (paths : list (Z * bool)).

Definition getID (e : BcmEgressBase) : Z :=
  match e with BcmEgress id _ => id | BcmEcmpEgress id _ => id end.

Module BcmHost.
Record t := Make {
  vrf_ : Z;
  addr_ : IPAddress;
  egressId_ : Z;
  port_ : Z;
  added_ : bool
}.
End BcmHost.

Module BcmEcmpHost.
Record t := Make {
  vrf_ : Z;
  fwd_ : RouteForwardNexthops;
  egressId_ : Z;
  ecmpEgressId_ : Z
}.
End BcmEcmpHost.

(** A heap object held by a [unique_ptr]: its address and its contents.  A
    raw pointer to the object is the address. *)
Record boxed (T : Type) := Box { address : N; target : T }.
Arguments Box {T} _ _.
Arguments address {T} _.
Arguments target {T} _.

(** ** The SDK and the observed events *)

(** The SDK calls behind BcmHost.cpp: the two it issues itself and the two
    that the egress objects issue when they are programmed. *)
Inductive SdkCall :=
| opennsl_l3_host_add (h : opennsl_l3_host_t)
| opennsl_l3_host_delete (h : opennsl_l3_host_t)
| opennsl_l3_egress_create (id : Z) (a : EgressAction)
| opennsl_l3_egress_ecmp_create (paths : list Z).

(** The status code of an SDK call and, for a create call, the id the
    hardware assigned. *)
Record SdkReply := Reply { rc : Z; assigned : Z }.

(** What an observer of the switch sees, in order: every SDK call with its
    reply, every acknowledgement to the warm boot cache, and every release
    of a counted reference (at the moment the count is decremented). *)
Inductive Event :=
| Sdk (c : SdkCall) (r : SdkReply)
| WarmBootProgrammed (vrf : Z) (addr : IPAddress)
| EgressReleased (id : Z)
| HostReleased (vrf : Z) (addr : IPAddress)
| EcmpHostReleased (vrf : Z) (fwd : RouteForwardNexthops).

(** What BcmHost.cpp takes from headers and from the hardware, none of it
    fixed by the sources: the value of [BcmEgressBase::INVALID], the two
    flag bits of [l3a_flags] the file uses, and the device behind the SDK
    (given the history so far, the reply to a call). *)
Record Platform := {
  BcmEgressBase_INVALID : Z;
  L3_IP6 : Z;
  L3_MULTIPATH : Z;
  sdk_reply : list Event → SdkCall → SdkReply
}.

(** ** The exported state *)

(** [folly::dynamic], as far as BcmHost.cpp builds it: integers, strings,
    arrays, and objects that map key names to values. *)
Inductive dynamic :=
| dInt (z : Z)
| dString (s : string)
| dArray (l : list dynamic)
| dObject (fields : gmap string dynamic).

(** The key names, from the anonymous namespace at the head of the file. *)
Definition kVrf : string := "vrf".
Definition kIp : string := "ip".
Definition kPort : string := "port".
Definition kNextHops : string := "nexthops".
Definition kEgress : string := "egress".
Definition kEcmpEgress : string := "ecmpEgress".
Definition kEgressId : string := "egressId".
Definition kEcmpEgressId : string := "ecmpEgressId".
Definition kHosts : string := "host".
Definition kEcmpHosts : string := "ecmpHosts".

(** What the export functions of BcmHost.cpp take from other files, none
    of it in the sources: [folly::IPAddress::str], the export of a next hop
    and of an egress object, and the id of the switch's drop egress
    object. *)
Record Exporter := {
  IPAddress_str : IPAddress → string;
  RouteForwardInfo_toFollyDynamic : RouteForwardInfo → dynamic;
  BcmEgressBase_toFollyDynamic : BcmEgressBase → dynamic;
  getDropEgressId : Z
}.

(** ** The switch *)

(** [BcmHostTable]'s four members, the two collaborators BcmHost.cpp
    queries (interface table and warm boot cache), the history of events and
    the next free heap address.  A [HostMap] entry is the owning pointer
    (null while the object is being constructed) and the reference count;
    the count is not bounded here (its C++ type is declared in
    BcmHost.h). *)
Record BcmSwitch := Switch {
  hosts_ : gmap HostKey (option (boxed BcmHost.t) * nat);
  ecmpHosts_ : gmap EcmpKey (option (boxed BcmEcmpHost.t) * nat);
  egressMap_ : gmap Z (BcmEgressBase * nat);
  port2EgressIds_ : gmap Z (gset Z);
  intfTable_ : gmap Z Z;
  warmBootCache_ : gmap HostKey opennsl_l3_host_t;
  trace : list Event;
  heap_next : N
}.

Definition set_hosts (f : gmap HostKey (option (boxed BcmHost.t) * nat) →
                          gmap HostKey (option (boxed BcmHost.t) * nat))
    (s : BcmSwitch) : BcmSwitch :=
  Switch (f (hosts_ s)) (ecmpHosts_ s) (egressMap_ s) (port2EgressIds_ s)
         (intfTable_ s) (warmBootCache_ s) (trace s) (heap_next s).

Definition set_ecmpHosts
    (f : gmap EcmpKey (option (boxed BcmEcmpHost.t) * nat) →
         gmap EcmpKey (option (boxed BcmEcmpHost.t) * nat))
    (s : BcmSwitch) : BcmSwitch :=
  Switch (hosts_ s) (f (ecmpHosts_ s)) (egressMap_ s) (port2EgressIds_ s)
         (intfTable_ s) (warmBootCache_ s) (trace s) (heap_next s).

Definition set_egressMap
    (f : gmap Z (BcmEgressBase * nat) → gmap Z (BcmEgressBase * nat))
    (s : BcmSwitch) : BcmSwitch :=
  Switch (hosts_ s) (ecmpHosts_ s) (f (egressMap_ s)) (port2EgressIds_ s)
         (intfTable_ s) (warmBootCache_ s) (trace s) (heap_next s).

Definition set_port2EgressIds (f : gmap Z (gset Z) → gmap Z (gset Z))
    (s : BcmSwitch) : BcmSwitch :=
  Switch (hosts_ s) (ecmpHosts_ s) (egressMap_ s) (f (port2EgressIds_ s))
         (intfTable_ s) (warmBootCache_ s) (trace s) (heap_next s).

Definition set_warmBootCache
    (f : gmap HostKey opennsl_l3_host_t → gmap HostKey opennsl_l3_host_t)
    (s : BcmSwitch) : BcmSwitch :=
  Switch (hosts_ s) (ecmpHosts_ s) (egressMap_ s) (port2EgressIds_ s)
         (intfTable_ s) (f (warmBootCache_ s)) (trace s) (heap_next s).

Definition set_trace (f : list Event → list Event) (s : BcmSwitch) : BcmSwitch :=
  Switch (hosts_ s) (ecmpHosts_ s) (egressMap_ s) (port2EgressIds_ s)
         (intfTable_ s) (warmBootCache_ s) (f (trace s)) (heap_next s).

Definition set_heap_next (f : N → N) (s : BcmSwitch) : BcmSwitch :=
  Switch (hosts_ s) (ecmpHosts_ s) (egressMap_ s) (port2EgressIds_ s)
         (intfTable_ s) (warmBootCache_ s) (trace s) (f (heap_next s)).

(** ** Computations *)

(** How a call ends: it returns, an exception leaves it, or the process
    aborts.  Each carries the state reached. *)
Inductive outcome (S A : Type) :=
| Ok (a : A) (s : S)
| Throw (s : S)
| Fatal (s : S).
Arguments Ok {S A} _ _.
Arguments Throw {S A} _.
Arguments Fatal {S A} _.

Definition final {S A} (o : outcome S A) : S :=
  match o with Ok _ s => s | Throw s => s | Fatal s => s end.

Definition M (S A : Type) := S → outcome S A.

Definition ret {S A} (a : A) : M S A := λ s, Ok a s.

Definition bind {S A B} (c : M S A) (k : A → M S B) : M S B :=
  λ s, match c s with
       | Ok a s' => k a s'
       | Throw s' => Throw s'
       | Fatal s' => Fatal s'
       end.

Notation "x <- c ;; k" := (bind c (λ x, k))
  (at level 100, c at next level, right associativity,
   format "x  <-  c  ;;  '/' k").
Notation "c ;;; k" := (bind c (λ _, k))
  (at level 100, right associativity, format "c  ;;;  '/' k").

Definition throw {S A} : M S A := λ s, Throw s.
Definition fatal {S A} : M S A := λ s, Fatal s.
Definition get {S} : M S S := λ s, Ok s s.
Definition modify {S} (f : S → S) : M S unit := λ s, Ok tt (f s).

(** [CHECK(b)]. *)
Definition CHECK {S} (b : bool) : M S unit := if b then ret tt else fatal.

(** [SCOPE_FAIL { cleanup }; body]: when an exception leaves [body] the
    cleanup runs and the exception goes on; an exception out of the cleanup
    itself terminates the process. *)
Definition SCOPE_FAIL {S A} (cleanup : M S unit) (body : M S A) : M S A :=
  λ s, match body s with
       | Ok a s' => Ok a s'
       | Throw s' =>
           match cleanup s' with
           | Ok _ s'' => Throw s''
           | Throw s'' => Fatal s''
           | Fatal s'' => Fatal s''
           end
       | Fatal s' => Fatal s'
       end.

(** A [noexcept] function: an exception that would leave it terminates. *)
Definition noexcept {S A} (c : M S A) : M S A :=
  λ s, match c s with
       | Ok a s' => Ok a s'
       | Throw s' => Fatal s'
       | Fatal s' => Fatal s'
       end.

(** A block with local variables [L] next to the switch. *)
Definition lift {L A} (c : M BcmSwitch A) : M (BcmSwitch * L) A :=
  λ sl, match c sl.1 with
        | Ok a s' => Ok a (s', sl.2)
        | Throw s' => Throw (s', sl.2)
        | Fatal s' => Fatal (s', sl.2)
        end.

Definition with_locals {L A} (init : L) (c : M (BcmSwitch * L) A)
  : M BcmSwitch A :=
  λ s, match c (s, init) with
       | Ok a sl => Ok a sl.1
       | Throw sl => Throw sl.1
       | Fatal sl => Fatal sl.1
       end.

Definition locals {L} : M (BcmSwitch * L) L := λ sl, Ok sl.2 sl.
Definition set_locals {L} (f : L → L) : M (BcmSwitch * L) unit :=
  λ sl, Ok tt (sl.1, f sl.2).

(** A range-for loop over [l]. *)
Fixpoint for_each {S A} (l : list A) (body : A → M S unit) : M S unit :=
  match l with
  | [] => ret tt
  | x :: l' => body x ;;; for_each l' body
  end.

(** [n] calls of [c] in a row, collecting what they return. *)
Fixpoint repeatM {S A} (n : nat) (c : M S A) : M S (list A) :=
  match n with
  | O => ret []
  | S n' => a <- c ;; r <- repeatM n' c ;; ret (a :: r)
  end.

Definition log (e : Event) : M BcmSwitch unit :=
  modify (set_trace (λ t, t ++ [e])).

(** ** BcmHost.cpp *)

Section BcmHostCpp.

(** Everything below holds for any platform. *)
Variable hw : Platform.

#[local] Abbreviation INVALID := (BcmEgressBase_INVALID hw).
#[local] Abbreviation OPENNSL_L3_IP6 := (L3_IP6 hw).
#[local] Abbreviation OPENNSL_L3_MULTIPATH := (L3_MULTIPATH hw).
#[local] Abbreviation sdk := (sdk_reply hw).

Definition sdk_call (c : SdkCall) : M BcmSwitch SdkReply :=
  s <- get ;;
  let r := sdk (trace s) c in
  log (Sdk c r) ;;;
  ret r.

(** Modelled from the spec: [bcmCheckError] and [bcmLogFatal] of
    BcmError.h.  A failed hardware call (a negative status code) is
    propagated as an error by the first and aborts the process in the
    second. *)
Definition bcmCheckError (rc : Z) : M BcmSwitch unit :=
  if rc <? 0 then throw else ret tt.

Definition bcmLogFatal (rc : Z) : M BcmSwitch unit :=
  if rc <? 0 then fatal else ret tt.

(** *** Egress registry *)

Definition incEgressReference (egressId : Z)
  : M BcmSwitch (option BcmEgressBase) :=
  s <- get ;;
  match egressMap_ s !! egressId with
  | None => fatal
  | Some (obj, n) =>
      modify (set_egressMap <[egressId := (obj, S n)]>) ;;;
      ret (Some obj)
  end.

Definition derefEgress (egressId : Z) : M BcmSwitch (option BcmEgressBase) :=
  s <- get ;;
  match egressMap_ s !! egressId with
  | None => fatal
  | Some (obj, n) =>
      CHECK (0 <? n)%nat ;;;
      log (EgressReleased egressId) ;;;
      if (n - 1 =? 0)%nat then
        modify (set_egressMap (delete egressId)) ;;;
        ret None
      else
        modify (set_egressMap <[egressId := (obj, (n - 1)%nat)]>) ;;;
        ret (Some obj)
  end.

Definition getEgressObjectIf (s : BcmSwitch) (egress : Z)
  : option BcmEgressBase :=
  fst <$> egressMap_ s !! egress.

Definition insertBcmEgress (egress : BcmEgressBase) : M BcmSwitch unit :=
  let id := getID egress in
  s <- get ;;
  match egressMap_ s !! id with
  | Some _ => fatal
  | None => modify (set_egressMap <[id := (egress, 1%nat)]>)
  end.

(** *** Port reverse index *)

(** [port2EgressIds_[port]]: [operator[]] makes an empty set for a port
    that has none. *)
Definition port_set (m : gmap Z (gset Z)) (port : Z) : gset Z :=
  default ∅ (m !! port).

Definition port_erase (egressId port : Z) (m : gmap Z (gset Z))
  : gmap Z (gset Z) :=
  <[port := port_set m port ∖ {[egressId]}]> m.

Definition port_insert (egressId port : Z) (m : gmap Z (gset Z))
  : gmap Z (gset Z) :=
  <[port := port_set m port ∪ {[egressId]}]> m.

Definition updatePortEgressMapping_map (egressId oldPort newPort : Z)
    (m : gmap Z (gset Z)) : gmap Z (gset Z) :=
  let m1 := if bool_decide (oldPort ≠ 0) then port_erase egressId oldPort m
            else m in
  if bool_decide (newPort ≠ 0) then port_insert egressId newPort m1 else m1.

Definition updatePortEgressMapping (egressId oldPort newPort : Z)
  : M BcmSwitch unit :=
  modify (set_port2EgressIds
            (updatePortEgressMapping_map egressId oldPort newPort)).

Definition getEgressIdsForPort (s : BcmSwitch) (port : Z) : gset Z :=
  match port2EgressIds_ s !! port with
  | Some ids => ids
  | None => ∅
  end.

(** *** Collaborators *)

(** Modelled from the spec: [BcmEgress::program], [programToDrop] and
    [programToCPU] (BcmEgress.cpp is not part of the sources).  The object
    is programmed into the hardware; an object that has no id yet gets the
    id the hardware assigns, and a failed SDK call is thrown. *)
Definition BcmEgress_program_common (id vrf : Z) (addr : IPAddress)
    (a : EgressAction) : M BcmSwitch BcmEgressBase :=
  r <- sdk_call (opennsl_l3_egress_create id a) ;;
  bcmCheckError (rc r) ;;;
  ret (BcmEgress (if bool_decide (id = INVALID) then assigned r else id) a).

Definition BcmEgress_program (id intf vrf : Z) (addr : IPAddress)
    (mac : MacAddress) (port : Z) : M BcmSwitch BcmEgressBase :=
  BcmEgress_program_common id vrf addr (ToPort intf mac port).

Definition BcmEgress_programToDrop (id intf vrf : Z) (addr : IPAddress)
  : M BcmSwitch BcmEgressBase :=
  BcmEgress_program_common id vrf addr (ToDrop intf).

Definition BcmEgress_programToCPU (id intf vrf : Z) (addr : IPAddress)
  : M BcmSwitch BcmEgressBase :=
  BcmEgress_program_common id vrf addr (ToCPU intf).

(** Modelled from the spec: [BcmEcmpEgress::program] creates the group in
    hardware over the given member ids, in order, all reachable. *)
Definition BcmEcmpEgress_program (paths : list Z)
  : M BcmSwitch BcmEgressBase :=
  r <- sdk_call (opennsl_l3_egress_ecmp_create paths) ;;
  bcmCheckError (rc r) ;;;
  ret (BcmEcmpEgress (assigned r) ((λ p, (p, true)) <$> paths)).

(** Modelled from the spec: [BcmEcmpEgress::pathReachable] and
    [pathUnreachable] mark the given member path of a group reachable or
    unreachable; the other paths keep their mark. *)
Definition mark_path (reachable : bool) (path : Z) (e : BcmEgressBase)
  : BcmEgressBase :=
  match e with
  | BcmEcmpEgress id paths =>
      BcmEcmpEgress id
        ((λ p : Z * bool, if bool_decide (p.1 = path) then (p.1, reachable)
                          else p) <$> paths)
  | _ => e
  end.

Definition pathReachable := mark_path true.
Definition pathUnreachable := mark_path false.

(** Modelled from the spec: [BcmIntfTable::getBcmIntf(id)->getBcmIfId()],
    the hardware interface id of an interface; an unknown interface is an
    error reported to the caller. *)
Definition getBcmIfId (intf : Z) : M BcmSwitch Z :=
  s <- get ;;
  match intfTable_ s !! intf with
  | Some ifid => ret ifid
  | None => throw
  end.

(** Modelled from the spec: [BcmWarmBootCache::programmed] acknowledges a
    discovered host entry as claimed; it is consumed. *)
Definition programmed (key : HostKey) : M BcmSwitch unit :=
  log (WarmBootProgrammed key.1 key.2) ;;;
  modify (set_warmBootCache (delete key)).

(** *** BcmHost *)

(** The object a [BcmHost*] points to is the one the table holds under its
    key; a call through a pointer to no object does not return. *)
Definition this_host (key : HostKey) : M BcmSwitch BcmHost.t :=
  s <- get ;;
  match hosts_ s !! key with
  | Some (Some b, _) => ret (target b)
  | _ => fatal
  end.

(** An assignment to members of the host under [key]. *)
Definition update_host (key : HostKey) (f : BcmHost.t → BcmHost.t)
  : M BcmSwitch unit :=
  modify (set_hosts
            (alter (λ e, ((λ b, Box (address b) (f (target b))) <$> e.1, e.2))
                   key)).

(** [BcmHost::BcmHost].  A new host has no port (0) and is not added (the
    member initialisers are in BcmHost.h; the spec has port 0 for "no
    port" and the flag false until the first hardware add). *)
Definition BcmHost_ctor (vrf : Z) (addr : IPAddress) (referenced_egress : Z)
  : M BcmSwitch BcmHost.t :=
  (if bool_decide (referenced_egress ≠ INVALID)
   then incEgressReference referenced_egress ;;; ret tt
   else ret tt) ;;;
  ret (BcmHost.Make vrf addr referenced_egress 0 false).

Definition initHostCommon (h : BcmHost.t) : opennsl_l3_host_t :=
  L3Host (if isV4 (BcmHost.addr_ h) then 0 else Z.lor 0 OPENNSL_L3_IP6)
         (BcmHost.vrf_ h)
         (BcmHost.egressId_ h)
         (match BcmHost.addr_ h with IPAddressV4 a => a | _ => 0%N end)
         (match BcmHost.addr_ h with IPAddressV6 a => a | _ => 0%N end).

Definition equivalent (newHost existingHost : opennsl_l3_host_t) : bool :=
  let flagsEqual :=
    bool_decide (Z.land (l3a_flags existingHost) OPENNSL_L3_IP6
                 = Z.land (l3a_flags newHost) OPENNSL_L3_IP6)
    && bool_decide (Z.land (l3a_flags existingHost) OPENNSL_L3_MULTIPATH
                    = Z.land (l3a_flags newHost) OPENNSL_L3_MULTIPATH) in
  flagsEqual
  && bool_decide (l3a_vrf existingHost = l3a_vrf newHost)
  && bool_decide (l3a_intf existingHost = l3a_intf newHost).

(** The entry [addBcmHost] builds before it looks at the cache. *)
Definition l3_host_of (h : BcmHost.t) (isMultipath : bool)
  : opennsl_l3_host_t :=
  let host := initHostCommon h in
  if isMultipath
  then L3Host (Z.lor (l3a_flags host) OPENNSL_L3_MULTIPATH) (l3a_vrf host)
              (l3a_intf host) (l3a_ip_addr host) (l3a_ip6_addr host)
  else host.

Definition BcmHost_addBcmHost (key : HostKey) (isMultipath : bool)
  : M BcmSwitch unit :=
  h <- this_host key ;;
  if BcmHost.added_ h then ret tt else
  let host := l3_host_of h isMultipath in
  s <- get ;;
  match warmBootCache_ s !! (BcmHost.vrf_ h, BcmHost.addr_ h) with
  | Some existingHost =>
      (if negb (equivalent host existingHost) then fatal else ret tt) ;;;
      programmed (BcmHost.vrf_ h, BcmHost.addr_ h)
  | None =>
      r <- sdk_call (opennsl_l3_host_add host) ;;
      bcmCheckError (rc r)
  end ;;;
  update_host key (λ h, BcmHost.Make (BcmHost.vrf_ h) (BcmHost.addr_ h)
                          (BcmHost.egressId_ h) (BcmHost.port_ h) true).

Definition BcmHost_program (key : HostKey) (intf : Z)
    (mac : option MacAddress) (port : Z) (action : RouteForwardAction)
  : M BcmSwitch unit :=
  h <- this_host key ;;
  let created := bool_decide (BcmHost.egressId_ h = INVALID) in
  s <- get ;;
  id <- (if created then ret INVALID
         else match getEgressObjectIf s (BcmHost.egressId_ h) with
              | Some (BcmEgress id _) => ret id
              | _ => fatal
              end) ;;
  egress <- match mac with
            | Some mac =>
                BcmEgress_program id intf (BcmHost.vrf_ h) (BcmHost.addr_ h)
                                  mac port
            | None =>
                match action with
                | DROP => BcmEgress_programToDrop id intf (BcmHost.vrf_ h)
                                                  (BcmHost.addr_ h)
                | _ => BcmEgress_programToCPU id intf (BcmHost.vrf_ h)
                                              (BcmHost.addr_ h)
                end
            end ;;
  (if created then
     update_host key (λ h, BcmHost.Make (BcmHost.vrf_ h) (BcmHost.addr_ h)
                             (getID egress) (BcmHost.port_ h)
                             (BcmHost.added_ h)) ;;;
     insertBcmEgress egress
   else
     modify (set_egressMap (alter (λ e, (egress, e.2)) (BcmHost.egressId_ h))))
  ;;;
  (if negb (BcmHost.added_ h) then BcmHost_addBcmHost key false else ret tt) ;;;
  updatePortEgressMapping (getID egress) (BcmHost.port_ h) port ;;;
  update_host key (λ h, BcmHost.Make (BcmHost.vrf_ h) (BcmHost.addr_ h)
                          (BcmHost.egressId_ h) port (BcmHost.added_ h)).

(** Modelled from the spec: [BcmHost::programToCPU(intf)] of BcmHost.h
    programs the host to punt to the CPU through [intf]; such an entry has
    no port. *)
Definition BcmHost_programToCPU (key : HostKey) (intf : Z)
  : M BcmSwitch unit :=
  BcmHost_program key intf None 0 TO_CPU.

Definition BcmHost_dtor (h : BcmHost.t) : M BcmSwitch unit :=
  if negb (BcmHost.added_ h) then ret tt else
  r <- sdk_call (opennsl_l3_host_delete (initHostCommon h)) ;;
  bcmLogFatal (rc r) ;;;
  derefEgress (BcmHost.egressId_ h) ;;;
  ret tt.

(** *** The reference-counted host maps *)

(** The two function templates of [BcmHostTable] over a [HostMap<KeyT,
    HostT>]: the map is a member of the table, [construct] stands for
    [HostT(hw_, key.first, key.second, args...)], [destroy] for [~HostT()],
    and [released] names the event an observer sees when a reference is
    dropped. *)
Section HostMap.
Context {KeyT HostT : Type} `{Countable KeyT}.
Variable map_of : BcmSwitch → gmap KeyT (option (boxed HostT) * nat).
Variable set_map :
  (gmap KeyT (option (boxed HostT) * nat) →
   gmap KeyT (option (boxed HostT) * nat)) → BcmSwitch → BcmSwitch.
Variable construct : KeyT → M BcmSwitch HostT.
Variable destroy : HostT → M BcmSwitch unit.
Variable released : KeyT → Event.

(** [folly::make_unique<HostT>(...)]: a new heap object, then its
    constructor. *)
Definition make_unique (ctor : M BcmSwitch HostT)
  : M BcmSwitch (boxed HostT) :=
  s <- get ;;
  modify (set_heap_next N.succ) ;;;
  obj <- ctor ;;
  ret (Box (heap_next s) obj).

Definition incRefOrCreateBcmHost_ (key : KeyT) : M BcmSwitch (option N) :=
  s <- get ;;
  match map_of s !! key with
  | Some (host, n) =>
      modify (set_map <[key := (host, S n)]>) ;;;
      ret (address <$> host)
  | None =>
      modify (set_map <[key := (None, 1%nat)]>) ;;;
      SCOPE_FAIL (modify (set_map (delete key)))
        (newHost <- make_unique (construct key) ;;
         modify (set_map (alter (λ e, (Some newHost, e.2)) key)) ;;;
         ret (Some (address newHost)))
  end.

Definition getBcmHostIf_ (s : BcmSwitch) (key : KeyT) : option N :=
  match map_of s !! key with
  | None => None
  | Some (host, _) => address <$> host
  end.

Definition derefBcmHost_ (key : KeyT) : M BcmSwitch (option N) :=
  noexcept
    (s <- get ;;
     match map_of s !! key with
     | None => ret None
     | Some (host, n) =>
         CHECK (0 <? n)%nat ;;;
         log (released key) ;;;
         if (n - 1 =? 0)%nat then
           modify (set_map (delete key)) ;;;
           match host with
           | Some b => destroy (target b)
           | None => ret tt
           end ;;;
           ret None
         else
           modify (set_map <[key := (host, (n - 1)%nat)]>) ;;;
           ret (address <$> host)
     end).
End HostMap.

Definition incRefOrCreateBcmHost (vrf : Z) (addr : IPAddress)
  : M BcmSwitch (option N) :=
  incRefOrCreateBcmHost_ hosts_ set_hosts
    (λ key, BcmHost_ctor key.1 key.2 INVALID) (vrf, addr).

Definition incRefOrCreateBcmHost_egress (vrf : Z) (addr : IPAddress)
    (egressId : Z) : M BcmSwitch (option N) :=
  incRefOrCreateBcmHost_ hosts_ set_hosts
    (λ key, BcmHost_ctor key.1 key.2 egressId) (vrf, addr).

Definition getBcmHostIf (s : BcmSwitch) (vrf : Z) (addr : IPAddress)
  : option N :=
  getBcmHostIf_ hosts_ s (vrf, addr).

(** [getBcmHost]: the lookup that throws an [FbossError] when
    [getBcmHostIf] finds no host. *)
Definition getBcmHost (vrf : Z) (addr : IPAddress) : M BcmSwitch N :=
  s <- get ;;
  match getBcmHostIf s vrf addr with
  | None => throw
  | Some host => ret host
  end.

Definition derefBcmHost (vrf : Z) (addr : IPAddress)
  : M BcmSwitch (option N) :=
  derefBcmHost_ hosts_ set_hosts BcmHost_dtor
    (λ key, HostReleased key.1 key.2) (vrf, addr).

(** *** BcmEcmpHost *)

(** The locals of the constructor that its scope guard reads. *)
Record EcmpLocals := Locals { prog : RouteForwardNexthops; paths : list Z }.

(** The scope guard of the constructor: every next hop recorded in [prog]
    so far gives its host reference back. *)
Definition BcmEcmpHost_ctor_guard (vrf : Z) : M (BcmSwitch * EcmpLocals) unit :=
  l <- locals ;;
  lift (for_each (prog l)
          (λ nhop, derefBcmHost vrf (nexthop nhop) ;;; ret tt)).

(** The body of the constructor's loop over the next hops, for one next
    hop.  [host], the pointer [incRefOrCreateBcmHost] returned, is the
    object under the key (vrf, nhop.nexthop). *)
Definition BcmEcmpHost_ctor_path (vrf : Z) (nhop : RouteForwardInfo)
  : M (BcmSwitch * EcmpLocals) unit :=
  lift (incRefOrCreateBcmHost vrf (nexthop nhop)) ;;;
  l <- locals ;;
  CHECK (bool_decide (nhop ∉ prog l)) ;;;
  set_locals (λ l, Locals (prog l ++ [nhop]) (paths l)) ;;;
  host <- lift (this_host (vrf, nexthop nhop)) ;;
  (if negb (BcmHost.added_ host) then
     ifid <- lift (getBcmIfId (intf nhop)) ;;
     lift (BcmHost_programToCPU (vrf, nexthop nhop) ifid)
   else ret tt) ;;;
  host <- lift (this_host (vrf, nexthop nhop)) ;;
  set_locals (λ l, Locals (prog l) (paths l ++ [BcmHost.egressId_ host])).

Definition BcmEcmpHost_ctor (vrf : Z) (fwd : RouteForwardNexthops)
  : M BcmSwitch BcmEcmpHost.t :=
  CHECK (0 <? length fwd)%nat ;;;
  with_locals (Locals [] [])
    (SCOPE_FAIL (BcmEcmpHost_ctor_guard vrf)
       (for_each fwd (BcmEcmpHost_ctor_path vrf) ;;;
        l <- locals ;;
        if (length (paths l) =? 1)%nat then
          ret (BcmEcmpHost.Make vrf (prog l) (default INVALID (head (paths l)))
                                INVALID)
        else
          ecmp <- lift (BcmEcmpEgress_program (take (length fwd) (paths l))) ;;
          lift (insertBcmEgress ecmp) ;;;
          ret (BcmEcmpHost.Make vrf (prog l) (getID ecmp) (getID ecmp)))).

Definition BcmEcmpHost_dtor (h : BcmEcmpHost.t) : M BcmSwitch unit :=
  (if bool_decide (BcmEcmpHost.ecmpEgressId_ h ≠ INVALID)
   then derefEgress (BcmEcmpHost.ecmpEgressId_ h) ;;; ret tt
   else ret tt) ;;;
  for_each (BcmEcmpHost.fwd_ h)
    (λ nhop, derefBcmHost (BcmEcmpHost.vrf_ h) (nexthop nhop) ;;; ret tt).

Definition incRefOrCreateBcmEcmpHost (vrf : Z) (fwd : RouteForwardNexthops)
  : M BcmSwitch (option N) :=
  incRefOrCreateBcmHost_ ecmpHosts_ set_ecmpHosts
    (λ key, BcmEcmpHost_ctor key.1 key.2) (vrf, fwd).

Definition getBcmEcmpHostIf (s : BcmSwitch) (vrf : Z)
    (fwd : RouteForwardNexthops) : option N :=
  getBcmHostIf_ ecmpHosts_ s (vrf, fwd).

Definition getBcmEcmpHost (vrf : Z) (fwd : RouteForwardNexthops)
  : M BcmSwitch N :=
  s <- get ;;
  match getBcmEcmpHostIf s vrf fwd with
  | None => throw
  | Some host => ret host
  end.

Definition derefBcmEcmpHost (vrf : Z) (fwd : RouteForwardNexthops)
  : M BcmSwitch (option N) :=
  derefBcmHost_ ecmpHosts_ set_ecmpHosts BcmEcmpHost_dtor
    (λ key, EcmpHostReleased key.1 key.2) (vrf, fwd).

(** *** Link state *)

(** Modelled from the spec: [getEgressObject], declared in the header; a
    group id that resolves to no object, or to one that is not a group, is a
    fatal inconsistency. *)
Definition getEcmpEgressObject (ecmpId : Z) : M BcmSwitch BcmEgressBase :=
  s <- get ;;
  match getEgressObjectIf s ecmpId with
  | Some (BcmEcmpEgress id paths) => ret (BcmEcmpEgress id paths)
  | _ => fatal
  end.

(** The two loops run over the entries of a map and of a set; the marks
    of different paths and of different groups do not depend on the order
    in which they are made. *)
Definition linkStateChanged (port : Z) (up : bool) : M BcmSwitch unit :=
  s <- get ;;
  let affectedPaths := getEgressIdsForPort s port in
  if bool_decide (affectedPaths = ∅) then ret tt else
  for_each (map_to_list (ecmpHosts_ s))
    (λ nextHopsAndEcmpHostInfo,
       match nextHopsAndEcmpHostInfo.2.1 with
       | None => fatal
       | Some ecmpHost =>
           let ecmpId := BcmEcmpHost.ecmpEgressId_ (target ecmpHost) in
           if bool_decide (ecmpId = INVALID) then ret tt else
           getEcmpEgressObject ecmpId ;;;
           for_each (elements affectedPaths)
             (λ path,
                modify (set_egressMap
                          (alter (λ e, ((if up then pathReachable path
                                         else pathUnreachable path) e.1, e.2))
                                 ecmpId)))
       end).


(** *** State export *)

Variable exporter : Exporter.

(** The three [toFollyDynamic] functions are [const] and build a value; a
    call through a null pointer has no object to run on and gives no value
    ([None]).  An assignment [obj[key] = v] sets the key or overwrites
    it. *)
Definition BcmHost_toFollyDynamic (s : BcmSwitch) (h : BcmHost.t)
  : option dynamic :=
  let host := (∅ : gmap string dynamic) in
  let host := <[kVrf := dInt (BcmHost.vrf_ h)]> host in
  let host :=
    <[kIp := dString (IPAddress_str exporter (BcmHost.addr_ h))]> host in
  let host := <[kPort := dInt (BcmHost.port_ h)]> host in
  let host := <[kEgressId := dInt (BcmHost.egressId_ h)]> host in
  if bool_decide (BcmHost.egressId_ h ≠ INVALID)
     && bool_decide (BcmHost.egressId_ h ≠ getDropEgressId exporter)
  then
    egress ← getEgressObjectIf s (BcmHost.egressId_ h);
    Some (dObject
            (<[kEgress := BcmEgressBase_toFollyDynamic exporter egress]>
               host))
  else Some (dObject host).

Definition BcmEcmpHost_toFollyDynamic (s : BcmSwitch) (h : BcmEcmpHost.t)
  : option dynamic :=
  let ecmpHost := (∅ : gmap string dynamic) in
  let ecmpHost := <[kVrf := dInt (BcmEcmpHost.vrf_ h)]> ecmpHost in
  let nhops :=
    RouteForwardInfo_toFollyDynamic exporter <$> BcmEcmpHost.fwd_ h in
  let ecmpHost := <[kNextHops := dArray nhops]> ecmpHost in
  let ecmpHost := <[kEgressId := dInt (BcmEcmpHost.egressId_ h)]> ecmpHost in
  let ecmpHost :=
    <[kEcmpEgressId := dInt (BcmEcmpHost.ecmpEgressId_ h)]> ecmpHost in
  if bool_decide (BcmEcmpHost.ecmpEgressId_ h ≠ INVALID)
  then
    egress ← getEgressObjectIf s (BcmEcmpHost.ecmpEgressId_ h);
    Some (dObject
            (<[kEcmpEgress := BcmEgressBase_toFollyDynamic exporter egress]>
               ecmpHost))
  else Some (dObject ecmpHost).

(** The two arrays are in the order in which the maps are iterated: in
    the source the order of the keys (which rests on the comparison of
    [folly::IPAddress]), here the order of [map_to_list]. *)
Definition BcmHostTable_toFollyDynamic (s : BcmSwitch) : option dynamic :=
  hostsJson ←
    mapM (λ vrfIpAndHost : HostKey * (option (boxed BcmHost.t) * nat),
            host ← vrfIpAndHost.2.1;
            BcmHost_toFollyDynamic s (target host))
         (map_to_list (hosts_ s));
  ecmpHostsJson ←
    mapM (λ vrfNhopsAndHost : EcmpKey * (option (boxed BcmEcmpHost.t) * nat),
            host ← vrfNhopsAndHost.2.1;
            BcmEcmpHost_toFollyDynamic s (target host))
         (map_to_list (ecmpHosts_ s));
  let hostTable := (∅ : gmap string dynamic) in
  let hostTable := <[kHosts := dArray hostsJson]> hostTable in
  let hostTable := <[kEcmpHosts := dArray ecmpHostsJson]> hostTable in
  Some (dObject hostTable).

(** ** Reading a computation *)

Ltac unfold_m :=
  unfold bind, ret, get, modify, throw, fatal, CHECK, log, noexcept,
    SCOPE_FAIL, bcmCheckError, bcmLogFatal.

Tactic Notation "unfold_m" "in" hyp(H) :=
  unfold bind, ret, get, modify, throw, fatal, CHECK, log, noexcept,
    SCOPE_FAIL, bcmCheckError, bcmLogFatal in H.

Lemma bind_Ok {S A B} (c : M S A) (k : A → M S B) s a s' :
  c s = Ok a s' → bind c k s = k a s'.
Proof. unfold bind. by intros ->. Qed.

Lemma bind_Throw {S A B} (c : M S A) (k : A → M S B) s s' :
  c s = Throw s' → bind c k s = Throw s'.
Proof. unfold bind. by intros ->. Qed.

Lemma bind_Fatal {S A B} (c : M S A) (k : A → M S B) s s' :
  c s = Fatal s' → bind c k s = Fatal s'.
Proof. unfold bind. by intros ->. Qed.

(** What a bind that returns went through. *)
Lemma bind_Ok_inv {S A B} (c : M S A) (k : A → M S B) s b s'' :
  bind c k s = Ok b s'' → ∃ a s', c s = Ok a s' ∧ k a s' = Ok b s''.
Proof. unfold bind. destruct (c s); [eauto | done | done]. Qed.

Lemma bind_Throw_inv {S A B} (c : M S A) (k : A → M S B) s s' :
  bind c k s = Throw s' →
  c s = Throw s' ∨ ∃ a s1, c s = Ok a s1 ∧ k a s1 = Throw s'.
Proof.
  unfold bind. destruct (c s); intros Heq;
    [right; eauto | left; congruence | discriminate].
Qed.

Lemma lift_Ok_inv {L A} (c : M BcmSwitch A) (s : BcmSwitch) (l : L) a sl :
  lift c (s, l) = Ok a sl → ∃ s', c s = Ok a s' ∧ sl = (s', l).
Proof.
  unfold lift. simpl. destruct (c s); [| done | done].
  intros [= <- <-]. eauto.
Qed.

Lemma with_locals_Ok_inv {L A} (init : L) (c : M (BcmSwitch * L) A) s a s' :
  with_locals init c s = Ok a s' → ∃ l, c (s, init) = Ok a (s', l).
Proof.
  unfold with_locals. destruct (c (s, init)) as [a' [s1 l] | |]; [| done | done].
  intros [= <- <-]. eauto.
Qed.

Lemma SCOPE_FAIL_Ok_inv {S A} (cleanup : M S unit) (body : M S A) s a s' :
  SCOPE_FAIL cleanup body s = Ok a s' → body s = Ok a s'.
Proof.
  unfold SCOPE_FAIL. destruct (body s) as [| s1 |]; [done | | done].
  by destruct (cleanup s1).
Qed.

(** ** Port reverse index *)

Lemma port_set_erase egressId port m p :
  port_set (port_erase egressId port m) p =
  if bool_decide (p = port) then port_set m p ∖ {[egressId]} else port_set m p.
Proof.
  unfold port_erase, port_set at 1. case_bool_decide as Hp.
  - subst p. by rewrite lookup_insert_eq.
  - by rewrite lookup_insert_ne.
Qed.

Lemma port_set_insert egressId port m p :
  port_set (port_insert egressId port m) p =
  if bool_decide (p = port) then port_set m p ∪ {[egressId]} else port_set m p.
Proof.
  unfold port_insert, port_set at 1. case_bool_decide as Hp.
  - subst p. by rewrite lookup_insert_eq.
  - by rewrite lookup_insert_ne.
Qed.

Lemma getEgressIdsForPort_port_set s port :
  getEgressIdsForPort s port = port_set (port2EgressIds_ s) port.
Proof. unfold getEgressIdsForPort, port_set. by destruct (_ !! _). Qed.

Lemma updatePortEgressMapping_map_other egressId oldPort newPort m p :
  (p = 0 ∨ (p ≠ oldPort ∧ p ≠ newPort)) →
  updatePortEgressMapping_map egressId oldPort newPort m !! p = m !! p.
Proof.
  intros Hp. unfold updatePortEgressMapping_map, port_insert, port_erase.
  repeat case_bool_decide; rewrite ?lookup_insert_ne; auto; naive_solver.
Qed.

Lemma port_set_updatePortEgressMapping_map egressId oldPort newPort m port :
  port_set (updatePortEgressMapping_map egressId oldPort newPort m) port =
  let ids := port_set m port in
  let ids := if bool_decide (port = oldPort ∧ oldPort ≠ 0)
             then ids ∖ {[egressId]} else ids in
  if bool_decide (port = newPort ∧ newPort ≠ 0)
  then ids ∪ {[egressId]} else ids.
Proof.
  unfold updatePortEgressMapping_map.
  destruct (bool_decide (oldPort ≠ 0)) eqn:Ho;
    destruct (bool_decide (newPort ≠ 0)) eqn:Hn;
    rewrite ?port_set_insert, ?port_set_erase;
    repeat case_bool_decide; try done; naive_solver.
Qed.

(** C9.  [updatePortEgressMapping(egressId, oldPort, newPort)] always
    returns; afterwards the set indexed under a port is the set before, with
    [egressId] erased when the port is [oldPort] and [oldPort] is non-zero,
    and then [egressId] inserted when the port is [newPort] and [newPort] is
    non-zero; the entry of port 0 and of every port other than the two is
    the very entry of before, and nothing but the index changes. *)
Theorem updatePortEgressMapping_spec (egressId oldPort newPort : Z)
    (s : BcmSwitch) :
  ∃ s', updatePortEgressMapping egressId oldPort newPort s = Ok tt s'
    ∧ (∀ port,
         getEgressIdsForPort s' port =
         let ids := getEgressIdsForPort s port in
         let ids := if bool_decide (port = oldPort ∧ oldPort ≠ 0)
                    then ids ∖ {[egressId]} else ids in
         if bool_decide (port = newPort ∧ newPort ≠ 0)
         then ids ∪ {[egressId]} else ids)
    ∧ port2EgressIds_ s' !! 0 = port2EgressIds_ s !! 0
    ∧ (∀ port, port ≠ oldPort ∧ port ≠ newPort →
               port2EgressIds_ s' !! port = port2EgressIds_ s !! port)
    ∧ set_port2EgressIds (λ _, port2EgressIds_ s) s' = s.
Proof.
  eexists. split; [reflexivity |]. simpl. repeat split.
  - intros port. rewrite !getEgressIdsForPort_port_set. simpl.
    apply port_set_updatePortEgressMapping_map.
  - apply updatePortEgressMapping_map_other. by left.
  - intros port Hp. apply updatePortEgressMapping_map_other. by right.
  - by destruct s.
Qed.

(** ** Dereferencing an absent key *)

(** C4, as the code has it.  [derefEgress] of an id that the egress
    registry does not hold aborts; [derefBcmHost] and [derefBcmEcmpHost] of
    a key their map does not hold return a null pointer and change
    nothing. *)
Theorem deref_absent (s : BcmSwitch) (egressId vrf : Z) (addr : IPAddress)
    (fwd : RouteForwardNexthops) :
  egressMap_ s !! egressId = None →
  hosts_ s !! (vrf, addr) = None →
  ecmpHosts_ s !! (vrf, fwd) = None →
  derefEgress egressId s = Fatal s
  ∧ derefBcmHost vrf addr s = Ok None s
  ∧ derefBcmEcmpHost vrf fwd s = Ok None s.
Proof.
  intros He Hh Hm. repeat split.
  - unfold derefEgress. unfold_m. by rewrite He.
  - unfold derefBcmHost, derefBcmHost_. unfold_m. by rewrite Hh.
  - unfold derefBcmEcmpHost, derefBcmHost_. unfold_m. by rewrite Hm.
Qed.

(** ** Warm boot reconciliation *)

Definition mark_added (h : BcmHost.t) : BcmHost.t :=
  BcmHost.Make (BcmHost.vrf_ h) (BcmHost.addr_ h) (BcmHost.egressId_ h)
               (BcmHost.port_ h) true.

(** C2.  [addBcmHost] on a host that is not yet added, when the warm boot
    cache holds an entry for the host's (vrf, address): if the entry is
    equivalent to the one the host computes, the call returns, the only
    event is one acknowledgement of that entry (no SDK call), the host is
    marked added, and calling again does nothing at all; if it is not
    equivalent, the call aborts at once. *)
Theorem addBcmHost_warm_boot (key : HostKey) (isMultipath : bool)
    (s : BcmSwitch) (b : boxed BcmHost.t) (n : nat)
    (existingHost : opennsl_l3_host_t) :
  hosts_ s !! key = Some (Some b, n) →
  BcmHost.added_ (target b) = false →
  warmBootCache_ s !! (BcmHost.vrf_ (target b), BcmHost.addr_ (target b))
    = Some existingHost →
  if equivalent (l3_host_of (target b) isMultipath) existingHost then
    ∃ s', BcmHost_addBcmHost key isMultipath s = Ok tt s'
      ∧ trace s' = trace s ++ [WarmBootProgrammed (BcmHost.vrf_ (target b))
                                                  (BcmHost.addr_ (target b))]
      ∧ hosts_ s' !! key
        = Some (Some (Box (address b) (mark_added (target b))), n)
      ∧ BcmHost_addBcmHost key isMultipath s' = Ok tt s'
  else BcmHost_addBcmHost key isMultipath s = Fatal s.
Proof.
  intros Hk Ha Hc.
  destruct (equivalent _ _) eqn:Heq.
  - eexists. split; [| split; [| split]].
    + unfold BcmHost_addBcmHost, this_host, programmed, update_host.
      unfold_m. rewrite Hk. simpl. rewrite Ha, Hc, Heq. simpl. reflexivity.
    + reflexivity.
    + simpl. rewrite lookup_alter_eq, Hk. reflexivity.
    + unfold BcmHost_addBcmHost, this_host. unfold_m. simpl.
      rewrite lookup_alter_eq, Hk. reflexivity.
  - unfold BcmHost_addBcmHost, this_host. unfold_m.
    rewrite Hk. simpl. rewrite Ha, Hc, Heq. reflexivity.
Qed.

(** ** A host that is destroyed before it was added *)

(** C10.  Constructing a host over a valid referenced egress id, in a table
    that holds that egress object, adds one to the object's reference
    count; and destroying a host that was never marked added (the last
    reference to its key is dropped) issues no SDK call and leaves the
    egress registry untouched.  So a host constructed and then destroyed
    without having been added leaves the count one higher than it was. *)
Theorem BcmHost_not_added_keeps_egress_reference (vrf : Z) (addr : IPAddress)
    (egressId : Z) (s : BcmSwitch) (obj : BcmEgressBase) (n : nat) :
  egressId ≠ INVALID →
  hosts_ s !! (vrf, addr) = None →
  egressMap_ s !! egressId = Some (obj, n) →
  (∃ s1,
     incRefOrCreateBcmHost_egress vrf addr egressId s
       = Ok (Some (heap_next s)) s1
     ∧ hosts_ s1 !! (vrf, addr)
       = Some (Some (Box (heap_next s)
                         (BcmHost.Make vrf addr egressId 0 false)), 1%nat)
     ∧ egressMap_ s1 !! egressId = Some (obj, S n)
     ∧ ∃ s2, derefBcmHost vrf addr s1 = Ok None s2
           ∧ hosts_ s2 !! (vrf, addr) = None
           ∧ egressMap_ s2 !! egressId = Some (obj, S n))
  ∧ (∀ s' b, hosts_ s' !! (vrf, addr) = Some (Some b, 1%nat) →
             BcmHost.added_ (target b) = false →
             ∃ s'', derefBcmHost vrf addr s' = Ok None s''
                  ∧ hosts_ s'' !! (vrf, addr) = None
                  ∧ egressMap_ s'' = egressMap_ s'
                  ∧ trace s'' = trace s' ++ [HostReleased vrf addr]).
Proof.
  intros Hv Hh He.
  assert (Hdtor : ∀ s' b, hosts_ s' !! (vrf, addr) = Some (Some b, 1%nat) →
             BcmHost.added_ (target b) = false →
             ∃ s'', derefBcmHost vrf addr s' = Ok None s''
                  ∧ hosts_ s'' !! (vrf, addr) = None
                  ∧ egressMap_ s'' = egressMap_ s'
                  ∧ trace s'' = trace s' ++ [HostReleased vrf addr]).
  { intros s' b Hb Ha. eexists. split; [| split; [| split]].
    - unfold derefBcmHost, derefBcmHost_, BcmHost_dtor. unfold_m.
      rewrite Hb. simpl. rewrite Ha. simpl. reflexivity.
    - simpl. apply lookup_delete_eq.
    - reflexivity.
    - reflexivity. }
  split; [| exact Hdtor].
  eexists. split; [| split; [| split]].
  - unfold incRefOrCreateBcmHost_egress, incRefOrCreateBcmHost_, make_unique,
      BcmHost_ctor, incEgressReference.
    unfold_m. rewrite Hh. simpl.
    rewrite bool_decide_eq_true_2 by done. simpl. rewrite He. simpl.
    reflexivity.
  - simpl. rewrite lookup_alter_eq, lookup_insert_eq. reflexivity.
  - simpl. apply lookup_insert_eq.
  - edestruct Hdtor as (s2 & Hd & Hk2 & He2 & _);
      [ | | exists s2; split; [exact Hd | split; [exact Hk2 |]]].
    + simpl. rewrite lookup_alter_eq, lookup_insert_eq. reflexivity.
    + reflexivity.
    + rewrite He2. simpl. apply lookup_insert_eq.
Qed.

(** ** What a computation leaves alone *)

(** [preserves R c]: whatever way [c] ends, the state it ends in is
    [R]-related to the one it started from. *)
Section Preserves.
Context {S : Type} (R : relation S) `{!PreOrder R}.

Definition preserves {A} (c : M S A) : Prop := ∀ s, R s (final (c s)).

Lemma preserves_ret {A} (a : A) : preserves (ret a).
Proof. intros s. simpl. reflexivity. Qed.

Lemma preserves_throw {A} : preserves (@throw S A).
Proof. intros s. simpl. reflexivity. Qed.

Lemma preserves_fatal {A} : preserves (@fatal S A).
Proof. intros s. simpl. reflexivity. Qed.

Lemma preserves_get : preserves (@get S).
Proof. intros s. simpl. reflexivity. Qed.

Lemma preserves_CHECK b : preserves (@CHECK S b).
Proof. destruct b; intros s; simpl; reflexivity. Qed.

Lemma preserves_modify f : (∀ s, R s (f s)) → preserves (modify f).
Proof. intros Hf s. apply Hf. Qed.

Lemma preserves_bind {A B} (c : M S A) (k : A → M S B) :
  preserves c → (∀ a, preserves (k a)) → preserves (bind c k).
Proof.
  intros Hc Hk s. unfold bind. specialize (Hc s).
  destruct (c s) as [a s' | s' | s']; simpl in *; [| done | done].
  etrans; [exact Hc | apply Hk].
Qed.

Lemma preserves_noexcept {A} (c : M S A) :
  preserves c → preserves (noexcept c).
Proof.
  intros Hc s. unfold noexcept. specialize (Hc s). by destruct (c s).
Qed.

Lemma preserves_SCOPE_FAIL {A} (cleanup : M S unit) (body : M S A) :
  preserves cleanup → preserves body → preserves (SCOPE_FAIL cleanup body).
Proof.
  intros Hc Hb s. unfold SCOPE_FAIL. specialize (Hb s).
  destruct (body s) as [a s' | s' | s']; simpl in *; [done | | done].
  specialize (Hc s'). destruct (cleanup s'); simpl in *; by etrans.
Qed.

Lemma preserves_for_each {A} (l : list A) (body : A → M S unit) :
  (∀ x, preserves (body x)) → preserves (for_each l body).
Proof.
  intros Hb. induction l as [| x l IH]; simpl.
  - apply preserves_ret.
  - apply preserves_bind; [apply Hb | intros _; exact IH].
Qed.

Lemma preserves_repeatM {A} n (c : M S A) :
  preserves c → preserves (repeatM n c).
Proof.
  intros Hc. induction n as [| n IH]; simpl.
  - apply preserves_ret.
  - apply preserves_bind; [done | intros a].
    apply preserves_bind; [done | intros r; apply preserves_ret].
Qed.
End Preserves.

(** The same for a block with locals: the relation looks at the switch. *)
Definition on_switch {L} (R : relation BcmSwitch)
  : relation (BcmSwitch * L) :=
  λ x y, R x.1 y.1.

#[local] Instance on_switch_preorder {L} (R : relation BcmSwitch)
  `{!PreOrder R} : PreOrder (@on_switch L R).
Proof.
  split.
  - intros x. unfold on_switch. reflexivity.
  - intros x y z. unfold on_switch. apply transitivity.
Qed.

Lemma preserves_lift {L A} (R : relation BcmSwitch) (c : M BcmSwitch A) :
  preserves R c → preserves (@on_switch L R) (lift c).
Proof.
  intros Hc [s l]. unfold lift, on_switch. simpl. specialize (Hc s).
  by destruct (c s).
Qed.

Lemma preserves_locals {L} (R : relation BcmSwitch) `{!PreOrder R} :
  preserves (@on_switch L R) locals.
Proof. intros [s l]. unfold on_switch. simpl. reflexivity. Qed.

Lemma preserves_set_locals {L} (R : relation BcmSwitch) `{!PreOrder R}
    (f : L → L) :
  preserves (on_switch R) (set_locals f).
Proof. intros [s l]. unfold on_switch. simpl. reflexivity. Qed.

Lemma preserves_with_locals {L A} (R : relation BcmSwitch) (init : L)
    (c : M (BcmSwitch * L) A) :
  preserves (on_switch R) c → preserves R (with_locals init c).
Proof.
  intros Hc s. unfold with_locals. specialize (Hc (s, init)).
  unfold on_switch in Hc. by destruct (c (s, init)).
Qed.

(** One step of a proof that a computation preserves a relation: take the
    computation apart along its syntax. *)
Ltac preserves_step :=
  first
    [ apply preserves_ret | apply preserves_throw | apply preserves_fatal
    | apply preserves_get | apply preserves_CHECK
    | apply preserves_locals | apply preserves_set_locals
    | apply preserves_bind; [.. | intros ?]
    | apply preserves_noexcept
    | apply preserves_SCOPE_FAIL
    | apply preserves_for_each; [.. | intros ?]
    | apply preserves_repeatM
    | apply preserves_lift
    | apply preserves_with_locals
    | lazymatch goal with
      | |- preserves _ (match ?x with _ => _ end) => destruct x
      | |- preserves _ (let _ := _ in _) => cbv zeta
      end ];
  lazymatch goal with
  | |- PreOrder _ => apply _
  | _ => idtac
  end.

(** The relations used below: the trace only grows; a member of the table
    keeps its value. *)
Definition trace_grows : relation BcmSwitch :=
  λ s s', trace s `prefix_of` trace s'.

Definition same {T} (f : BcmSwitch → T) : relation BcmSwitch :=
  λ s s', f s' = f s.

#[local] Instance trace_grows_preorder : PreOrder trace_grows.
Proof.
  split.
  - intros s. unfold trace_grows. reflexivity.
  - intros x y z. unfold trace_grows. apply transitivity.
Qed.

#[local] Instance same_preorder {T} (f : BcmSwitch → T) : PreOrder (same f).
Proof.
  split.
  - intros s. reflexivity.
  - intros x y z Hxy Hyz. unfold same in *. congruence.
Qed.

Create HintDb frame discriminated.

Ltac preserves_modify :=
  apply preserves_modify; intros ?; unfold trace_grows, same; simpl;
  first [reflexivity | by apply prefix_app_r].

Ltac solve_preserves :=
  repeat first
    [solve [eauto 2 with frame nocore] | preserves_step | preserves_modify].

Lemma log_trace_grows e : preserves trace_grows (log e).
Proof. unfold log. solve_preserves. Qed.

Lemma sdk_call_trace_grows c : preserves trace_grows (sdk_call c).
Proof. unfold sdk_call, log. solve_preserves. Qed.

Lemma derefEgress_trace_grows id : preserves trace_grows (derefEgress id).
Proof. unfold derefEgress, log. solve_preserves. Qed.

#[local] Hint Resolve log_trace_grows sdk_call_trace_grows
  derefEgress_trace_grows : frame.

Lemma BcmHost_dtor_trace_grows h : preserves trace_grows (BcmHost_dtor h).
Proof. unfold BcmHost_dtor, bcmLogFatal. solve_preserves. Qed.

#[local] Hint Resolve BcmHost_dtor_trace_grows : frame.

Lemma derefBcmHost_trace_grows vrf addr :
  preserves trace_grows (derefBcmHost vrf addr).
Proof. unfold derefBcmHost, derefBcmHost_. solve_preserves. Qed.

#[local] Hint Resolve derefBcmHost_trace_grows : frame.

(** ** Order of release in [~BcmEcmpHost] *)

Lemma derefEgress_cases id s :
  derefEgress id s = Fatal s
  ∨ ∃ r s', derefEgress id s = Ok r s'
          ∧ trace s' = trace s ++ [EgressReleased id].
Proof.
  unfold derefEgress. unfold_m.
  destruct (egressMap_ s !! id) as [[obj n] |]; [| by left].
  destruct (0 <? n)%nat; [| by left].
  right. simpl. destruct (n - 1 =? 0)%nat; simpl; eauto.
Qed.

(** C8.  In [~BcmEcmpHost] of a host that owns a group ([ecmpEgressId_] is
    not the invalid id), either the process aborts before anything was
    released, or the first reference released is the group's; so whenever a
    member host's reference is released, the release of the group's
    reference has come before it. *)
Theorem BcmEcmpHost_dtor_group_first (h : BcmEcmpHost.t) (s : BcmSwitch) :
  BcmEcmpHost.ecmpEgressId_ h ≠ INVALID →
  (BcmEcmpHost_dtor h s = Fatal s
   ∨ ∃ tl, trace (final (BcmEcmpHost_dtor h s))
           = trace s ++ EgressReleased (BcmEcmpHost.ecmpEgressId_ h) :: tl)
  ∧ (∀ pre vrf addr post,
       trace (final (BcmEcmpHost_dtor h s))
       = trace s ++ pre ++ HostReleased vrf addr :: post →
       EgressReleased (BcmEcmpHost.ecmpEgressId_ h) ∈ pre).
Proof.
  intros Hv.
  assert (Hfirst :
    BcmEcmpHost_dtor h s = Fatal s
    ∨ ∃ tl, trace (final (BcmEcmpHost_dtor h s))
            = trace s ++ EgressReleased (BcmEcmpHost.ecmpEgressId_ h) :: tl).
  { unfold BcmEcmpHost_dtor. rewrite bool_decide_eq_true_2 by done.
    destruct (derefEgress_cases (BcmEcmpHost.ecmpEgressId_ h) s)
      as [Hf | (r & s' & Hd & Ht)].
    - left. apply bind_Fatal. by apply bind_Fatal.
    - right. erewrite bind_Ok; [| erewrite bind_Ok; [| exact Hd]; reflexivity].
      assert (Hp : preserves trace_grows
                (for_each (BcmEcmpHost.fwd_ h)
                   (λ nhop, derefBcmHost (BcmEcmpHost.vrf_ h) (nexthop nhop)
                            ;;; ret tt))) by solve_preserves.
      destruct (Hp s') as [k Hk]. rewrite Hk, Ht, <- app_assoc.
      simpl. eauto. }
  split; [exact Hfirst |].
  intros pre vrf addr post Ht.
  destruct Hfirst as [Hf | [tl Htl]].
  - rewrite Hf in Ht. simpl in Ht.
    rewrite <- (app_nil_r (trace s)) in Ht at 1.
    apply app_inv_head in Ht. by destruct pre.
  - rewrite Htl in Ht. apply app_inv_head in Ht.
    destruct pre as [| e pre]; simpl in Ht; [done |].
    injection Ht as <- _. apply list_elem_of_here.
Qed.

(** ** Link state fan-out *)

(** A group with every path whose egress id is in [affected] marked [up],
    the other paths as they were; any other object as it was. *)
Definition mark_affected (up : bool) (affected : gset Z) (e : BcmEgressBase)
  : BcmEgressBase :=
  match e with
  | BcmEcmpEgress id paths =>
      BcmEcmpEgress id
        ((λ p : Z * bool, if bool_decide (p.1 ∈ affected) then (p.1, up)
                          else p) <$> paths)
  | _ => e
  end.

(** [id] is the group of a live ECMP host. *)
Definition owns_group (s : BcmSwitch) (id : Z) : Prop :=
  ∃ key b n, ecmpHosts_ s !! key = Some (Some b, n)
           ∧ BcmEcmpHost.ecmpEgressId_ (target b) = id
           ∧ id ≠ INVALID.

(** Every entry of the ECMP map holds a host, and its group id, when it has
    one, is the id of a group in the egress registry. *)
Definition groups_resolve (s : BcmSwitch) : Prop :=
  ∀ key e n, ecmpHosts_ s !! key = Some (e, n) →
    ∃ b, e = Some b
       ∧ (BcmEcmpHost.ecmpEgressId_ (target b) = INVALID
          ∨ ∃ id paths k,
              egressMap_ s !! BcmEcmpHost.ecmpEgressId_ (target b)
              = Some (BcmEcmpEgress id paths, k)).

Definition mark_paths (up : bool) (l : list Z) (e : BcmEgressBase)
  : BcmEgressBase :=
  foldl (λ e path, (if up then pathReachable path else pathUnreachable path) e)
        e l.

Lemma mark_paths_group up l id paths :
  mark_paths up l (BcmEcmpEgress id paths)
  = BcmEcmpEgress id
      ((λ p : Z * bool, if bool_decide (p.1 ∈ l) then (p.1, up) else p)
         <$> paths).
Proof.
  revert paths. induction l as [| x l IH]; intros paths.
  - simpl. f_equal. rewrite <- (list_fmap_id paths) at 1.
    apply list_fmap_ext. intros i p _. reflexivity.
  - unfold mark_paths in *. simpl.
    replace ((if up then pathReachable x else pathUnreachable x)
               (BcmEcmpEgress id paths))
      with (mark_path up x (BcmEcmpEgress id paths)) by by destruct up.
    simpl. rewrite IH, <- list_fmap_compose. f_equal.
    apply list_fmap_ext. intros i [pid r] _. simpl.
    destruct (decide (pid = x)) as [-> | Hne].
    + rewrite !(bool_decide_eq_true_2 (x = x)) by done. simpl.
      rewrite (bool_decide_eq_true_2 (x ∈ x :: l)) by apply list_elem_of_here.
      by case_bool_decide.
    + rewrite !(bool_decide_eq_false_2 (pid = x)) by done. simpl.
      rewrite (bool_decide_ext (pid ∈ x :: l) (pid ∈ l)); [done |].
      rewrite elem_of_cons. naive_solver.
Qed.

Lemma mark_paths_elements up (affected : gset Z) e :
  mark_paths up (elements affected) e = mark_affected up affected e.
Proof.
  destruct e as [id a | id paths].
  - unfold mark_paths. induction (elements affected) as [| x l IH]; [done |].
    simpl. by destruct up.
  - rewrite mark_paths_group. simpl. f_equal.
    apply list_fmap_ext. intros i p _.
    erewrite bool_decide_ext; [reflexivity | apply elem_of_elements].
Qed.

Lemma set_egressMap_set_egressMap
    (f g : gmap Z (BcmEgressBase * nat) → gmap Z (BcmEgressBase * nat)) s :
  set_egressMap f (set_egressMap g s) = set_egressMap (f ∘ g) s.
Proof. reflexivity. Qed.

Lemma set_egressMap_id s : set_egressMap (λ m, m) s = s.
Proof. by destruct s. Qed.

(** The inner loop over the affected paths, on one group. *)
Lemma linkStateChanged_paths (up : bool) l ecmpId s :
  for_each l
    (λ path,
       modify (set_egressMap
                 (alter (λ e : (BcmEgressBase * nat)%type,
                           ((if up then pathReachable path
                             else pathUnreachable path) e.1, e.2))
                        ecmpId))) s
  = Ok tt (set_egressMap
             (alter (λ e : (BcmEgressBase * nat)%type,
                       (mark_paths up l e.1, e.2))
                    ecmpId) s).
Proof.
  revert s. induction l as [| x l IH]; intros s.
  - simpl. unfold ret. f_equal. rewrite <- (set_egressMap_id s) at 1.
    destruct s. unfold set_egressMap. simpl. f_equal.
    symmetry. apply alter_id. by intros [e n] _.
  - simpl. unfold bind at 1. unfold modify at 1. rewrite IH.
    rewrite set_egressMap_set_egressMap. f_equal.
    destruct s. unfold set_egressMap. simpl. f_equal.
    rewrite alter_alter_eq. apply alter_ext. by intros [e n] _.
Qed.

Definition relink (up : bool) (affected : gset Z)
    (e : (BcmEgressBase * nat)%type) : (BcmEgressBase * nat)%type :=
  (mark_affected up affected e.1, e.2).

Lemma relink_idemp up affected e :
  relink up affected (relink up affected e) = relink up affected e.
Proof.
  destruct e as [[id a | id paths] n]; [done |].
  unfold relink. simpl. f_equal. f_equal.
  rewrite <- list_fmap_compose. apply list_fmap_ext. intros i [pid r] _.
  simpl. by repeat (case_bool_decide; simpl).
Qed.

(** The group ids the outer loop visits. *)
Definition group_ids
    (l : list (EcmpKey * (option (boxed BcmEcmpHost.t) * nat))) : list Z :=
  omap (λ x, match x.2.1 with
             | Some b =>
                 if bool_decide (BcmEcmpHost.ecmpEgressId_ (target b)
                                 = INVALID)
                 then None
                 else Some (BcmEcmpHost.ecmpEgressId_ (target b))
             | None => None
             end) l.

Definition relink_all up affected (ids : list Z)
    (m : gmap Z (BcmEgressBase * nat)) : gmap Z (BcmEgressBase * nat) :=
  foldl (λ m id, alter (relink up affected) id m) m ids.

Lemma relink_all_lookup up affected ids m id :
  relink_all up affected ids m !! id
  = if bool_decide (id ∈ ids) then relink up affected <$> m !! id
    else m !! id.
Proof.
  revert m. induction ids as [| x ids IH]; intros m.
  - reflexivity.
  - unfold relink_all in *. simpl. rewrite IH.
    destruct (decide (id = x)) as [-> | Hne].
    + rewrite (bool_decide_eq_true_2 (x ∈ x :: ids)) by apply list_elem_of_here.
      rewrite lookup_alter_eq. case_bool_decide; [| done].
      destruct (m !! x) as [e |]; [| done]. simpl. by rewrite relink_idemp.
    + rewrite lookup_alter_ne by done.
      apply (f_equal (λ b : bool, if b then _ else _)).
      apply bool_decide_ext. rewrite elem_of_cons. naive_solver.
Qed.

Definition resolves (s : BcmSwitch)
    (x : EcmpKey * (option (boxed BcmEcmpHost.t) * nat)) : Prop :=
  ∃ b, x.2.1 = Some b
     ∧ (BcmEcmpHost.ecmpEgressId_ (target b) = INVALID
        ∨ ∃ id paths k,
            egressMap_ s !! BcmEcmpHost.ecmpEgressId_ (target b)
            = Some (BcmEcmpEgress id paths, k)).

Lemma resolves_relink up affected g s x :
  resolves s x → resolves (set_egressMap (alter (relink up affected) g) s) x.
Proof.
  intros (b & Hb & Hg). exists b. split; [done |].
  destruct Hg as [Hg | (id & paths & k & Hg)]; [by left | right].
  simpl. destruct (decide (g = BcmEcmpHost.ecmpEgressId_ (target b)))
    as [-> | Hne].
  - rewrite lookup_alter_eq, Hg. simpl. eauto.
  - rewrite lookup_alter_ne by done. eauto.
Qed.

(** The outer loop over the ECMP hosts. *)
Lemma linkStateChanged_hosts (up : bool) (affected : gset Z) l s :
  (∀ x, x ∈ l → resolves s x) →
  for_each l
    (λ nextHopsAndEcmpHostInfo : EcmpKey * (option (boxed BcmEcmpHost.t) * nat),
       match nextHopsAndEcmpHostInfo.2.1 with
       | None => fatal
       | Some ecmpHost =>
           let ecmpId := BcmEcmpHost.ecmpEgressId_ (target ecmpHost) in
           if bool_decide (ecmpId = INVALID) then ret tt else
           getEcmpEgressObject ecmpId ;;;
           for_each (elements affected)
             (λ path,
                modify (set_egressMap
                          (alter (λ e, ((if up then pathReachable path
                                         else pathUnreachable path) e.1, e.2))
                                 ecmpId)))
       end) s
  = Ok tt (set_egressMap (relink_all up affected (group_ids l)) s).
Proof.
  revert s. induction l as [| x l IH]; intros s Hl.
  - simpl. unfold ret. by rewrite set_egressMap_id.
  - destruct (Hl x) as (b & Hb & Hg); [apply list_elem_of_here |].
    cbn [for_each]. cbv beta zeta. rewrite Hb.
    unfold group_ids. cbn [omap list_omap]. rewrite Hb.
    destruct (bool_decide (BcmEcmpHost.ecmpEgressId_ (target b) = INVALID))
      eqn:Hinv.
    + erewrite bind_Ok by reflexivity.
      apply IH. intros y Hy. apply Hl. by right.
    + destruct Hg as [Hg | (id & paths & k & Hg)];
        [by apply bool_decide_eq_false in Hinv |].
      erewrite bind_Ok; last first.
      { erewrite bind_Ok; last first.
        { unfold getEcmpEgressObject, getEgressObjectIf, bind, get.
          rewrite Hg. reflexivity. }
        rewrite linkStateChanged_paths. reflexivity. }
      match goal with
      | |- for_each _ _ ?s1 = _ =>
          replace s1 with
            (set_egressMap
               (alter (relink up affected)
                      (BcmEcmpHost.ecmpEgressId_ (target b))) s)
      end; last first.
      { unfold set_egressMap. f_equal. apply alter_ext.
        intros [e n] _. unfold relink. simpl.
        by rewrite mark_paths_elements. }
      rewrite IH; last first.
      { intros y Hy. apply resolves_relink, Hl. by right. }
      reflexivity.
Qed.

Lemma elem_of_group_ids l id :
  id ∈ group_ids l ↔
  ∃ key b n, (key, (Some b, n)) ∈ l
           ∧ BcmEcmpHost.ecmpEgressId_ (target b) = id ∧ id ≠ INVALID.
Proof.
  unfold group_ids. rewrite list_elem_of_omap. split.
  - intros ([key [[b |] n]] & Hx & Hid); simpl in Hid; [| done].
    case_bool_decide; [done |]. injection Hid as <-. eauto 6.
  - intros (key & b & n & Hx & <- & Hne). eexists. split; [exact Hx |].
    simpl. by rewrite bool_decide_eq_false_2.
Qed.

(** C7.  [linkStateChanged(port, up)] changes nothing when no egress id is
    indexed under [port].  Otherwise, in a table where every ECMP host's
    group id is the id of a group in the egress registry, it returns; the
    group of every live ECMP host has exactly its paths whose egress id is
    indexed under [port] marked reachable ([up]) or unreachable (not
    [up]), its other paths, its id and its reference count as before;
    every other egress object is untouched, and so is everything outside
    the egress registry. *)
Theorem linkStateChanged_spec (port : Z) (up : bool) (s : BcmSwitch) :
  (getEgressIdsForPort s port = ∅ → linkStateChanged port up s = Ok tt s)
  ∧ (getEgressIdsForPort s port ≠ ∅ → groups_resolve s →
     ∃ s', linkStateChanged port up s = Ok tt s'
         ∧ set_egressMap (λ _, egressMap_ s) s' = s
         ∧ (∀ id, owns_group s id →
                  egressMap_ s' !! id
                  = (λ e, (mark_affected up (getEgressIdsForPort s port) e.1,
                           e.2)) <$> egressMap_ s !! id)
         ∧ (∀ id, ¬ owns_group s id →
                  egressMap_ s' !! id = egressMap_ s !! id)).
Proof.
  split.
  - intros He. unfold linkStateChanged. unfold bind, get.
    by rewrite He, bool_decide_eq_true_2.
  - intros Hne Hwf. unfold linkStateChanged. unfold bind at 1, get.
    rewrite bool_decide_eq_false_2 by done.
    rewrite linkStateChanged_hosts; last first.
    { intros [key [e n]] Hx. apply elem_of_map_to_list in Hx.
      apply (Hwf key e n Hx). }
    eexists. split; [reflexivity |]. split; [by destruct s |].
    assert (Hown : ∀ id, id ∈ group_ids (map_to_list (ecmpHosts_ s))
                         ↔ owns_group s id).
    { intros id. rewrite elem_of_group_ids. unfold owns_group.
      split; intros (key & b & n & Hx & Hid).
      - exists key, b, n. by rewrite <- elem_of_map_to_list.
      - exists key, b, n. by rewrite elem_of_map_to_list. }
    split; intros id Hid; simpl; rewrite relink_all_lookup.
    + rewrite bool_decide_eq_true_2 by by apply Hown. reflexivity.
    + rewrite bool_decide_eq_false_2; [done |]. by rewrite Hown.
Qed.

(** ** Acquire and release on a host map *)

(** Facts about the two templates, for any map of the table whose
    constructor and destructor leave that map alone. *)
Section HostMapFacts.
Context {KeyT HostT : Type} `{Countable KeyT}.
Variable map_of : BcmSwitch → gmap KeyT (option (boxed HostT) * nat).
Variable set_map :
  (gmap KeyT (option (boxed HostT) * nat) →
   gmap KeyT (option (boxed HostT) * nat)) → BcmSwitch → BcmSwitch.
Variable construct : KeyT → M BcmSwitch HostT.
Variable destroy : HostT → M BcmSwitch unit.
Variable released : KeyT → Event.

Hypothesis map_of_set_map : ∀ f s, map_of (set_map f s) = f (map_of s).
Hypothesis map_of_set_trace : ∀ f s, map_of (set_trace f s) = map_of s.
Hypothesis map_of_set_heap_next :
  ∀ f s, map_of (set_heap_next f s) = map_of s.
Hypothesis construct_keeps_map :
  ∀ key, preserves (same map_of) (construct key).
Hypothesis destroy_keeps_map : ∀ h, preserves (same map_of) (destroy h).

Abbreviation acquire := (incRefOrCreateBcmHost_ map_of set_map construct).
Abbreviation release :=
  (derefBcmHost_ map_of set_map destroy released).

(** A key that is present: the count goes up and the object held is
    returned. *)
Lemma acquire_present key s host n :
  map_of s !! key = Some (host, n) →
  acquire key s
  = Ok (address <$> host) (set_map <[key := (host, S n)]> s).
Proof.
  intros Hk. unfold incRefOrCreateBcmHost_. unfold_m. by rewrite Hk.
Qed.

(** A key that is absent: when the call returns, a new object is held
    under the key with count one, and it is the one returned. *)
Lemma acquire_absent key s p s1 :
  map_of s !! key = None →
  acquire key s = Ok p s1 →
  ∃ b, p = Some (address b) ∧ map_of s1 !! key = Some (Some b, 1%nat).
Proof.
  intros Hk. unfold incRefOrCreateBcmHost_.
  unfold bind at 1, get. rewrite Hk.
  unfold bind at 1, modify at 1, SCOPE_FAIL.
  set (s0 := set_map _ s).
  destruct (bind _ _ s0) as [p' s' | s' | s'] eqn:Hbody;
    [| by destruct (modify _ s') | done].
  intros [= -> ->].
  apply bind_Ok_inv in Hbody as (b & s2 & Hmk & Hrest).
  unfold make_unique in Hmk.
  apply bind_Ok_inv in Hmk as (s0' & ? & [= <- <-] & Hmk).
  apply bind_Ok_inv in Hmk as ([] & ? & [= <-] & Hmk).
  apply bind_Ok_inv in Hmk as (obj & s3 & Hc & [= <- <-]).
  unfold bind, modify, ret in Hrest. injection Hrest as <- <-.
  exists (Box (heap_next s0) obj). split; [reflexivity |].
  pose proof (construct_keeps_map key (set_heap_next N.succ s0)) as Hs.
  rewrite Hc in Hs. unfold same in Hs. simpl in Hs.
  rewrite map_of_set_map, Hs, map_of_set_heap_next. unfold s0.
  rewrite map_of_set_map, lookup_alter_eq, lookup_insert_eq. reflexivity.
Qed.

(** A key held more than once: the count goes down, the object stays and
    is returned. *)
Lemma release_shared key s host n :
  map_of s !! key = Some (host, S (S n)) →
  release key s
  = Ok (address <$> host)
       (set_map <[key := (host, S n)]>
                (set_trace (λ t, t ++ [released key]) s)).
Proof.
  intros Hk. unfold derefBcmHost_. unfold_m. rewrite Hk. simpl.
  rewrite ?Nat.sub_0_r. reflexivity.
Qed.

(** The last reference to a key: the entry is erased and the object
    destroyed. *)
Lemma release_last_eq key s host :
  map_of s !! key = Some (host, 1%nat) →
  release key s
  = noexcept
      (match host with
       | Some b => destroy (target b)
       | None => ret tt
       end ;;; ret None)
      (set_map (delete key) (set_trace (λ t, t ++ [released key]) s)).
Proof.
  intros Hk. unfold derefBcmHost_, noexcept. unfold bind at 1, get.
  rewrite Hk. reflexivity.
Qed.

(** So the entry is gone, whether the destructor returns or aborts, and
    the call never returns an object. *)
Lemma release_last key s host :
  map_of s !! key = Some (host, 1%nat) →
  map_of (final (release key s)) !! key = None
  ∧ ∀ r s', release key s = Ok r s' → r = None.
Proof.
  intros Hk. rewrite (release_last_eq _ _ _ Hk).
  set (s0 := set_map _ _).
  assert (Hs0 : map_of s0 !! key = None).
  { unfold s0. rewrite map_of_set_map. apply lookup_delete_eq. }
  unfold noexcept, bind.
  destruct host as [b |].
  - pose proof (destroy_keeps_map (target b) s0) as Hd.
    unfold same in Hd.
    destruct (destroy (target b) s0) as [[] s' | s' | s']; simpl in *;
      (split; [by rewrite Hd | intros r s'' Heq; congruence]).
  - unfold ret. simpl. split; [done |].
    intros r s'' Heq. congruence.
Qed.

Lemma release_last_map key s host :
  map_of s !! key = Some (host, 1%nat) →
  map_of (final (release key s)) = delete key (map_of s).
Proof.
  intros Hk. rewrite (release_last_eq _ _ _ Hk).
  set (s0 := set_map _ _).
  assert (Hs0 : map_of s0 = delete key (map_of s)).
  { unfold s0. by rewrite map_of_set_map, map_of_set_trace. }
  unfold noexcept, bind.
  destruct host as [b |]; [| done].
  pose proof (destroy_keeps_map (target b) s0) as Hd. unfold same in Hd.
  destruct (destroy (target b) s0) as [[] s' | s' | s']; simpl in *;
    congruence.
Qed.

(** [k] more acquisitions of a key that holds an object. *)
Lemma acquire_repeat k key s b n :
  map_of s !! key = Some (Some b, n) →
  ∃ s', repeatM k (acquire key) s = Ok (replicate k (Some (address b))) s'
      ∧ map_of s' !! key = Some (Some b, (n + k)%nat).
Proof.
  revert s n. induction k as [| k IH]; intros s n Hk.
  - exists s. split; [reflexivity |]. by rewrite Nat.add_0_r.
  - cbn [repeatM]. erewrite bind_Ok by by apply acquire_present.
    edestruct (IH (set_map <[key := (Some b, S n)]> s) (S n))
      as (s' & Hrun & Hk').
    { rewrite map_of_set_map. apply lookup_insert_eq. }
    exists s'. split.
    + erewrite bind_Ok by exact Hrun. reflexivity.
    + rewrite Hk'. do 2 f_equal. lia.
Qed.

(** [k] releases of a key held more than [k] times. *)
Lemma release_repeat k key s b n :
  map_of s !! key = Some (Some b, (S n + k)%nat) →
  ∃ s', repeatM k (release key) s = Ok (replicate k (Some (address b))) s'
      ∧ map_of s' !! key = Some (Some b, S n).
Proof.
  revert s. induction k as [| k IH]; intros s Hk.
  - exists s. split; [reflexivity |]. by rewrite Nat.add_0_r in Hk.
  - cbn [repeatM].
    replace (S n + S k)%nat with (S (S (n + k))) in Hk by lia.
    erewrite bind_Ok by by apply release_shared.
    edestruct (IH (set_map <[key := (Some b, S (n + k))]>
                     (set_trace (λ t, t ++ [released key]) s)))
      as (s' & Hrun & Hk').
    { rewrite map_of_set_map. apply lookup_insert_eq. }
    exists s'. split; [| exact Hk'].
    erewrite bind_Ok by exact Hrun. reflexivity.
Qed.

(** The whole round: after a first acquisition of an absent key that
    returned, [k] more acquisitions and then [k] releases all return the
    same object and leave it held once; one more acquisition returns it
    again; one more release removes the key. *)
Lemma acquire_release_round k key s p s1 :
  map_of s !! key = None →
  acquire key s = Ok p s1 →
  ∃ b s2 s3,
    p = Some (address b)
    ∧ map_of s1 !! key = Some (Some b, 1%nat)
    ∧ repeatM k (acquire key) s1 = Ok (replicate k (Some (address b))) s2
    ∧ repeatM k (release key) s2 = Ok (replicate k (Some (address b))) s3
    ∧ map_of s3 !! key = Some (Some b, 1%nat)
    ∧ (∃ s', acquire key s3 = Ok (Some (address b)) s')
    ∧ map_of (final (release key s3)) !! key = None
    ∧ (∀ r s4, release key s3 = Ok r s4 →
               r = None ∧ map_of s4 !! key = None).
Proof.
  intros Hk Hacq.
  destruct (acquire_absent _ _ _ _ Hk Hacq) as (b & -> & Hk1).
  destruct (acquire_repeat k _ _ _ _ Hk1) as (s2 & Hrun2 & Hk2).
  destruct (release_repeat k key s2 b 0) as (s3 & Hrun3 & Hk3);
    [exact Hk2 |].
  exists b, s2, s3. split; [done |]. split; [exact Hk1 |].
  split; [exact Hrun2 |]. split; [exact Hrun3 |]. split; [exact Hk3 |].
  split; [eexists; rewrite (acquire_present _ _ _ _ Hk3); reflexivity |].
  destruct (release_last _ _ _ Hk3) as [Hgone Hnull].
  split; [exact Hgone |].
  intros r s4 Hrel. split; [by eapply Hnull |].
  by rewrite Hrel in Hgone.
Qed.
End HostMapFacts.

(** *** What the constructors and destructors leave alone *)

Lemma sdk_call_same {T} (f : BcmSwitch → T) c :
  (∀ g s, f (set_trace g s) = f s) → preserves (same f) (sdk_call c).
Proof.
  intros Hf. unfold sdk_call, log. solve_preserves.
  apply preserves_modify. intros s. apply Hf.
Qed.

Lemma sdk_call_hosts c : preserves (same hosts_) (sdk_call c).
Proof. by apply sdk_call_same. Qed.

Lemma sdk_call_ecmpHosts c : preserves (same ecmpHosts_) (sdk_call c).
Proof. by apply sdk_call_same. Qed.

Lemma derefEgress_hosts id : preserves (same hosts_) (derefEgress id).
Proof. unfold derefEgress, log. solve_preserves. Qed.

Lemma derefEgress_ecmpHosts id : preserves (same ecmpHosts_) (derefEgress id).
Proof. unfold derefEgress, log. solve_preserves. Qed.

Lemma incEgressReference_hosts id :
  preserves (same hosts_) (incEgressReference id).
Proof. unfold incEgressReference. solve_preserves. Qed.

Lemma incEgressReference_ecmpHosts id :
  preserves (same ecmpHosts_) (incEgressReference id).
Proof. unfold incEgressReference. solve_preserves. Qed.

#[local] Hint Resolve sdk_call_hosts sdk_call_ecmpHosts derefEgress_hosts
  derefEgress_ecmpHosts incEgressReference_hosts
  incEgressReference_ecmpHosts : frame.

Lemma BcmHost_ctor_hosts vrf addr egressId :
  preserves (same hosts_) (BcmHost_ctor vrf addr egressId).
Proof. unfold BcmHost_ctor. solve_preserves. Qed.

Lemma BcmHost_ctor_ecmpHosts vrf addr egressId :
  preserves (same ecmpHosts_) (BcmHost_ctor vrf addr egressId).
Proof. unfold BcmHost_ctor. solve_preserves. Qed.

Lemma BcmHost_dtor_hosts h : preserves (same hosts_) (BcmHost_dtor h).
Proof. unfold BcmHost_dtor, bcmLogFatal. solve_preserves. Qed.

Lemma BcmHost_dtor_ecmpHosts h : preserves (same ecmpHosts_) (BcmHost_dtor h).
Proof. unfold BcmHost_dtor, bcmLogFatal. solve_preserves. Qed.

#[local] Hint Resolve BcmHost_ctor_hosts BcmHost_ctor_ecmpHosts
  BcmHost_dtor_hosts BcmHost_dtor_ecmpHosts : frame.

Lemma insertBcmEgress_ecmpHosts e :
  preserves (same ecmpHosts_) (insertBcmEgress e).
Proof. unfold insertBcmEgress. solve_preserves. Qed.

Lemma BcmEgress_program_common_ecmpHosts id vrf addr a :
  preserves (same ecmpHosts_) (BcmEgress_program_common id vrf addr a).
Proof. unfold BcmEgress_program_common, bcmCheckError. solve_preserves. Qed.

Lemma BcmEcmpEgress_program_ecmpHosts paths :
  preserves (same ecmpHosts_) (BcmEcmpEgress_program paths).
Proof. unfold BcmEcmpEgress_program, bcmCheckError. solve_preserves. Qed.

Lemma getBcmIfId_ecmpHosts intf : preserves (same ecmpHosts_) (getBcmIfId intf).
Proof. unfold getBcmIfId. solve_preserves. Qed.

Lemma this_host_ecmpHosts key : preserves (same ecmpHosts_) (this_host key).
Proof. unfold this_host. solve_preserves. Qed.

Lemma update_host_ecmpHosts key f :
  preserves (same ecmpHosts_) (update_host key f).
Proof. unfold update_host. solve_preserves. Qed.

#[local] Hint Resolve insertBcmEgress_ecmpHosts
  BcmEgress_program_common_ecmpHosts BcmEcmpEgress_program_ecmpHosts
  getBcmIfId_ecmpHosts this_host_ecmpHosts update_host_ecmpHosts : frame.

Lemma BcmHost_addBcmHost_ecmpHosts key isMultipath :
  preserves (same ecmpHosts_) (BcmHost_addBcmHost key isMultipath).
Proof.
  unfold BcmHost_addBcmHost, programmed, bcmCheckError, log. solve_preserves.
Qed.

#[local] Hint Resolve BcmHost_addBcmHost_ecmpHosts : frame.

Lemma BcmHost_program_ecmpHosts key intf mac port action :
  preserves (same ecmpHosts_) (BcmHost_program key intf mac port action).
Proof.
  unfold BcmHost_program, BcmEgress_program, BcmEgress_programToDrop,
    BcmEgress_programToCPU, updatePortEgressMapping.
  solve_preserves.
Qed.

#[local] Hint Resolve BcmHost_program_ecmpHosts : frame.

Lemma incRefOrCreateBcmHost_ecmpHosts vrf addr :
  preserves (same ecmpHosts_) (incRefOrCreateBcmHost vrf addr).
Proof.
  unfold incRefOrCreateBcmHost, incRefOrCreateBcmHost_, make_unique.
  solve_preserves.
Qed.

Lemma derefBcmHost_ecmpHosts vrf addr :
  preserves (same ecmpHosts_) (derefBcmHost vrf addr).
Proof. unfold derefBcmHost, derefBcmHost_, log. solve_preserves. Qed.

#[local] Hint Resolve incRefOrCreateBcmHost_ecmpHosts
  derefBcmHost_ecmpHosts : frame.

Lemma BcmEcmpHost_ctor_ecmpHosts vrf fwd :
  preserves (same ecmpHosts_) (BcmEcmpHost_ctor vrf fwd).
Proof.
  unfold BcmEcmpHost_ctor, BcmEcmpHost_ctor_guard, BcmEcmpHost_ctor_path,
    BcmHost_programToCPU.
  solve_preserves.
Qed.

Lemma BcmEcmpHost_dtor_ecmpHosts h :
  preserves (same ecmpHosts_) (BcmEcmpHost_dtor h).
Proof. unfold BcmEcmpHost_dtor. solve_preserves. Qed.

(** The constructor of a host entry, when it returns, makes a host with no
    port that is not added. *)
Lemma BcmHost_ctor_Ok vrf addr egressId s h s' :
  BcmHost_ctor vrf addr egressId s = Ok h s' →
  h = BcmHost.Make vrf addr egressId 0 false.
Proof.
  unfold BcmHost_ctor. intros Hrun.
  apply bind_Ok_inv in Hrun as ([] & s1 & _ & Hrun). by injection Hrun as <-.
Qed.

(** C1.  Take a key that its map does not hold, and suppose the first
    acquisition returned ([incRefOrCreateBcmHost] with or without a
    referenced egress id for a host entry, [incRefOrCreateBcmEcmpHost] for
    an ECMP host; the one without an egress id always returns).  Then [k]
    more acquisitions all return that same object, [k] releases after them
    return it too and leave it in the table ([getBcmHostIf] finds it), a
    further acquisition at that point returns the same object again, and
    the release that matches the first acquisition removes the key from the
    map: [k + 1] acquisitions followed by [k + 1] releases leave the key
    absent.  (For an ECMP host the last release destroys the host, which
    may abort; the key is gone either way.) *)
Theorem acquire_release_shares (k : nat) (s : BcmSwitch) (vrf : Z) :
  (∀ addr, hosts_ s !! (vrf, addr) = None →
     ∃ a s1, incRefOrCreateBcmHost vrf addr s = Ok (Some a) s1)
  ∧ (∀ addr egressId p s1, hosts_ s !! (vrf, addr) = None →
       incRefOrCreateBcmHost_egress vrf addr egressId s = Ok p s1 →
       ∃ a s2 s3 s4,
         p = Some a
         ∧ repeatM k (incRefOrCreateBcmHost vrf addr) s1
           = Ok (replicate k (Some a)) s2
         ∧ repeatM k (derefBcmHost vrf addr) s2 = Ok (replicate k (Some a)) s3
         ∧ getBcmHostIf s3 vrf addr = Some a
         ∧ (∃ s', incRefOrCreateBcmHost vrf addr s3 = Ok (Some a) s')
         ∧ derefBcmHost vrf addr s3 = Ok None s4
         ∧ hosts_ s4 !! (vrf, addr) = None)
  ∧ (∀ fwd p s1, ecmpHosts_ s !! (vrf, fwd) = None →
       incRefOrCreateBcmEcmpHost vrf fwd s = Ok p s1 →
       ∃ a s2 s3,
         p = Some a
         ∧ repeatM k (incRefOrCreateBcmEcmpHost vrf fwd) s1
           = Ok (replicate k (Some a)) s2
         ∧ repeatM k (derefBcmEcmpHost vrf fwd) s2
           = Ok (replicate k (Some a)) s3
         ∧ getBcmEcmpHostIf s3 vrf fwd = Some a
         ∧ (∃ s', incRefOrCreateBcmEcmpHost vrf fwd s3 = Ok (Some a) s')
         ∧ ecmpHosts_ (final (derefBcmEcmpHost vrf fwd s3)) !! (vrf, fwd)
           = None
         ∧ (∀ r s4, derefBcmEcmpHost vrf fwd s3 = Ok r s4 →
                    r = None ∧ ecmpHosts_ s4 !! (vrf, fwd) = None)).
Proof.
  split; [| split].
  - intros addr Hk. eexists _, _.
    unfold incRefOrCreateBcmHost, incRefOrCreateBcmHost_, make_unique,
      BcmHost_ctor.
    unfold_m. rewrite Hk. simpl.
    rewrite bool_decide_eq_false_2 by (intros Hne; by apply Hne).
    reflexivity.
  - intros addr egressId p s1 Hk Hacq.
    (* the object the first acquisition made *)
    assert (Hobj : ∀ b n, hosts_ s1 !! (vrf, addr) = Some (Some b, n) →
                          BcmHost.added_ (target b) = false).
    { intros b n Hb.
      unfold incRefOrCreateBcmHost_egress, incRefOrCreateBcmHost_ in Hacq.
      unfold bind at 1, get in Hacq. rewrite Hk in Hacq.
      unfold bind at 1, modify at 1 in Hacq.
      apply SCOPE_FAIL_Ok_inv in Hacq.
      apply bind_Ok_inv in Hacq as (newHost & s2 & Hmk & Hrest).
      unfold make_unique in Hmk.
      apply bind_Ok_inv in Hmk as (? & ? & [= <- <-] & Hmk).
      apply bind_Ok_inv in Hmk as ([] & ? & [= <-] & Hmk).
      apply bind_Ok_inv in Hmk as (obj & s3 & Hc & [= <- <-]).
      simpl in Hc.
      pose proof (BcmHost_ctor_hosts vrf addr egressId
                    (set_heap_next N.succ
                       (set_hosts <[(vrf, addr) := (None, 1%nat)]> s)))
        as Hsame.
      rewrite Hc in Hsame. unfold same in Hsame. simpl in Hsame.
      apply BcmHost_ctor_Ok in Hc as ->.
      unfold bind, modify, ret in Hrest. injection Hrest as _ <-.
      simpl in Hb. rewrite Hsame, lookup_alter_eq, lookup_insert_eq in Hb.
      simpl in Hb. by injection Hb as <- _. }
    destruct (acquire_release_round hosts_ set_hosts
                (λ key, BcmHost_ctor key.1 key.2 egressId) BcmHost_dtor
                (λ key, HostReleased key.1 key.2)
                ltac:(reflexivity) ltac:(reflexivity)
                ltac:(intros; apply BcmHost_ctor_hosts)
                BcmHost_dtor_hosts 0 (vrf, addr) s p s1 Hk Hacq)
      as (b & ? & ? & Hb & Hk1 & [= <-] & [= <-] & _).
    destruct (acquire_repeat hosts_ set_hosts
                (λ key, BcmHost_ctor key.1 key.2 INVALID)
                ltac:(reflexivity) k (vrf, addr) s1 b 1 Hk1)
      as (s2 & Hrun2 & Hk2).
    destruct (release_repeat hosts_ set_hosts BcmHost_dtor
                (λ key, HostReleased key.1 key.2)
                ltac:(reflexivity) k (vrf, addr) s2 b 0 Hk2)
      as (s3 & Hrun3 & Hk3).
    pose proof (Hobj b _ Hk1) as Hadded.
    eexists (address b), s2, s3, _.
    split; [exact Hb |]. split; [exact Hrun2 |]. split; [exact Hrun3 |].
    split; [unfold getBcmHostIf, getBcmHostIf_; by rewrite Hk3 |].
    split.
    { eexists. unfold incRefOrCreateBcmHost.
      by rewrite (acquire_present hosts_ set_hosts _ _ _ _ _ Hk3). }
    split.
    + unfold derefBcmHost, derefBcmHost_, BcmHost_dtor. unfold_m.
      rewrite Hk3. simpl. rewrite Hadded. simpl. reflexivity.
    + simpl. apply lookup_delete_eq.
  - intros fwd p s1 Hk Hacq.
    destruct (acquire_release_round ecmpHosts_ set_ecmpHosts
                (λ key, BcmEcmpHost_ctor key.1 key.2) BcmEcmpHost_dtor
                (λ key, EcmpHostReleased key.1 key.2)
                ltac:(reflexivity) ltac:(reflexivity)
                ltac:(intros; apply BcmEcmpHost_ctor_ecmpHosts)
                BcmEcmpHost_dtor_ecmpHosts k (vrf, fwd) s p s1 Hk Hacq)
      as (b & s2 & s3 & Hb & _ & Hrun2 & Hrun3 & Hk3 & Hagain & Hgone & Hret).
    exists (address b), s2, s3.
    split; [exact Hb |]. split; [exact Hrun2 |]. split; [exact Hrun3 |].
    split; [unfold getBcmEcmpHostIf, getBcmHostIf_; by rewrite Hk3 |].
    split; [exact Hagain |]. split; [exact Hgone | exact Hret].
Qed.

(** ** What a call that returned went through *)

Lemma this_host_Ok key s h s' :
  this_host key s = Ok h s' →
  s' = s ∧ ∃ b n, hosts_ s !! key = Some (Some b, n) ∧ h = target b.
Proof.
  unfold this_host. unfold_m.
  destruct (hosts_ s !! key) as [[[b |] n] |]; try done.
  intros [= <- <-]. eauto.
Qed.

Lemma sdk_call_Ok c s r s' :
  sdk_call c s = Ok r s' →
  r = sdk (trace s) c ∧ s' = set_trace (λ t, t ++ [Sdk c r]) s.
Proof. unfold sdk_call. unfold_m. by intros [= <- <-]. Qed.

Lemma BcmEgress_program_common_Ok id vrf addr a s egress s' :
  BcmEgress_program_common id vrf addr a s = Ok egress s' →
  ∃ r, s' = set_trace (λ t, t ++ [Sdk (opennsl_l3_egress_create id a) r]) s
     ∧ egress = BcmEgress (if bool_decide (id = INVALID) then assigned r
                           else id) a.
Proof.
  unfold BcmEgress_program_common. intros Hrun.
  apply bind_Ok_inv in Hrun as (r & s1 & Hsdk & Hrun).
  apply sdk_call_Ok in Hsdk as [_ ->].
  unfold bcmCheckError in Hrun. unfold_m in Hrun.
  destruct (rc r <? 0); [done |]. injection Hrun as <- <-. eauto.
Qed.

Lemma insertBcmEgress_Ok egress s s' :
  insertBcmEgress egress s = Ok tt s' →
  egressMap_ s !! getID egress = None
  ∧ s' = set_egressMap <[getID egress := (egress, 1%nat)]> s.
Proof.
  unfold insertBcmEgress. unfold_m.
  destruct (egressMap_ s !! getID egress); [done |]. by intros [= <-].
Qed.

(** The events of a trace that are hardware L3-host adds. *)
Definition is_host_add (e : Event) : bool :=
  match e with Sdk (opennsl_l3_host_add _) _ => true | _ => false end.

Definition host_adds (t : list Event) : nat :=
  length (filter (λ e, is_host_add e = true) t).

Lemma host_adds_app t1 t2 :
  host_adds (t1 ++ t2) = (host_adds t1 + host_adds t2)%nat.
Proof. unfold host_adds. by rewrite filter_app, length_app. Qed.

Lemma BcmHost_addBcmHost_Ok key isMultipath s s' :
  BcmHost_addBcmHost key isMultipath s = Ok tt s' →
  ∃ b n,
    hosts_ s !! key = Some (Some b, n)
    ∧ (BcmHost.added_ (target b) = true ∧ s' = s
       ∨ BcmHost.added_ (target b) = false
         ∧ ∃ ev,
             hosts_ s'
             = <[key := (Some (Box (address b) (mark_added (target b))), n)]>
                 (hosts_ s)
             ∧ ecmpHosts_ s' = ecmpHosts_ s
             ∧ egressMap_ s' = egressMap_ s
             ∧ port2EgressIds_ s' = port2EgressIds_ s
             ∧ intfTable_ s' = intfTable_ s
             ∧ trace s' = trace s ++ [ev]
             ∧ (host_adds [ev] ≤ 1)%nat).
Proof.
  unfold BcmHost_addBcmHost. intros Hrun.
  apply bind_Ok_inv in Hrun as (h & s1 & Hthis & Hrun).
  apply this_host_Ok in Hthis as [-> (b & n & Hb & ->)].
  exists b, n. split; [exact Hb |].
  destruct (BcmHost.added_ (target b)) eqn:Hadded.
  { left. by injection Hrun as <-. }
  right. split; [done |]. cbv zeta in Hrun.
  apply bind_Ok_inv in Hrun as (s1 & ? & [= <- <-] & Hrun).
  apply bind_Ok_inv in Hrun as ([] & s2 & Hmid & Hrun).
  unfold update_host in Hrun. unfold_m in Hrun. injection Hrun as <-.
  assert (Hmap : ∀ m : gmap HostKey (option (boxed BcmHost.t) * nat),
            m !! key = Some (Some b, n) →
            alter (λ e, ((λ b, Box (address b)
                                   (BcmHost.Make (BcmHost.vrf_ (target b))
                                      (BcmHost.addr_ (target b))
                                      (BcmHost.egressId_ (target b))
                                      (BcmHost.port_ (target b)) true))
                           <$> e.1, e.2)) key m
            = <[key := (Some (Box (address b) (mark_added (target b))), n)]> m).
  { intros m Hm. apply map_eq. intros k.
    destruct (decide (k = key)) as [-> | Hne].
    - by rewrite lookup_alter_eq, lookup_insert_eq, Hm.
    - by rewrite lookup_alter_ne, lookup_insert_ne. }
  destruct (warmBootCache_ s !! _) as [existingHost |].
  - apply bind_Ok_inv in Hmid as ([] & s3 & Hchk & Hmid).
    destruct (negb _); [done |]. injection Hchk as <-.
    unfold programmed in Hmid. unfold_m in Hmid. injection Hmid as <-.
    eexists. simpl. split; [by apply Hmap |].
    repeat (split; [reflexivity |]). cbv. lia.
  - apply bind_Ok_inv in Hmid as (r & s3 & Hsdk & Hmid).
    apply sdk_call_Ok in Hsdk as [_ ->].
    unfold bcmCheckError in Hmid. unfold_m in Hmid.
    destruct (rc r <? 0); [done |]. injection Hmid as <-.
    eexists. simpl. split; [by apply Hmap |].
    repeat (split; [reflexivity |]). cbv. lia.
Qed.

(** The egress id a host has once [program] returned. *)
Definition programmed_egress (h : BcmHost.t) (egress : BcmEgressBase) : Z :=
  if bool_decide (BcmHost.egressId_ h = INVALID) then getID egress
  else BcmHost.egressId_ h.

Lemma BcmHost_program_Ok key intf mac port action s s' :
  BcmHost_program key intf mac port action s = Ok tt s' →
  ∃ b n egress cnt evs,
    hosts_ s !! key = Some (Some b, n)
    ∧ hosts_ s'
      = <[key := (Some (Box (address b)
                     (BcmHost.Make (BcmHost.vrf_ (target b))
                        (BcmHost.addr_ (target b))
                        (programmed_egress (target b) egress) port true)),
                  n)]> (hosts_ s)
    ∧ egressMap_ s' !! programmed_egress (target b) egress
      = Some (egress, cnt)
    ∧ (∃ a, egress = BcmEgress (getID egress) a)
    ∧ (∀ id, id ≠ programmed_egress (target b) egress →
             egressMap_ s' !! id = egressMap_ s !! id)
    ∧ (BcmHost.egressId_ (target b) = INVALID →
       egressMap_ s !! getID egress = None ∧ cnt = 1%nat)
    ∧ (BcmHost.egressId_ (target b) ≠ INVALID →
       ∃ old, egressMap_ s !! BcmHost.egressId_ (target b) = Some (old, cnt)
            ∧ (getID old ≠ INVALID → getID egress = getID old))
    ∧ port2EgressIds_ s'
      = updatePortEgressMapping_map (getID egress)
          (BcmHost.port_ (target b)) port (port2EgressIds_ s)
    ∧ ecmpHosts_ s' = ecmpHosts_ s
    ∧ intfTable_ s' = intfTable_ s
    ∧ trace s' = trace s ++ evs
    ∧ (BcmHost.added_ (target b) = true → host_adds evs = 0%nat)
    ∧ (host_adds evs ≤ 1)%nat.
Proof.
  unfold BcmHost_program. intros Hrun.
  apply bind_Ok_inv in Hrun as (h & s1 & Hthis & Hrun).
  apply this_host_Ok in Hthis as [-> (b & n & Hb & ->)].
  cbv zeta in Hrun.
  apply bind_Ok_inv in Hrun as (s1 & ? & [= <- <-] & Hrun).
  apply bind_Ok_inv in Hrun as (id & s2 & Hid & Hrun).
  apply bind_Ok_inv in Hrun as (egress & s3 & Hprog & Hrun).
  assert (∃ a, BcmEgress_program_common id (BcmHost.vrf_ (target b))
                 (BcmHost.addr_ (target b)) a s2 = Ok egress s3)
    as [a Hprog'].
  { destruct mac; [by eexists |]. destruct action; by eexists. }
  clear Hprog.
  apply BcmEgress_program_common_Ok in Hprog' as (r & -> & Hegress).
  apply bind_Ok_inv in Hrun as ([] & s4 & Hins & Hrun).
  apply bind_Ok_inv in Hrun as ([] & s5 & Hadd & Hrun).
  apply bind_Ok_inv in Hrun as ([] & s6 & Hupd & Hrun).
  unfold updatePortEgressMapping in Hupd. unfold_m in Hupd.
  injection Hupd as <-.
  unfold update_host in Hrun. unfold_m in Hrun. injection Hrun as <-.
  exists b, n, egress.
  unfold programmed_egress.
  assert (Hsimple : ∃ a, egress = BcmEgress (getID egress) a).
  { exists a. by subst egress. }
  assert (Htwo : ∀ c ev,
            (host_adds [ev] ≤ 1)%nat →
            (host_adds ([Sdk (opennsl_l3_egress_create c a) r] ++ [ev]) ≤ 1)%nat).
  { intros c ev Hev. by rewrite host_adds_app. }
  destruct (bool_decide (BcmHost.egressId_ (target b) = INVALID)) eqn:Hcr.
  - (* a new egress object *)
    pose proof (bool_decide_eq_true_1 _ Hcr) as Hinv.
    injection Hid as <- <-.
    rewrite bool_decide_eq_true_2 in Hegress by done.
    apply bind_Ok_inv in Hins as ([] & s7 & Hset & Hins).
    unfold update_host in Hset. unfold_m in Hset. injection Hset as <-.
    apply insertBcmEgress_Ok in Hins as [Hfresh ->].
    simpl in Hfresh.
    destruct (BcmHost.added_ (target b)) eqn:Hadded; simpl in Hadd.
    + injection Hadd as <-.
      exists 1%nat, [Sdk (opennsl_l3_egress_create INVALID a) r].
      simpl. rewrite lookup_insert_eq.
      split_and!; try done;
        try (intros k Hk; by rewrite ?lookup_insert_ne, ?lookup_alter_ne by done);
        try (cbv; lia); try (by apply Htwo); try exact Hold;
        try exact Hsimple.
      apply map_eq. intros k. destruct (decide (k = key)) as [-> | Hne].
      * rewrite lookup_alter_eq, lookup_alter_eq, Hb, lookup_insert_eq.
        simpl. by rewrite Hadded.
      * by rewrite !lookup_alter_ne, lookup_insert_ne.
    + apply BcmHost_addBcmHost_Ok in Hadd as (b' & n' & Hb' & Hadd).
      simpl in Hb'. rewrite lookup_alter_eq, Hb in Hb'. simpl in Hb'.
      injection Hb' as <- <-.
      destruct Hadd as [[Hc _] | (_ & ev & Hh & He & Hg & Hp & Hi & Ht & Hev)];
        [simpl in Hc; congruence |].
      simpl in *.
      exists 1%nat, ([Sdk (opennsl_l3_egress_create INVALID a) r] ++ [ev]).
      rewrite Hg, lookup_insert_eq, Hp, He, Hi, Ht, <- app_assoc.
      split_and!; try done;
        try (intros k Hk; by rewrite ?lookup_insert_ne, ?lookup_alter_ne by done);
        try (cbv; lia); try (by apply Htwo); try exact Hold;
        try exact Hsimple.
      rewrite Hh. apply map_eq. intros k.
      destruct (decide (k = key)) as [-> | Hne].
      * by rewrite lookup_alter_eq, !lookup_insert_eq.
      * by rewrite lookup_alter_ne, !lookup_insert_ne, lookup_alter_ne.
  - (* the egress object the host already has *)
    apply bool_decide_eq_false in Hcr.
    unfold getEgressObjectIf in Hid.
    destruct (egressMap_ s !! BcmHost.egressId_ (target b))
      as [[[id0 a0 | ] cnt] |] eqn:Hobj; simpl in Hid; try done.
    injection Hid as <- <-.
    assert (Hold : BcmHost.egressId_ (target b) ≠ INVALID →
              ∃ old, Some (BcmEgress id0 a0, cnt) = Some (old, cnt)
                   ∧ (getID old ≠ INVALID → getID egress = getID old)).
    { intros _. eexists. split; [reflexivity |]. simpl. intros Hne.
      subst egress. simpl. by rewrite bool_decide_eq_false_2. }
    unfold_m in Hins. injection Hins as <-.
    destruct (BcmHost.added_ (target b)) eqn:Hadded; simpl in Hadd.
    + injection Hadd as <-.
      exists cnt, [Sdk (opennsl_l3_egress_create id0 a) r].
      simpl. rewrite lookup_alter_eq, Hobj.
      split_and!; try done;
        try (intros k Hk; by rewrite ?lookup_insert_ne, ?lookup_alter_ne by done);
        try (cbv; lia); try (by apply Htwo); try exact Hold;
        try exact Hsimple.
      apply map_eq. intros k. destruct (decide (k = key)) as [-> | Hne].
      * rewrite lookup_alter_eq, Hb, lookup_insert_eq. simpl.
        by rewrite Hadded.
      * by rewrite lookup_alter_ne, lookup_insert_ne.
    + apply BcmHost_addBcmHost_Ok in Hadd as (b' & n' & Hb' & Hadd).
      simpl in Hb'. rewrite Hb in Hb'. injection Hb' as <- <-.
      destruct Hadd as [[Hc _] | (_ & ev & Hh & He & Hg & Hp & Hi & Ht & Hev)];
        [congruence |].
      simpl in *.
      exists cnt, ([Sdk (opennsl_l3_egress_create id0 a) r] ++ [ev]).
      rewrite Hg, lookup_alter_eq, Hobj, Hp, He, Hi, Ht, <- app_assoc.
      split_and!; try done;
        try (intros k Hk; by rewrite ?lookup_insert_ne, ?lookup_alter_ne by done);
        try (cbv; lia); try (by apply Htwo); try exact Hold;
        try exact Hsimple.
      rewrite Hh. apply map_eq. intros k.
      destruct (decide (k = key)) as [-> | Hne].
      * by rewrite lookup_alter_eq, !lookup_insert_eq.
      * by rewrite lookup_alter_ne, !lookup_insert_ne.
Qed.

(** ** Programming a host twice *)

(** When the egress id is indexed under the old port and nowhere else, the
    update changes what is indexed exactly when the new port differs. *)
Lemma updatePortEgressMapping_map_changes egressId oldPort newPort m :
  (∀ p, egressId ∈ port_set m p ↔ p = oldPort ∧ oldPort ≠ 0) →
  (∃ p, port_set (updatePortEgressMapping_map egressId oldPort newPort m) p
        ≠ port_set m p)
  ↔ newPort ≠ oldPort.
Proof.
  intros Hidx. split.
  - intros [p Hp] ->. apply Hp.
    rewrite port_set_updatePortEgressMapping_map. cbv zeta.
    destruct (decide (p = oldPort ∧ oldPort ≠ 0)) as [Hpo | Hpo].
    + rewrite !bool_decide_eq_true_2 by done.
      apply Hidx in Hpo. apply set_eq. intros x.
      rewrite elem_of_union, elem_of_difference, elem_of_singleton.
      destruct (decide (x = egressId)) as [-> | Hx]; naive_solver.
    + by rewrite !bool_decide_eq_false_2.
  - intros Hne. destruct (decide (oldPort = 0)) as [-> | Ho].
    + exists newPort. rewrite port_set_updatePortEgressMapping_map. cbv zeta.
      rewrite !(bool_decide_eq_false_2 (newPort = 0 ∧ 0 ≠ 0)) by naive_solver.
      rewrite (bool_decide_eq_true_2 (newPort = newPort ∧ newPort ≠ 0))
        by done.
      intros Heq. assert (egressId ∈ port_set m newPort) as Hin
        by (rewrite <- Heq; set_solver).
      apply Hidx in Hin. naive_solver.
    + exists oldPort. rewrite port_set_updatePortEgressMapping_map. cbv zeta.
      rewrite (bool_decide_eq_true_2 (oldPort = oldPort ∧ oldPort ≠ 0))
        by done.
      rewrite (bool_decide_eq_false_2 (oldPort = newPort ∧ newPort ≠ 0))
        by naive_solver.
      intros Heq. assert (egressId ∈ port_set m oldPort) as Hin
        by (by apply Hidx).
      rewrite <- Heq in Hin. set_solver.
Qed.

(** Running the update again with the port just stored changes nothing. *)
Lemma updatePortEgressMapping_map_again egressId oldPort port m :
  let m1 := updatePortEgressMapping_map egressId oldPort port m in
  updatePortEgressMapping_map egressId port port m1 = m1.
Proof.
  cbv zeta. unfold updatePortEgressMapping_map at 1.
  destruct (decide (port = 0)) as [-> | Hp].
  { by rewrite !bool_decide_eq_false_2 by (intros Hne; by apply Hne). }
  rewrite !(bool_decide_eq_true_2 (port ≠ 0)) by done.
  set (m1 := updatePortEgressMapping_map egressId oldPort port m).
  assert (Hin : ∃ ids, m1 !! port = Some ids ∧ egressId ∈ ids).
  { unfold m1, updatePortEgressMapping_map.
    rewrite (bool_decide_eq_true_2 (port ≠ 0)) by done.
    unfold port_insert at 1. rewrite lookup_insert_eq.
    eexists. split; [reflexivity | set_solver]. }
  destruct Hin as (ids & Hm1 & Hin).
  apply map_eq. intros p. unfold port_insert, port_erase.
  destruct (decide (p = port)) as [-> | Hne].
  - rewrite lookup_insert_eq. unfold port_set at 1.
    rewrite lookup_insert_eq. simpl. unfold port_set. rewrite Hm1. simpl.
    f_equal. apply set_eq. intros x.
    destruct (decide (x = egressId)) as [-> | Hx]; set_solver.
  - by rewrite !lookup_insert_ne.
Qed.

(** C6, as the code has it.  Two calls of [program] with the same
    arguments on a host, both returning: the first issues at most one
    hardware L3-host add and the second none.  Each call runs the port
    index update for the egress object's id, from the port the host had
    stored to the port given, and stores the port given.  When that id was
    indexed under the stored port and under no other port (as it is when no
    other host programs the same egress object), the first call changes
    what is indexed exactly when the port given differs from the stored
    port; and the second call, whose port is the stored one, leaves the
    index as it is. *)
Theorem BcmHost_program_twice key intf mac port action s s1 s2 :
  BcmHost_program key intf mac port action s = Ok tt s1 →
  BcmHost_program key intf mac port action s1 = Ok tt s2 →
  ∃ b n egress cnt,
    hosts_ s !! key = Some (Some b, n)
    ∧ egressMap_ s1 !! programmed_egress (target b) egress
      = Some (egress, cnt)
    ∧ (host_adds (trace s1) ≤ host_adds (trace s) + 1)%nat
    ∧ host_adds (trace s2) = host_adds (trace s1)
    ∧ port2EgressIds_ s1
      = updatePortEgressMapping_map (getID egress)
          (BcmHost.port_ (target b)) port (port2EgressIds_ s)
    ∧ (∃ b1, hosts_ s1 !! key = Some (Some b1, n)
           ∧ BcmHost.port_ (target b1) = port)
    ∧ ((∀ p, getID egress ∈ getEgressIdsForPort s p
             ↔ p = BcmHost.port_ (target b) ∧ BcmHost.port_ (target b) ≠ 0) →
       (∃ p, getEgressIdsForPort s1 p ≠ getEgressIdsForPort s p)
       ↔ port ≠ BcmHost.port_ (target b))
    ∧ (getID egress ≠ INVALID → port2EgressIds_ s2 = port2EgressIds_ s1).
Proof.
  intros H1 H2.
  apply BcmHost_program_Ok in H1
    as (b & n & egress & cnt & evs & Hb & Hh1 & He1 & _ & _ & Hnew & Hold
        & Hp1 & _ & _ & Ht1 & _ & Hadds1).
  apply BcmHost_program_Ok in H2
    as (b1 & n1 & egress2 & cnt2 & evs2 & Hb1 & _ & _ & _ & _ & _ & Hold2
        & Hp2 & _ & _ & Ht2 & Hadds2 & _).
  rewrite Hh1, lookup_insert_eq in Hb1. injection Hb1 as <- <-.
  simpl in *.
  exists b, n, egress, cnt.
  split; [exact Hb |]. split; [exact He1 |].
  split; [rewrite Ht1, host_adds_app; lia |].
  split; [rewrite Ht2, host_adds_app, Hadds2 by done; lia |].
  split; [exact Hp1 |].
  split; [eexists; split; [by rewrite Hh1, lookup_insert_eq | done] |].
  split.
  - intros Hidx.
    rewrite <- (updatePortEgressMapping_map_changes (getID egress)
                  (BcmHost.port_ (target b)) port (port2EgressIds_ s)).
    + split; intros [p Hp]; exists p;
        by rewrite ?getEgressIdsForPort_port_set, ?Hp1 in *.
    + intros p. rewrite <- getEgressIdsForPort_port_set. apply Hidx.
  - intros Hvalid. rewrite Hp2.
    assert (Hsame : getID egress2 = getID egress).
    { unfold programmed_egress in *.
      destruct (bool_decide (BcmHost.egressId_ (target b) = INVALID)) eqn:Hcr.
      - destruct Hold2 as (old & Hobj & Hid); [done |].
        rewrite He1 in Hobj. injection Hobj as <- _. by apply Hid.
      - apply bool_decide_eq_false in Hcr.
        destruct Hold2 as (old & Hobj & Hid); [done |].
        rewrite He1 in Hobj. injection Hobj as <- _. by apply Hid. }
    rewrite Hsame, Hp1. apply updatePortEgressMapping_map_again.
Qed.

(** ** Constructing an ECMP host *)

(** A loop that returned kept an invariant that every returning iteration
    keeps. *)
Lemma for_each_Ok_inv {S A} (I : list A → S → Prop) (body : A → M S unit)
    l s s' :
  (∀ seen x s1 s2, I seen s1 → body x s1 = Ok tt s2 → I (seen ++ [x]) s2) →
  I [] s → for_each l body s = Ok tt s' → I l s'.
Proof.
  intros Hstep.
  cut (∀ seen s, I seen s → for_each l body s = Ok tt s' → I (seen ++ l) s').
  { intros Hgen. apply (Hgen []). }
  induction l as [| x l IH]; intros seen s0 HI Hrun.
  - injection Hrun as <-. by rewrite app_nil_r.
  - cbn [for_each] in Hrun.
    apply bind_Ok_inv in Hrun as ([] & s1 & Hx & Hrun).
    rewrite cons_middle, app_assoc. eapply IH; [| exact Hrun].
    eapply Hstep; eauto.
Qed.

(** [incRefOrCreateBcmHost] always returns: the count of a present key
    goes up, an absent key gets a new host that has no egress object, no
    port, and is not added. *)
Lemma incRefOrCreateBcmHost_run vrf addr s :
  incRefOrCreateBcmHost vrf addr s =
  match hosts_ s !! (vrf, addr) with
  | Some (host, n) =>
      Ok (address <$> host) (set_hosts <[(vrf, addr) := (host, S n)]> s)
  | None =>
      Ok (Some (heap_next s))
         (set_hosts
            (λ m, <[(vrf, addr) :=
                      (Some (Box (heap_next s)
                               (BcmHost.Make vrf addr INVALID 0 false)),
                       1%nat)]> m)
            (set_heap_next N.succ s))
  end.
Proof.
  unfold incRefOrCreateBcmHost, incRefOrCreateBcmHost_, make_unique,
    BcmHost_ctor.
  unfold_m. destruct (hosts_ s !! (vrf, addr)) as [[host n] |]; [done |].
  simpl. rewrite bool_decide_eq_false_2 by (intros Hne; by apply Hne).
  f_equal. destruct s. unfold set_hosts, set_heap_next. simpl. f_equal.
  apply map_eq. intros k. destruct (decide (k = (vrf, addr))) as [-> | Hne].
  - by rewrite lookup_alter_eq, !lookup_insert_eq.
  - by rewrite lookup_alter_ne, !lookup_insert_ne.
Qed.

(** No group object appears in the egress registry between two states. *)
Definition no_new_group : relation BcmSwitch :=
  λ s s', ∀ id g paths n,
    egressMap_ s' !! id = Some (BcmEcmpEgress g paths, n) →
    egressMap_ s !! id = Some (BcmEcmpEgress g paths, n).

#[local] Instance no_new_group_preorder : PreOrder no_new_group.
Proof.
  split.
  - by intros s id g paths n.
  - intros x y z Hxy Hyz id g paths n Hz. by apply Hxy, Hyz.
Qed.

(** Every id of the egress registry is still in it. *)
Definition egress_kept : relation BcmSwitch :=
  λ s s', ∀ id, is_Some (egressMap_ s !! id) → is_Some (egressMap_ s' !! id).

#[local] Instance egress_kept_preorder : PreOrder egress_kept.
Proof.
  split.
  - by intros s id.
  - intros x y z Hxy Hyz id Hx. by apply Hyz, Hxy.
Qed.

(** The egress id of the host entry of a next hop. *)
Definition member_egress (vrf : Z) (s : BcmSwitch) (nhop : RouteForwardInfo)
  : Z :=
  match hosts_ s !! (vrf, nexthop nhop) with
  | Some (Some b, _) => BcmHost.egressId_ (target b)
  | _ => INVALID
  end.

(** One returning iteration of the constructor's loop. *)
Lemma BcmEcmpHost_ctor_path_Ok vrf nhop s l s' l' :
  BcmEcmpHost_ctor_path vrf nhop (s, l) = Ok tt (s', l') →
  ∃ b n,
    hosts_ s' !! (vrf, nexthop nhop) = Some (Some b, n)
    ∧ BcmHost.added_ (target b) = true
    ∧ l' = Locals (prog l ++ [nhop])
                  (paths l ++ [BcmHost.egressId_ (target b)])
    ∧ (∀ k, k ≠ (vrf, nexthop nhop) → hosts_ s' !! k = hosts_ s !! k)
    ∧ (∀ b0 n0, hosts_ s !! (vrf, nexthop nhop) = Some (Some b0, n0) →
                BcmHost.added_ (target b0) = true → b = b0)
    ∧ no_new_group s s'
    ∧ egress_kept s s'.
Proof.
  unfold BcmEcmpHost_ctor_path. intros Hrun.
  apply bind_Ok_inv in Hrun as (p & [s1 l1] & Hacq & Hrun).
  apply lift_Ok_inv in Hacq as (s1' & Hacq & [= -> ->]).
  apply bind_Ok_inv in Hrun as (l0 & [s2 l2] & [= <- <- <-] & Hrun).
  apply bind_Ok_inv in Hrun as ([] & [s2 l2] & Hchk & Hrun).
  unfold CHECK in Hchk. destruct (bool_decide _); [| done].
  injection Hchk as <- <-.
  apply bind_Ok_inv in Hrun as ([] & [s2 l2] & [= <- <-] & Hrun).
  apply bind_Ok_inv in Hrun as (host & [s2 l2] & Hthis & Hrun).
  apply lift_Ok_inv in Hthis as (s2' & Hthis & [= -> ->]).
  apply this_host_Ok in Hthis as [-> (b1 & n1 & Hb1 & ->)].
  apply bind_Ok_inv in Hrun as ([] & [s3 l3] & Hprog & Hrun).
  apply bind_Ok_inv in Hrun as (host2 & [s4 l4] & Hthis & Hrun).
  apply lift_Ok_inv in Hthis as (s4' & Hthis & [= -> ->]).
  apply this_host_Ok in Hthis as [-> (b2 & n2 & Hb2 & ->)].
  injection Hrun as <- <-.
  rename s1' into s1.
  (* the acquisition *)
  rewrite incRefOrCreateBcmHost_run in Hacq.
  assert (Hother1 : ∀ k, k ≠ (vrf, nexthop nhop) →
                         hosts_ s1 !! k = hosts_ s !! k).
  { intros k Hk. destruct (hosts_ s !! (vrf, nexthop nhop)) as [[h0 c0] |];
      injection Hacq as _ <-; simpl; by rewrite lookup_insert_ne. }
  assert (Hegress1 : egressMap_ s1 = egressMap_ s).
  { destruct (hosts_ s !! (vrf, nexthop nhop)) as [[h0 c0] |];
      by injection Hacq as _ <-. }
  assert (Hstable1 : ∀ b0 n0,
            hosts_ s !! (vrf, nexthop nhop) = Some (Some b0, n0) →
            b1 = b0).
  { intros b0 n0 Hb0. rewrite Hb0 in Hacq. injection Hacq as _ <-.
    simpl in Hb1. rewrite lookup_insert_eq in Hb1. by injection Hb1 as <-. }
  clear Hacq.
  destruct (BcmHost.added_ (target b1)) eqn:Hadded; simpl in Hprog.
  - (* already programmed *)
    injection Hprog as <- <-. rewrite Hb1 in Hb2. injection Hb2 as <- <-.
    exists b1, n1. split_and!; try done.
    + intros b0 n0 Hb0 _. by eapply Hstable1.
    + intros id g ps n. by rewrite Hegress1.
    + intros id. by rewrite Hegress1.
  - (* programmed to punt to the CPU *)
    apply bind_Ok_inv in Hprog as (ifid & [s5 l5] & Hif & Hprog).
    apply lift_Ok_inv in Hif as (s5' & Hif & [= -> ->]).
    assert (s5' = s1) as ->.
    { unfold getBcmIfId in Hif. unfold_m in Hif.
      destruct (intfTable_ s1 !! intf nhop); [| done]. by injection Hif. }
    apply lift_Ok_inv in Hprog as (s3' & Hprog & [= -> ->]).
    apply BcmHost_program_Ok in Hprog
      as (b & n & egress & cnt & evs & Hb & Hh & He & [a Ha] & Hrest & _).
    rewrite Hb1 in Hb. injection Hb as <- <-.
    rewrite Hh, lookup_insert_eq in Hb2. injection Hb2 as <- <-.
    eexists _, _. split; [by rewrite Hh, lookup_insert_eq |].
    split_and!; try done.
    + intros k Hk. by rewrite Hh, lookup_insert_ne, Hother1.
    + intros b0 n0 Hb0 Hadd0. apply Hstable1 in Hb0 as ->. congruence.
    + intros id g ps n Hid. rewrite <- Hegress1.
      destruct (decide (id = programmed_egress (target b1) egress))
        as [-> | Hne].
      * rewrite He in Hid. rewrite Ha in Hid. done.
      * by rewrite <- (Hrest id Hne).
    + intros id Hid. rewrite <- Hegress1 in Hid.
      destruct (decide (id = programmed_egress (target b1) egress))
        as [-> | Hne].
      * by rewrite He.
      * by rewrite (Hrest id Hne).
Qed.

(** What holds after the loop has gone through [seen]: the next hops are
    recorded in order, each with the egress id its host entry has, every
    such host entry is programmed, and no group was created. *)
Definition paths_acquired (vrf : Z) (s0 : BcmSwitch)
    (seen : RouteForwardNexthops) (sl : BcmSwitch * EcmpLocals) : Prop :=
  prog sl.2 = seen
  ∧ paths sl.2 = member_egress vrf sl.1 <$> seen
  ∧ (∀ nhop, nhop ∈ seen →
       ∃ b n, hosts_ sl.1 !! (vrf, nexthop nhop) = Some (Some b, n)
            ∧ BcmHost.added_ (target b) = true)
  ∧ no_new_group s0 sl.1
  ∧ egress_kept s0 sl.1.

Lemma paths_acquired_step vrf s0 seen x sl1 sl2 :
  paths_acquired vrf s0 seen sl1 →
  BcmEcmpHost_ctor_path vrf x sl1 = Ok tt sl2 →
  paths_acquired vrf s0 (seen ++ [x]) sl2.
Proof.
  destruct sl1 as [s1 l1], sl2 as [s2 l2].
  intros (Hprog & Hpaths & Hlive & Hgroup & Hkept) Hrun. simpl in *.
  apply BcmEcmpHost_ctor_path_Ok in Hrun
    as (b & n & Hb & Hadded & -> & Hother & Hstable & Hnew & Hkept').
  assert (Hkeep : ∀ nhop, nhop ∈ seen →
            hosts_ s2 !! (vrf, nexthop nhop) = hosts_ s1 !! (vrf, nexthop nhop)
            ∨ ∃ b0 n0 n2, hosts_ s1 !! (vrf, nexthop nhop) = Some (Some b0, n0)
                        ∧ hosts_ s2 !! (vrf, nexthop nhop)
                          = Some (Some b0, n2)).
  { intros nhop Hin.
    destruct (decide ((vrf, nexthop nhop) = (vrf, nexthop x))) as [Heq | Hne].
    - right. destruct (Hlive nhop Hin) as (b0 & n0 & Hb0 & Hadd0).
      rewrite Heq in *. exists b0, n0, n. split; [done |].
      by rewrite (Hstable b0 n0 Hb0 Hadd0) in Hb.
    - left. by apply Hother. }
  split_and!; simpl.
  - by rewrite Hprog.
  - rewrite fmap_app, Hpaths. f_equal.
    + apply list_fmap_ext. intros i nhop Hi.
      apply list_elem_of_lookup_2 in Hi. unfold member_egress.
      destruct (Hkeep nhop Hi) as [-> | (b0 & n0 & n2 & -> & ->)]; done.
    + simpl. unfold member_egress. by rewrite Hb.
  - intros nhop [Hin | ->%list_elem_of_singleton]%elem_of_app.
    + destruct (Hlive nhop Hin) as (b0 & n0 & Hb0 & Hadd0).
      destruct (Hkeep nhop Hin) as [-> | (b0' & n0' & n2 & Hs1 & ->)];
        [eauto |].
      rewrite Hb0 in Hs1. injection Hs1 as <- <-. eauto.
    + eauto.
  - by etrans.
  - by etrans.
Qed.

(** C5.  When the constructor of an ECMP host returns, the host records
    the next hops it was given, and every next hop has a programmed host
    entry.  With exactly one next hop no group object is created: the
    host's [ecmpEgressId_] is the invalid id, every group in the egress
    registry was there before, and the host's egress id is the one of the
    sole member's host entry.  With any other number of next hops, a new
    group object is in the egress registry under the host's egress id, held
    once; its paths are the egress ids of the members' host entries, in the
    order of the next hops; and [ecmpEgressId_] is that id. *)
Theorem BcmEcmpHost_ctor_egress (vrf : Z) (fwd : RouteForwardNexthops)
    (s : BcmSwitch) (h : BcmEcmpHost.t) (s' : BcmSwitch) :
  BcmEcmpHost_ctor vrf fwd s = Ok h s' →
  BcmEcmpHost.vrf_ h = vrf
  ∧ BcmEcmpHost.fwd_ h = fwd
  ∧ (∀ nhop, nhop ∈ fwd →
       ∃ b n, hosts_ s' !! (vrf, nexthop nhop) = Some (Some b, n)
            ∧ BcmHost.added_ (target b) = true)
  ∧ (length fwd = 1%nat →
       BcmEcmpHost.ecmpEgressId_ h = INVALID
       ∧ [BcmEcmpHost.egressId_ h] = member_egress vrf s' <$> fwd
       ∧ no_new_group s s')
  ∧ (length fwd ≠ 1%nat →
       BcmEcmpHost.ecmpEgressId_ h = BcmEcmpHost.egressId_ h
       ∧ egressMap_ s !! BcmEcmpHost.egressId_ h = None
       ∧ egressMap_ s' !! BcmEcmpHost.egressId_ h
         = Some (BcmEcmpEgress (BcmEcmpHost.egressId_ h)
                   ((λ nhop, (member_egress vrf s' nhop, true)) <$> fwd),
                 1%nat)).
Proof.
  unfold BcmEcmpHost_ctor. intros Hrun.
  apply bind_Ok_inv in Hrun as ([] & s0 & Hchk & Hrun).
  unfold CHECK in Hchk. destruct (0 <? length fwd)%nat; [| done].
  injection Hchk as <-.
  apply with_locals_Ok_inv in Hrun as (lf & Hrun).
  apply SCOPE_FAIL_Ok_inv in Hrun.
  apply bind_Ok_inv in Hrun as ([] & [s1 l1] & Hloop & Hrun).
  apply (for_each_Ok_inv (paths_acquired vrf s)) in Hloop;
    [| intros; by eapply paths_acquired_step
     | by split_and!; [| | intros ? ?%elem_of_nil | |]].
  destruct Hloop as (Hprog & Hpaths & Hlive & Hgroup & Hkept). simpl in *.
  apply bind_Ok_inv in Hrun as (l & [s2 l2] & [= <- <- <-] & Hrun).
  assert (Hlen : length (paths l1) = length fwd)
    by by rewrite Hpaths, length_fmap.
  destruct (length (paths l1) =? 1)%nat eqn:Hone.
  - apply Nat.eqb_eq in Hone. injection Hrun as <- <- <-. simpl.
    split_and!; try done; [| intros Hne; lia].
    intros _. split_and!; try done.
    rewrite <- Hpaths. destruct (paths l1) as [| p [| ? ?]]; done.
  - apply Nat.eqb_neq in Hone.
    apply bind_Ok_inv in Hrun as (ecmp & [s3 l3] & Hecmp & Hrun).
    apply lift_Ok_inv in Hecmp as (s3' & Hecmp & [= -> ->]).
    apply bind_Ok_inv in Hrun as ([] & [s4 l4] & Hins & Hrun).
    apply lift_Ok_inv in Hins as (s4' & Hins & [= -> ->]).
    injection Hrun as <- <- <-. simpl.
    unfold BcmEcmpEgress_program in Hecmp.
    apply bind_Ok_inv in Hecmp as (r & s5 & Hsdk & Hecmp).
    apply sdk_call_Ok in Hsdk as [_ ->].
    unfold bcmCheckError in Hecmp. unfold_m in Hecmp.
    destruct (rc r <? 0); [done |]. injection Hecmp as <- <-.
    apply insertBcmEgress_Ok in Hins as [Hfresh ->]. simpl in *.
    rewrite take_ge in * by lia.
    split_and!; try done; [intros Hone'; lia |].
    intros _. split; [done |]. split.
    + destruct (egressMap_ s !! assigned r) as [e |] eqn:Hs; [| done].
      destruct (Hkept (assigned r)) as [e' He']; [by rewrite Hs |].
      by rewrite Hfresh in He'.
    + rewrite lookup_insert_eq, Hpaths, <- list_fmap_compose. done.
Qed.

(** ** A constructor that fails *)

(** [returns R c]: when [c] returns or throws, the state it ends in is
    [R]-related to the one it started from (nothing is said when the
    process aborts). *)
Section Returns.
Context {S : Type} (R : relation S) `{!PreOrder R}.

Definition returns {A} (c : M S A) : Prop :=
  ∀ s, match c s with
       | Ok _ s' | Throw s' => R s s'
       | Fatal _ => True
       end.

Lemma preserves_returns {A} (c : M S A) : preserves R c → returns c.
Proof. intros Hc s. specialize (Hc s). by destruct (c s). Qed.

Lemma returns_bind {A B} (c : M S A) (k : A → M S B) :
  returns c → (∀ a, returns (k a)) → returns (bind c k).
Proof.
  intros Hc Hk s. unfold bind. specialize (Hc s).
  destruct (c s) as [a s1 | s1 | s1]; [| done | done].
  specialize (Hk a s1).
  destruct (k a s1); simpl in *; [etrans; eauto | etrans; eauto | done].
Qed.

Lemma returns_for_each {A} (l : list A) (body : A → M S unit) :
  (∀ x, returns (body x)) → returns (for_each l body).
Proof.
  intros Hb. induction l as [| x l IH]; simpl.
  - intros s. simpl. reflexivity.
  - apply returns_bind; [apply Hb | intros _; exact IH].
Qed.
End Returns.

(** A relation on the switch together with one on the locals. *)
Definition on_both {L} (R : relation BcmSwitch) (Q : relation L)
  : relation (BcmSwitch * L) :=
  λ x y, R x.1 y.1 ∧ Q x.2 y.2.

#[local] Instance on_both_preorder {L} (R : relation BcmSwitch)
  (Q : relation L) `{!PreOrder R} `{!PreOrder Q} : PreOrder (on_both R Q).
Proof.
  split.
  - intros x. split; reflexivity.
  - intros x y z [? ?] [? ?]. split; by etrans.
Qed.

Lemma preserves_lift_both {L A} (R : relation BcmSwitch) (Q : relation L)
    `{!Reflexive Q} (c : M BcmSwitch A) :
  preserves R c → preserves (on_both R Q) (lift c).
Proof.
  intros Hc [s l]. unfold lift, on_both. simpl. specialize (Hc s).
  by destruct (c s).
Qed.

Lemma preserves_locals_both {L} (R : relation BcmSwitch) (Q : relation L)
    `{!PreOrder R} `{!PreOrder Q} :
  preserves (on_both R Q) locals.
Proof. intros [s l]. split; simpl; reflexivity. Qed.

Lemma preserves_set_locals_both {L} (R : relation BcmSwitch)
    (Q : relation L) `{!PreOrder R} (f : L → L) :
  (∀ l, Q l (f l)) → preserves (on_both R Q) (set_locals f).
Proof. intros Hf [s l]. split; simpl; [reflexivity | apply Hf]. Qed.

(** The reference count held under a host key (none when it is absent),
    and the number of next hops of a list that use the key. *)
Definition refcount (s : BcmSwitch) (key : HostKey) : nat :=
  match hosts_ s !! key with
  | Some (_, n) => n
  | None => 0
  end.

Definition uses (vrf : Z) (key : HostKey) (l : RouteForwardNexthops) : nat :=
  length (filter (λ nhop, (vrf, nexthop nhop) = key) l).

(** No entry of the host map has count zero. *)
Definition counts_positive (s : BcmSwitch) : Prop :=
  ∀ key e n, hosts_ s !! key = Some (e, n) → (0 < n)%nat.

Definition refcounts (s : BcmSwitch) : gmap HostKey nat := snd <$> hosts_ s.

Lemma refcount_refcounts s key :
  refcount s key = default 0%nat (refcounts s !! key).
Proof.
  unfold refcount, refcounts. rewrite lookup_fmap.
  by destruct (hosts_ s !! key) as [[e n] |].
Qed.

Lemma refcounts_eq s s' :
  counts_positive s → counts_positive s' →
  (∀ key, refcount s' key = refcount s key) → refcounts s' = refcounts s.
Proof.
  intros Hs Hs' Heq. apply map_eq. intros key. specialize (Heq key).
  unfold refcount in Heq. unfold refcounts. rewrite !lookup_fmap.
  destruct (hosts_ s' !! key) as [[e' n'] |] eqn:H1;
    destruct (hosts_ s !! key) as [[e n] |] eqn:H2; simpl; try congruence.
  - apply Hs' in H1. lia.
  - apply Hs in H2. lia.
Qed.

Lemma uses_app vrf key l1 l2 :
  uses vrf key (l1 ++ l2) = (uses vrf key l1 + uses vrf key l2)%nat.
Proof. unfold uses. by rewrite filter_app, length_app. Qed.

(** *** What leaves the reference counts of the host map alone *)

Ltac solve_counts :=
  repeat first
    [ solve [eauto 2 with frame nocore]
    | preserves_step
    | apply preserves_modify; intros ?; unfold same, refcounts; simpl;
      reflexivity ].

Lemma update_host_refcounts key f :
  preserves (same refcounts) (update_host key f).
Proof.
  unfold update_host. apply preserves_modify. intros s.
  unfold same, refcounts. simpl. apply map_eq. intros k.
  rewrite !lookup_fmap. destruct (decide (k = key)) as [-> | Hne].
  - rewrite lookup_alter_eq. by destruct (hosts_ s !! key) as [[e n] |].
  - by rewrite lookup_alter_ne.
Qed.

Lemma this_host_refcounts key : preserves (same refcounts) (this_host key).
Proof. unfold this_host. solve_counts. Qed.

Lemma getBcmIfId_refcounts intf : preserves (same refcounts) (getBcmIfId intf).
Proof. unfold getBcmIfId. solve_counts. Qed.

Lemma sdk_call_refcounts c : preserves (same refcounts) (sdk_call c).
Proof. by apply sdk_call_same. Qed.

Lemma insertBcmEgress_refcounts e :
  preserves (same refcounts) (insertBcmEgress e).
Proof. unfold insertBcmEgress. solve_counts. Qed.

#[local] Hint Resolve update_host_refcounts this_host_refcounts
  getBcmIfId_refcounts sdk_call_refcounts insertBcmEgress_refcounts : frame.

Lemma BcmEgress_program_common_refcounts id vrf addr a :
  preserves (same refcounts) (BcmEgress_program_common id vrf addr a).
Proof. unfold BcmEgress_program_common, bcmCheckError. solve_counts. Qed.

Lemma BcmEcmpEgress_program_refcounts paths :
  preserves (same refcounts) (BcmEcmpEgress_program paths).
Proof. unfold BcmEcmpEgress_program, bcmCheckError. solve_counts. Qed.

#[local] Hint Resolve BcmEgress_program_common_refcounts
  BcmEcmpEgress_program_refcounts : frame.

Lemma BcmHost_addBcmHost_refcounts key isMultipath :
  preserves (same refcounts) (BcmHost_addBcmHost key isMultipath).
Proof.
  unfold BcmHost_addBcmHost, programmed, bcmCheckError, log. solve_counts.
Qed.

#[local] Hint Resolve BcmHost_addBcmHost_refcounts : frame.

Lemma BcmHost_program_refcounts key intf mac port action :
  preserves (same refcounts) (BcmHost_program key intf mac port action).
Proof.
  unfold BcmHost_program, BcmEgress_program, BcmEgress_programToDrop,
    BcmEgress_programToCPU, updatePortEgressMapping.
  solve_counts.
Qed.

#[local] Hint Resolve BcmHost_program_refcounts : frame.

(** The locals keep their [prog]. *)
Definition same_prog : relation EcmpLocals := λ l l', prog l' = prog l.

#[local] Instance same_prog_preorder : PreOrder same_prog.
Proof.
  split.
  - by intros l.
  - intros x y z Hxy Hyz. unfold same_prog in *. congruence.
Qed.

Ltac solve_class :=
  lazymatch goal with
  | |- PreOrder _ => apply _
  | |- Reflexive _ => apply _
  | _ => idtac
  end.

Ltac solve_counts_both :=
  repeat first
    [ apply preserves_lift_both; solve_class;
      solve [eauto 2 with frame nocore]
    | apply preserves_locals_both; solve_class
    | apply preserves_set_locals_both; solve_class; intros ?; reflexivity
    | preserves_step ].

(** The rest of a loop iteration, once the next hop is recorded. *)
Definition BcmEcmpHost_ctor_path_rest (vrf : Z) (nhop : RouteForwardInfo)
  : M (BcmSwitch * EcmpLocals) unit :=
  host <- lift (this_host (vrf, nexthop nhop)) ;;
  (if negb (BcmHost.added_ host) then
     ifid <- lift (getBcmIfId (intf nhop)) ;;
     lift (BcmHost_programToCPU (vrf, nexthop nhop) ifid)
   else ret tt) ;;;
  host <- lift (this_host (vrf, nexthop nhop)) ;;
  set_locals (λ l, Locals (prog l) (paths l ++ [BcmHost.egressId_ host])).

Lemma BcmEcmpHost_ctor_path_rest_counts vrf nhop :
  preserves (on_both (same refcounts) same_prog)
            (BcmEcmpHost_ctor_path_rest vrf nhop).
Proof.
  unfold BcmEcmpHost_ctor_path_rest, BcmHost_programToCPU.
  solve_counts_both.
Qed.

(** *** The references the loop has taken *)

(** Between two points of the constructor: every reference count has gone
    up by the number of next hops recorded in [prog] meanwhile, and no
    entry has count zero if none had. *)
Definition balanced (vrf : Z) : relation (BcmSwitch * EcmpLocals) :=
  λ x y,
    (counts_positive x.1 → counts_positive y.1)
    ∧ ∀ key, (refcount y.1 key + uses vrf key (prog x.2)
              = refcount x.1 key + uses vrf key (prog y.2))%nat.

#[local] Instance balanced_preorder vrf : PreOrder (balanced vrf).
Proof.
  split.
  - intros x. by split.
  - intros x y z [Hp1 Hc1] [Hp2 Hc2]. split; [auto |].
    intros key. specialize (Hc1 key). specialize (Hc2 key). lia.
Qed.

Lemma counts_positive_refcounts s s' :
  refcounts s' = refcounts s → counts_positive s → counts_positive s'.
Proof.
  intros Heq Hs key e n Hk.
  assert (refcounts s !! key = Some n) as Hn.
  { rewrite <- Heq. unfold refcounts. by rewrite lookup_fmap, Hk. }
  unfold refcounts in Hn. rewrite lookup_fmap in Hn.
  destruct (hosts_ s !! key) as [[e0 n0] |] eqn:H0; [| done].
  injection Hn as ->. by eapply Hs.
Qed.

Lemma same_counts_balanced vrf x y :
  on_both (same refcounts) same_prog x y → balanced vrf x y.
Proof.
  intros [Hc Hp]. unfold same, same_prog in *. split.
  - by apply counts_positive_refcounts.
  - intros key. by rewrite !refcount_refcounts, Hc, Hp.
Qed.

Lemma returns_weaken {S A} (R R' : relation S) (c : M S A) :
  (∀ x y, R x y → R' x y) → preserves R c → returns R' c.
Proof.
  intros Hsub Hc s. specialize (Hc s).
  destruct (c s); simpl in *; auto.
Qed.

Lemma refcount_insert s key e n k :
  refcount (set_hosts <[key := (e, n)]> s) k
  = if bool_decide (k = key) then n else refcount s k.
Proof.
  unfold refcount. simpl. case_bool_decide as Hk.
  - subst k. by rewrite lookup_insert_eq.
  - by rewrite lookup_insert_ne.
Qed.

Lemma uses_singleton vrf key nhop :
  uses vrf key [nhop]
  = if bool_decide (key = (vrf, nexthop nhop)) then 1%nat else 0%nat.
Proof.
  unfold uses. rewrite filter_cons, filter_nil.
  case_bool_decide as Hk.
  - by rewrite decide_True.
  - by rewrite decide_False.
Qed.

(** An iteration of the loop, however it ends short of an abort. *)
Lemma BcmEcmpHost_ctor_path_balanced vrf nhop :
  returns (balanced vrf) (BcmEcmpHost_ctor_path vrf nhop).
Proof.
  intros [s l].
  assert (Hacq : ∃ p s1,
            incRefOrCreateBcmHost vrf (nexthop nhop) s = Ok p s1
            ∧ (counts_positive s → counts_positive s1)
            ∧ ∀ key, refcount s1 key
                     = (refcount s key + uses vrf key [nhop])%nat).
  { rewrite incRefOrCreateBcmHost_run.
    destruct (hosts_ s !! (vrf, nexthop nhop)) as [[host n] |] eqn:Hk;
      eexists _, _; (split; [reflexivity |]); split.
    - intros Hpos key e c. simpl.
      destruct (decide (key = (vrf, nexthop nhop))) as [-> | Hne].
      + rewrite lookup_insert_eq. intros [= <- <-]. lia.
      + rewrite lookup_insert_ne by done. apply Hpos.
    - intros key. rewrite refcount_insert, uses_singleton.
      case_bool_decide as Hkey; [| lia].
      subst key. unfold refcount. rewrite Hk. lia.
    - intros Hpos key e c. simpl.
      destruct (decide (key = (vrf, nexthop nhop))) as [-> | Hne].
      + rewrite lookup_insert_eq. intros [= <- <-]. lia.
      + rewrite lookup_insert_ne by done. apply Hpos.
    - intros key. unfold refcount at 1. simpl. rewrite uses_singleton.
      destruct (decide (key = (vrf, nexthop nhop))) as [-> | Hne].
      + rewrite lookup_insert_eq, bool_decide_eq_true_2 by done.
        unfold refcount. by rewrite Hk.
      + rewrite lookup_insert_ne, bool_decide_eq_false_2 by done.
        unfold refcount. lia. }
  destruct Hacq as (p & s1 & Hacq & Hpos & Hcount).
  change (BcmEcmpHost_ctor_path vrf nhop)
    with (lift (incRefOrCreateBcmHost vrf (nexthop nhop)) ;;;
          l <- locals ;;
          CHECK (bool_decide (nhop ∉ prog l)) ;;;
          set_locals (λ l, Locals (prog l ++ [nhop]) (paths l)) ;;;
          BcmEcmpHost_ctor_path_rest vrf nhop).
  unfold bind at 1, lift at 1. cbn [fst snd]. rewrite Hacq.
  unfold bind at 1, locals at 1. cbn [fst snd].
  unfold bind at 1. destruct (bool_decide (nhop ∉ prog l)); [| done].
  cbn [CHECK ret]. unfold bind at 1, set_locals at 1. cbn [fst snd].
  pose proof (BcmEcmpHost_ctor_path_rest_counts vrf nhop
                (s1, Locals (prog l ++ [nhop]) (paths l))) as Hrest.
  apply (same_counts_balanced vrf) in Hrest.
  destruct Hrest as [Hpos' Hcount']. simpl in *.
  assert (Hgoal : balanced vrf (s, l)
            (final (BcmEcmpHost_ctor_path_rest vrf nhop
                      (s1, Locals (prog l ++ [nhop]) (paths l))))).
  { split; simpl; [auto |]. intros key.
    specialize (Hcount' key). specialize (Hcount key).
    rewrite uses_app in Hcount'. lia. }
  by destruct (BcmEcmpHost_ctor_path_rest vrf nhop _).
Qed.

(** *** Giving the references back *)

(** A release of a host key that returned took one off its count, and
    removed the key when that was the last. *)
Lemma derefBcmHost_Ok vrf addr s r s' host n :
  hosts_ s !! (vrf, addr) = Some (host, n) → (0 < n)%nat →
  derefBcmHost vrf addr s = Ok r s' →
  hosts_ s' = if (n =? 1)%nat then delete (vrf, addr) (hosts_ s)
              else <[(vrf, addr) := (host, (n - 1)%nat)]> (hosts_ s).
Proof.
  intros Hk Hn Hrun. destruct n as [| [| n]]; [lia | |].
  - pose proof (release_last_map hosts_ set_hosts BcmHost_dtor
                  (λ key, HostReleased key.1 key.2)
                  ltac:(reflexivity) ltac:(reflexivity) BcmHost_dtor_hosts
                  (vrf, addr) s host Hk) as Hmap.
    unfold derefBcmHost in Hrun. by rewrite Hrun in Hmap.
  - unfold derefBcmHost in Hrun.
    rewrite (release_shared hosts_ set_hosts BcmHost_dtor
               (λ key, HostReleased key.1 key.2) (vrf, addr) s host n Hk)
      in Hrun.
    injection Hrun as _ <-. simpl. by rewrite ?Nat.sub_0_r.
Qed.

Lemma uses_cons vrf key nhop l :
  uses vrf key (nhop :: l)
  = ((if bool_decide (key = (vrf, nexthop nhop)) then 1 else 0)
     + uses vrf key l)%nat.
Proof.
  change (nhop :: l) with ([nhop] ++ l).
  by rewrite uses_app, uses_singleton.
Qed.

(** The scope guard's loop: when it returns, every count is down by the
    number of next hops of the list that use the key. *)
Lemma guard_releases vrf l s s' :
  counts_positive s →
  (∀ key, uses vrf key l ≤ refcount s key)%nat →
  for_each l (λ nhop, derefBcmHost vrf (nexthop nhop) ;;; ret tt) s
    = Ok tt s' →
  counts_positive s'
  ∧ ∀ key, (refcount s' key + uses vrf key l)%nat = refcount s key.
Proof.
  revert s. induction l as [| nhop l IH]; intros s Hpos Hle Hrun.
  - injection Hrun as <-. split; [done |]. intros key. unfold uses.
    rewrite filter_nil. simpl. lia.
  - cbn [for_each] in Hrun.
    apply bind_Ok_inv in Hrun as ([] & s1 & Hd & Hrun).
    apply bind_Ok_inv in Hd as (r & s1' & Hd & [= <-]).
    pose proof (Hle (vrf, nexthop nhop)) as Hk.
    rewrite uses_cons, bool_decide_eq_true_2 in Hk by done.
    unfold refcount in Hk.
    destruct (hosts_ s !! (vrf, nexthop nhop)) as [[host n] |] eqn:Hs;
      [| lia].
    pose proof (derefBcmHost_Ok _ _ _ _ _ _ _ Hs ltac:(lia) Hd) as Hmap.
    assert (Hcount1 : ∀ key,
              (refcount s1' key
               + (if bool_decide (key = (vrf, nexthop nhop)) then 1 else 0))%nat
              = refcount s key).
    { intros key. unfold refcount. rewrite Hmap.
      destruct (n =? 1)%nat eqn:Hn1.
      - apply Nat.eqb_eq in Hn1. subst n. case_bool_decide as Hkey.
        + subst key. by rewrite lookup_delete_eq, Hs.
        + rewrite lookup_delete_ne by done.
          destruct (hosts_ s !! key) as [[e c] |]; lia.
      - apply Nat.eqb_neq in Hn1. case_bool_decide as Hkey.
        + subst key. rewrite lookup_insert_eq, Hs. lia.
        + rewrite lookup_insert_ne by done.
          destruct (hosts_ s !! key) as [[e c] |]; lia. }
    assert (Hpos1 : counts_positive s1').
    { intros key e c. rewrite Hmap. destruct (n =? 1)%nat eqn:Hn1.
      - intros [Hne Hc]%lookup_delete_Some. by eapply Hpos.
      - apply Nat.eqb_neq in Hn1.
        destruct (decide (key = (vrf, nexthop nhop))) as [-> | Hne].
        + rewrite lookup_insert_eq. intros [= <- <-]. lia.
        + rewrite lookup_insert_ne by done. apply Hpos. }
    destruct (IH s1' Hpos1) as [Hpos' Hcount']; [| exact Hrun |].
    { intros key. specialize (Hle key). specialize (Hcount1 key).
      rewrite uses_cons in Hle. lia. }
    split; [exact Hpos' |]. intros key.
    specialize (Hcount' key). specialize (Hcount1 key).
    rewrite uses_cons. lia.
Qed.

(** The body the scope guard protects. *)
Definition BcmEcmpHost_ctor_body (vrf : Z) (fwd : RouteForwardNexthops)
  : M (BcmSwitch * EcmpLocals) BcmEcmpHost.t :=
  for_each fwd (BcmEcmpHost_ctor_path vrf) ;;;
  l <- locals ;;
  if (length (paths l) =? 1)%nat then
    ret (BcmEcmpHost.Make vrf (prog l) (default INVALID (head (paths l)))
                          INVALID)
  else
    ecmp <- lift (BcmEcmpEgress_program (take (length fwd) (paths l))) ;;
    lift (insertBcmEgress ecmp) ;;;
    ret (BcmEcmpHost.Make vrf (prog l) (getID ecmp) (getID ecmp)).

Lemma BcmEcmpHost_ctor_body_balanced vrf fwd :
  returns (balanced vrf) (BcmEcmpHost_ctor_body vrf fwd).
Proof.
  unfold BcmEcmpHost_ctor_body.
  apply returns_bind; [apply _ | |].
  - apply returns_for_each; [apply _ |]. intros nhop.
    apply BcmEcmpHost_ctor_path_balanced.
  - intros _. apply (returns_weaken (on_both (same refcounts) same_prog));
      [apply same_counts_balanced |].
    solve_counts_both.
Qed.

(** A constructor that throws leaves the reference counts of the host map
    as they were. *)
Lemma BcmEcmpHost_ctor_Throw vrf fwd s s' :
  counts_positive s →
  BcmEcmpHost_ctor vrf fwd s = Throw s' →
  refcounts s' = refcounts s.
Proof.
  intros Hpos Hrun.
  change (BcmEcmpHost_ctor vrf fwd)
    with (CHECK (0 <? length fwd)%nat ;;;
          with_locals (Locals [] [])
            (SCOPE_FAIL (BcmEcmpHost_ctor_guard vrf)
                        (BcmEcmpHost_ctor_body vrf fwd))) in Hrun.
  unfold bind, CHECK in Hrun. destruct (0 <? length fwd)%nat; [| done].
  cbn [ret] in Hrun. unfold with_locals, SCOPE_FAIL in Hrun.
  pose proof (BcmEcmpHost_ctor_body_balanced vrf fwd (s, Locals [] []))
    as Hbody.
  destruct (BcmEcmpHost_ctor_body vrf fwd (s, Locals [] []))
    as [h [st lt] | [st lt] | [st lt]]; [done | | done].
  destruct Hbody as [Hpost Hcount]. simpl in *.
  unfold BcmEcmpHost_ctor_guard in Hrun.
  unfold bind at 1, locals at 1 in Hrun. cbn [fst snd] in Hrun.
  unfold lift in Hrun. cbn [fst snd] in Hrun.
  destruct (for_each (prog lt) _ st) as [[] sg | sg | sg] eqn:Hguard;
    [| done | done].
  injection Hrun as <-.
  apply guard_releases in Hguard as [Hposg Hcountg]; [| by auto |].
  - apply refcounts_eq; [done | done |]. intros key.
    specialize (Hcount key). specialize (Hcountg key).
    unfold uses in Hcount at 1. rewrite filter_nil in Hcount. simpl in Hcount.
    lia.
  - intros key. specialize (Hcount key).
    unfold uses in Hcount at 1. rewrite filter_nil in Hcount. simpl in Hcount.
    lia.
Qed.

(** C3, as the code has it.  In a table whose host entries all have a
    positive count: when the constructor of an ECMP host fails with an
    exception (in a member's CPU-punt programming, in the interface lookup
    or in the creation of the group), every host reference it had taken is
    given back before the exception leaves it: the host map has the same
    keys with the same reference counts as before, and the ECMP map is
    what it was.  The same holds for [incRefOrCreateBcmEcmpHost] of an
    absent key: its placeholder is removed as well. *)
Theorem BcmEcmpHost_failure_releases (vrf : Z) (fwd : RouteForwardNexthops)
    (s s' : BcmSwitch) :
  counts_positive s →
  (BcmEcmpHost_ctor vrf fwd s = Throw s' →
   refcounts s' = refcounts s ∧ ecmpHosts_ s' = ecmpHosts_ s)
  ∧ (ecmpHosts_ s !! (vrf, fwd) = None →
     incRefOrCreateBcmEcmpHost vrf fwd s = Throw s' →
     refcounts s' = refcounts s ∧ ecmpHosts_ s' = ecmpHosts_ s).
Proof.
  intros Hpos. split.
  - intros Hrun. split; [by eapply BcmEcmpHost_ctor_Throw |].
    pose proof (BcmEcmpHost_ctor_ecmpHosts vrf fwd s) as Hsame.
    by rewrite Hrun in Hsame.
  - intros Hk Hrun.
    unfold incRefOrCreateBcmEcmpHost, incRefOrCreateBcmHost_ in Hrun.
    unfold bind at 1, get in Hrun. rewrite Hk in Hrun.
    unfold bind at 1, modify at 1, SCOPE_FAIL in Hrun.
    set (s0 := set_ecmpHosts _ s) in Hrun.
    destruct (bind _ _ s0) as [p sb | sb | sb] eqn:Hbody; [done | | done].
    unfold modify in Hrun. injection Hrun as <-.
    apply bind_Throw_inv in Hbody as [Hmk | (b & s1 & _ & Hrest)];
      [| done].
    unfold make_unique in Hmk.
    apply bind_Throw_inv in Hmk as [Hmk | (? & ? & [= <- <-] & Hmk)];
      [done |].
    apply bind_Throw_inv in Hmk as [Hmk | ([] & ? & [= <-] & Hmk)];
      [done |].
    apply bind_Throw_inv in Hmk as [Hctor | (obj & s2 & _ & Hmk)];
      [| done].
    simpl in Hctor.
    pose proof (BcmEcmpHost_ctor_ecmpHosts vrf fwd
                  (set_heap_next N.succ s0)) as Hsame.
    rewrite Hctor in Hsame. unfold same in Hsame. simpl in Hsame.
    apply BcmEcmpHost_ctor_Throw in Hctor; [| exact Hpos].
    split; [exact Hctor |].
    simpl. rewrite Hsame. by apply delete_insert_id.
Qed.

(** * More of the host table

    Properties of BcmHost.cpp beyond the ones above: the egress registry,
    the lookups, the programming of a host entry and its life cycle, the
    references an ECMP host holds, and the reference counts of the three
    maps. *)

(** ** The egress registry *)

Lemma incEgressReference_present id s obj n :
  egressMap_ s !! id = Some (obj, n) →
  incEgressReference id s
  = Ok (Some obj) (set_egressMap <[id := (obj, S n)]> s).
Proof. intros He. unfold incEgressReference. unfold_m. by rewrite He. Qed.

Lemma derefEgress_shared id s obj n :
  egressMap_ s !! id = Some (obj, S (S n)) →
  derefEgress id s
  = Ok (Some obj)
       (set_egressMap <[id := (obj, S n)]>
          (set_trace (λ t, t ++ [EgressReleased id]) s)).
Proof.
  intros He. unfold derefEgress. unfold_m. rewrite He. simpl.
  rewrite ?Nat.sub_0_r. reflexivity.
Qed.

Lemma derefEgress_last id s obj :
  egressMap_ s !! id = Some (obj, 1%nat) →
  derefEgress id s
  = Ok None
       (set_egressMap (delete id)
          (set_trace (λ t, t ++ [EgressReleased id]) s)).
Proof. intros He. unfold derefEgress. unfold_m. by rewrite He. Qed.

Lemma incEgressReference_repeat k id s obj n :
  egressMap_ s !! id = Some (obj, n) →
  repeatM k (incEgressReference id) s
  = Ok (replicate k (Some obj))
       (set_egressMap <[id := (obj, (n + k)%nat)]> s).
Proof.
  revert s n. induction k as [| k IH]; intros s n He.
  - simpl. unfold ret. f_equal. rewrite Nat.add_0_r.
    destruct s. unfold set_egressMap. simpl in *. f_equal.
    symmetry. by apply insert_id.
  - cbn [repeatM]. erewrite bind_Ok by by apply incEgressReference_present.
    erewrite bind_Ok; [| apply (IH _ (S n)); simpl; apply lookup_insert_eq].
    unfold ret. cbn [replicate]. f_equal.
    unfold set_egressMap. simpl. f_equal. rewrite insert_insert_eq.
    do 2 f_equal. lia.
Qed.

Lemma derefEgress_repeat k id s obj n :
  egressMap_ s !! id = Some (obj, (S n + k)%nat) →
  repeatM k (derefEgress id) s
  = Ok (replicate k (Some obj))
       (set_egressMap <[id := (obj, S n)]>
          (set_trace (λ t, t ++ replicate k (EgressReleased id)) s)).
Proof.
  revert s. induction k as [| k IH]; intros s He.
  - simpl. unfold ret. f_equal. rewrite Nat.add_0_r in He.
    destruct s. unfold set_egressMap, set_trace. simpl in *.
    f_equal; [symmetry; by apply insert_id | by rewrite app_nil_r].
  - cbn [repeatM].
    replace (S n + S k)%nat with (S (S (n + k))) in He by lia.
    erewrite bind_Ok by by apply derefEgress_shared.
    erewrite bind_Ok; [| apply IH; simpl; apply lookup_insert_eq].
    unfold ret. cbn [replicate]. f_equal.
    unfold set_egressMap, set_trace. simpl. f_equal.
    + by rewrite insert_insert_eq.
    + by rewrite <- app_assoc.
Qed.

(** X1.  References on an egress object that the registry holds with a
    positive count: [k] calls of [incEgressReference] followed by [k] calls
    of [derefEgress] all return the object, the count in between is up by
    [k], and at the end the table is what it was (only the [k] releases
    were observed). *)
Theorem egress_references_round_trip (k : nat) (id : Z) (s : BcmSwitch)
    (obj : BcmEgressBase) (n : nat) :
  egressMap_ s !! id = Some (obj, S n) →
  ∃ s1,
    repeatM k (incEgressReference id) s = Ok (replicate k (Some obj)) s1
    ∧ egressMap_ s1 !! id = Some (obj, (S n + k)%nat)
    ∧ repeatM k (derefEgress id) s1
      = Ok (replicate k (Some obj))
           (set_trace (λ t, t ++ replicate k (EgressReleased id)) s).
Proof.
  intros He. eexists. split; [by apply incEgressReference_repeat |].
  split; [simpl; apply lookup_insert_eq |].
  erewrite derefEgress_repeat by (simpl; apply lookup_insert_eq).
  f_equal. destruct s. unfold set_egressMap, set_trace. simpl in *. f_equal.
  rewrite insert_insert_eq. by apply insert_id.
Qed.

(** X2.  An egress object whose id the registry does not hold:
    [insertBcmEgress] registers it with count one, [getEgressObjectIf]
    finds it under its id, the other ids are as before, inserting any
    object with the same id again aborts, and one [derefEgress] returns
    null and leaves the registry as it was before the insertion. *)
Theorem insertBcmEgress_lookup_release (egress : BcmEgressBase)
    (s : BcmSwitch) :
  egressMap_ s !! getID egress = None →
  ∃ s1 s2,
    insertBcmEgress egress s = Ok tt s1
    ∧ getEgressObjectIf s1 (getID egress) = Some egress
    ∧ (∀ id, id ≠ getID egress →
             getEgressObjectIf s1 id = getEgressObjectIf s id)
    ∧ (∀ other, getID other = getID egress →
                insertBcmEgress other s1 = Fatal s1)
    ∧ derefEgress (getID egress) s1 = Ok None s2
    ∧ egressMap_ s2 = egressMap_ s
    ∧ getEgressObjectIf s2 (getID egress) = None.
Proof.
  intros He. eexists _, _. split_and!.
  - unfold insertBcmEgress. unfold_m. rewrite He. reflexivity.
  - unfold getEgressObjectIf. simpl. by rewrite lookup_insert_eq.
  - intros id Hne. unfold getEgressObjectIf. simpl.
    by rewrite lookup_insert_ne.
  - intros other Hid. unfold insertBcmEgress. unfold_m. rewrite Hid. simpl.
    by rewrite lookup_insert_eq.
  - apply (derefEgress_last _ _ egress). simpl. apply lookup_insert_eq.
  - simpl. by apply delete_insert_id.
  - unfold getEgressObjectIf. simpl. by rewrite lookup_delete_eq.
Qed.

(** ** The port reverse index, there and back *)

(** X3.  Moving an egress id from the port it is indexed under to a port
    it is not indexed under, and back: after the first
    [updatePortEgressMapping] the id is under the new port (if that is a
    real port) and no longer under the old one (if that is a real port);
    after the second every port has the set of ids it had at the start. *)
Theorem updatePortEgressMapping_there_and_back (egressId oldPort newPort : Z)
    (s : BcmSwitch) :
  egressId ∈ getEgressIdsForPort s oldPort →
  egressId ∉ getEgressIdsForPort s newPort →
  ∃ s1 s2,
    updatePortEgressMapping egressId oldPort newPort s = Ok tt s1
    ∧ updatePortEgressMapping egressId newPort oldPort s1 = Ok tt s2
    ∧ (newPort ≠ 0 → egressId ∈ getEgressIdsForPort s1 newPort)
    ∧ (oldPort ≠ 0 → egressId ∉ getEgressIdsForPort s1 oldPort)
    ∧ ∀ port, getEgressIdsForPort s2 port = getEgressIdsForPort s port.
Proof.
  intros Hin Hout. eexists _, _.
  split; [reflexivity |]. split; [reflexivity |].
  rewrite getEgressIdsForPort_port_set in Hin, Hout.
  assert (Hne : oldPort ≠ newPort) by (intros ->; done).
  split_and!.
  - intros Hn. rewrite getEgressIdsForPort_port_set. simpl.
    rewrite port_set_updatePortEgressMapping_map. cbv zeta.
    rewrite (bool_decide_eq_true_2 (newPort = newPort ∧ newPort ≠ 0)) by done.
    set_solver.
  - intros Ho. rewrite getEgressIdsForPort_port_set. simpl.
    rewrite port_set_updatePortEgressMapping_map. cbv zeta.
    rewrite (bool_decide_eq_true_2 (oldPort = oldPort ∧ oldPort ≠ 0)) by done.
    rewrite (bool_decide_eq_false_2 (oldPort = newPort ∧ newPort ≠ 0))
      by naive_solver.
    set_solver.
  - intros port. rewrite !getEgressIdsForPort_port_set. simpl.
    rewrite !port_set_updatePortEgressMapping_map. cbv zeta.
    apply set_eq. intros x.
    destruct (decide (x = egressId)) as [-> | Hx];
      repeat case_bool_decide; set_solver.
Qed.

(** ** Lookups after an acquisition or a release *)

(** On either map: the pointer an acquisition or a release returned is the
    one a lookup of the key finds afterwards (null when nothing is found). *)
Section HostLookup.
Context {KeyT HostT : Type} `{Countable KeyT}.
Variable map_of : BcmSwitch → gmap KeyT (option (boxed HostT) * nat).
Variable set_map :
  (gmap KeyT (option (boxed HostT) * nat) →
   gmap KeyT (option (boxed HostT) * nat)) → BcmSwitch → BcmSwitch.
Variable construct : KeyT → M BcmSwitch HostT.
Variable destroy : HostT → M BcmSwitch unit.
Variable released : KeyT → Event.

Hypothesis map_of_set_map : ∀ f s, map_of (set_map f s) = f (map_of s).
Hypothesis map_of_set_trace : ∀ f s, map_of (set_trace f s) = map_of s.
Hypothesis map_of_set_heap_next :
  ∀ f s, map_of (set_heap_next f s) = map_of s.
Hypothesis construct_keeps_map :
  ∀ key, preserves (same map_of) (construct key).
Hypothesis destroy_keeps_map : ∀ h, preserves (same map_of) (destroy h).

Lemma acquire_lookup key s p s1 :
  incRefOrCreateBcmHost_ map_of set_map construct key s = Ok p s1 →
  getBcmHostIf_ map_of s1 key = p.
Proof.
  intros Hacq. unfold getBcmHostIf_.
  destruct (map_of s !! key) as [[host n] |] eqn:Hk.
  - rewrite (acquire_present map_of set_map construct key s host n Hk)
      in Hacq.
    injection Hacq as <- <-.
    by rewrite map_of_set_map, lookup_insert_eq.
  - destruct (acquire_absent map_of set_map construct map_of_set_map
                map_of_set_heap_next construct_keeps_map key s p s1 Hk Hacq)
      as (b & -> & ->).
    reflexivity.
Qed.

Lemma release_lookup key s r s1 :
  derefBcmHost_ map_of set_map destroy released key s = Ok r s1 →
  getBcmHostIf_ map_of s1 key = r.
Proof.
  intros Hrel. unfold getBcmHostIf_.
  destruct (map_of s !! key) as [[host [| [| n]]] |] eqn:Hk.
  - unfold derefBcmHost_ in Hrel. unfold_m in Hrel. by rewrite Hk in Hrel.
  - destruct (release_last map_of set_map destroy released map_of_set_map
                destroy_keeps_map key s host Hk) as [Hgone Hnull].
    rewrite Hrel in Hgone. simpl in Hgone. rewrite Hgone.
    symmetry. by eapply Hnull.
  - rewrite (release_shared map_of set_map destroy released key s host n Hk)
      in Hrel.
    injection Hrel as <- <-.
    by rewrite map_of_set_map, lookup_insert_eq.
  - unfold derefBcmHost_ in Hrel. unfold_m in Hrel. rewrite Hk in Hrel.
    injection Hrel as <- <-. by rewrite Hk.
Qed.
End HostLookup.

(** X4.  [getBcmHost] and [getBcmEcmpHost] after a call that returned:
    when [incRefOrCreateBcmHost] (either overload),
    [incRefOrCreateBcmEcmpHost], [derefBcmHost] or [derefBcmEcmpHost]
    returned a pointer to an object, the lookup of the same key returns that
    very pointer; when the call returned null, the lookup throws.  The
    lookup leaves the table as it is. *)
Theorem getBcmHost_after_acquire_and_release (vrf : Z) (s : BcmSwitch) :
  (∀ addr p s1,
     incRefOrCreateBcmHost vrf addr s = Ok p s1 →
     getBcmHost vrf addr s1
     = match p with Some host => Ok host s1 | None => Throw s1 end)
  ∧ (∀ addr egressId p s1,
       incRefOrCreateBcmHost_egress vrf addr egressId s = Ok p s1 →
       getBcmHost vrf addr s1
       = match p with Some host => Ok host s1 | None => Throw s1 end)
  ∧ (∀ addr r s1,
       derefBcmHost vrf addr s = Ok r s1 →
       getBcmHost vrf addr s1
       = match r with Some host => Ok host s1 | None => Throw s1 end)
  ∧ (∀ fwd p s1,
       incRefOrCreateBcmEcmpHost vrf fwd s = Ok p s1 →
       getBcmEcmpHost vrf fwd s1
       = match p with Some host => Ok host s1 | None => Throw s1 end)
  ∧ (∀ fwd r s1,
       derefBcmEcmpHost vrf fwd s = Ok r s1 →
       getBcmEcmpHost vrf fwd s1
       = match r with Some host => Ok host s1 | None => Throw s1 end).
Proof.
  split_and!.
  - intros addr p s1 Hacq. unfold getBcmHost, getBcmHostIf. unfold_m.
    erewrite (acquire_lookup hosts_ set_hosts) by
      first [exact Hacq | reflexivity | intros; apply BcmHost_ctor_hosts].
    by destruct p.
  - intros addr egressId p s1 Hacq. unfold getBcmHost, getBcmHostIf. unfold_m.
    erewrite (acquire_lookup hosts_ set_hosts) by
      first [exact Hacq | reflexivity | intros; apply BcmHost_ctor_hosts].
    by destruct p.
  - intros addr r s1 Hrel. unfold getBcmHost, getBcmHostIf. unfold_m.
    erewrite (release_lookup hosts_ set_hosts) by
      first [exact Hrel | reflexivity | apply BcmHost_dtor_hosts].
    by destruct r.
  - intros fwd p s1 Hacq. unfold getBcmEcmpHost, getBcmEcmpHostIf. unfold_m.
    erewrite (acquire_lookup ecmpHosts_ set_ecmpHosts) by
      first [exact Hacq | reflexivity
            | intros; apply BcmEcmpHost_ctor_ecmpHosts].
    by destruct p.
  - intros fwd r s1 Hrel. unfold getBcmEcmpHost, getBcmEcmpHostIf. unfold_m.
    erewrite (release_lookup ecmpHosts_ set_ecmpHosts) by
      first [exact Hrel | reflexivity | apply BcmEcmpHost_dtor_ecmpHosts].
    by destruct r.
Qed.

(** ** Acquiring a host entry *)

(** X5.  [incRefOrCreateBcmHost(vrf, addr)] cannot fail: it always
    returns, the count held under the key is one more than before (one for
    a key that was absent), every other key is as it was, and neither the
    ECMP map, the egress registry, the port index nor the hardware is
    touched.  For an absent key the pointer returned is to a new host that
    has no egress object, no port, and is not added. *)
Theorem incRefOrCreateBcmHost_never_fails (vrf : Z) (addr : IPAddress)
    (s : BcmSwitch) :
  ∃ p s1,
    incRefOrCreateBcmHost vrf addr s = Ok p s1
    ∧ refcount s1 (vrf, addr) = S (refcount s (vrf, addr))
    ∧ (∀ key, key ≠ (vrf, addr) → hosts_ s1 !! key = hosts_ s !! key)
    ∧ ecmpHosts_ s1 = ecmpHosts_ s
    ∧ egressMap_ s1 = egressMap_ s
    ∧ port2EgressIds_ s1 = port2EgressIds_ s
    ∧ trace s1 = trace s
    ∧ (hosts_ s !! (vrf, addr) = None →
       p = Some (heap_next s)
       ∧ hosts_ s1 !! (vrf, addr)
         = Some (Some (Box (heap_next s)
                         (BcmHost.Make vrf addr INVALID 0 false)), 1%nat)).
Proof.
  rewrite incRefOrCreateBcmHost_run. unfold refcount.
  destruct (hosts_ s !! (vrf, addr)) as [[host n] |] eqn:Hk;
    eexists _, _; (split; [reflexivity |]); simpl;
    rewrite ?lookup_insert_eq; split_and!; try done;
    intros key Hne; by rewrite lookup_insert_ne.
Qed.

(** X6.  The overload of [incRefOrCreateBcmHost] that takes an egress id
    uses the id only to construct a host.  For a key the table already
    holds it does what the other overload does: the count goes up, the
    object held is returned, and no reference is taken on the egress id,
    whichever id is given and whether the registry holds it or not.  For an
    absent key and a valid id that the registry does not hold, the call
    aborts. *)
Theorem incRefOrCreateBcmHost_egress_uses_id_for_new_hosts_only (vrf : Z)
    (addr : IPAddress) (egressId : Z) (s : BcmSwitch) :
  (∀ host n,
     hosts_ s !! (vrf, addr) = Some (host, n) →
     incRefOrCreateBcmHost_egress vrf addr egressId s
     = Ok (address <$> host) (set_hosts <[(vrf, addr) := (host, S n)]> s)
     ∧ incRefOrCreateBcmHost_egress vrf addr egressId s
       = incRefOrCreateBcmHost vrf addr s)
  ∧ (hosts_ s !! (vrf, addr) = None →
     egressId ≠ INVALID →
     egressMap_ s !! egressId = None →
     ∃ s', incRefOrCreateBcmHost_egress vrf addr egressId s = Fatal s'
         ∧ egressMap_ s' = egressMap_ s).
Proof.
  split.
  - intros host n Hk. rewrite incRefOrCreateBcmHost_run, Hk.
    unfold incRefOrCreateBcmHost_egress.
    by rewrite (acquire_present hosts_ set_hosts _ _ _ _ _ Hk).
  - intros Hk Hv He. eexists. split.
    + unfold incRefOrCreateBcmHost_egress, incRefOrCreateBcmHost_,
        make_unique, BcmHost_ctor, incEgressReference.
      unfold_m. rewrite Hk. simpl.
      rewrite bool_decide_eq_true_2 by done. simpl. rewrite He. reflexivity.
    + reflexivity.
Qed.

(** ** A warm boot entry read back with stray flag bits *)

(** The comparison looks at the two flag bits, the vrf and the egress
    reference, and at nothing else. *)
Lemma equivalent_stray newHost existingHost g :
  l3a_flags existingHost = Z.lor (l3a_flags newHost) g →
  Z.land g OPENNSL_L3_IP6 = 0 →
  Z.land g OPENNSL_L3_MULTIPATH = 0 →
  l3a_vrf existingHost = l3a_vrf newHost →
  l3a_intf existingHost = l3a_intf newHost →
  equivalent newHost existingHost = true.
Proof.
  intros Hf H6 Hm Hv Hi. unfold equivalent. rewrite Hf, Hv, Hi.
  rewrite !Z.land_lor_distr_l, H6, Hm, !Z.lor_0_r.
  by rewrite !bool_decide_eq_true_2.
Qed.

(** X7.  [addBcmHost] accepts a discovered entry that differs from the
    computed one only in flag bits other than IP6 and MULTIPATH and in the
    address fields: with the same vrf and egress reference, and flags that
    are the computed flags with any bits [g] outside the two set, the call
    returns, issues no SDK call, acknowledges the entry and marks the host
    added. *)
Theorem addBcmHost_accepts_stray_flag_bits (key : HostKey)
    (isMultipath : bool) (s : BcmSwitch) (b : boxed BcmHost.t) (n : nat)
    (existingHost : opennsl_l3_host_t) (g : Z) :
  hosts_ s !! key = Some (Some b, n) →
  BcmHost.added_ (target b) = false →
  warmBootCache_ s !! (BcmHost.vrf_ (target b), BcmHost.addr_ (target b))
    = Some existingHost →
  l3a_flags existingHost
    = Z.lor (l3a_flags (l3_host_of (target b) isMultipath)) g →
  Z.land g OPENNSL_L3_IP6 = 0 →
  Z.land g OPENNSL_L3_MULTIPATH = 0 →
  l3a_vrf existingHost = BcmHost.vrf_ (target b) →
  l3a_intf existingHost = BcmHost.egressId_ (target b) →
  ∃ s', BcmHost_addBcmHost key isMultipath s = Ok tt s'
      ∧ trace s' = trace s ++ [WarmBootProgrammed (BcmHost.vrf_ (target b))
                                                  (BcmHost.addr_ (target b))]
      ∧ hosts_ s' !! key
        = Some (Some (Box (address b) (mark_added (target b))), n)
      ∧ egressMap_ s' = egressMap_ s.
Proof.
  intros Hk Ha Hc Hf H6 Hm Hv Hi.
  assert (Heq : equivalent (l3_host_of (target b) isMultipath) existingHost
                = true).
  { apply (equivalent_stray _ _ g); try done.
    - rewrite Hv. unfold l3_host_of. by destruct isMultipath.
    - rewrite Hi. unfold l3_host_of. by destruct isMultipath. }
  eexists. split_and!.
  - unfold BcmHost_addBcmHost, this_host, programmed, update_host.
    unfold_m. rewrite Hk. simpl. rewrite Ha, Hc, Heq. simpl. reflexivity.
  - reflexivity.
  - simpl. rewrite lookup_alter_eq, Hk. reflexivity.
  - reflexivity.
Qed.

(** ** Programming a host entry *)

(** The egress action [program] asks for: with a MAC address the egress
    object forwards to the port, whatever the action says; without one it
    drops when the action is DROP and punts to the CPU otherwise. *)
Definition egress_action (intf : Z) (mac : option MacAddress) (port : Z)
    (action : RouteForwardAction) : EgressAction :=
  match mac with
  | Some mac => ToPort intf mac port
  | None => match action with DROP => ToDrop intf | _ => ToCPU intf end
  end.

Lemma program_egress_action id intf vrf addr mac port action :
  match mac with
  | Some mac => BcmEgress_program id intf vrf addr mac port
  | None =>
      match action with
      | DROP => BcmEgress_programToDrop id intf vrf addr
      | _ => BcmEgress_programToCPU id intf vrf addr
      end
  end
  = BcmEgress_program_common id vrf addr (egress_action intf mac port action).
Proof. destruct mac; [done |]. by destruct action. Qed.

Lemma this_host_run key s b n :
  hosts_ s !! key = Some (Some b, n) → this_host key s = Ok (target b) s.
Proof. intros Hb. unfold this_host. unfold_m. by rewrite Hb. Qed.

Lemma sdk_call_run c s :
  sdk_call c s
  = Ok (sdk (trace s) c) (set_trace (λ t, t ++ [Sdk c (sdk (trace s) c)]) s).
Proof. reflexivity. Qed.

Lemma BcmEgress_program_common_run id vrf addr a s :
  BcmEgress_program_common id vrf addr a s
  = let create := opennsl_l3_egress_create id a in
    let r := sdk (trace s) create in
    let s' := set_trace (λ t, t ++ [Sdk create r]) s in
    if rc r <? 0 then Throw s'
    else Ok (BcmEgress (if bool_decide (id = INVALID) then assigned r else id)
                       a) s'.
Proof.
  unfold BcmEgress_program_common, sdk_call. unfold_m. simpl.
  by destruct (rc _ <? 0).
Qed.

Lemma update_host_insert key f s b n :
  hosts_ s !! key = Some (Some b, n) →
  update_host key f s
  = Ok tt (set_hosts <[key := (Some (Box (address b) (f (target b))), n)]> s).
Proof.
  intros Hb. unfold update_host. unfold_m. f_equal.
  unfold set_hosts. f_equal. apply map_eq. intros k.
  destruct (decide (k = key)) as [-> | Hne].
  - by rewrite lookup_alter_eq, lookup_insert_eq, Hb.
  - by rewrite lookup_alter_ne, lookup_insert_ne.
Qed.

Lemma BcmHost_addBcmHost_run key isMultipath s b n :
  hosts_ s !! key = Some (Some b, n) →
  BcmHost.added_ (target b) = false →
  warmBootCache_ s !! (BcmHost.vrf_ (target b), BcmHost.addr_ (target b))
    = None →
  BcmHost_addBcmHost key isMultipath s
  = let add := opennsl_l3_host_add (l3_host_of (target b) isMultipath) in
    let r := sdk (trace s) add in
    let s' := set_trace (λ t, t ++ [Sdk add r]) s in
    if rc r <? 0 then Throw s'
    else Ok tt (set_hosts
                  <[key := (Some (Box (address b) (mark_added (target b))), n)]>
                  s').
Proof.
  intros Hb Ha Hc. unfold BcmHost_addBcmHost.
  erewrite bind_Ok by exact (this_host_run _ _ _ _ Hb).
  rewrite Ha. cbv zeta. erewrite (bind_Ok get) by reflexivity. rewrite Hc.
  destruct (rc _ <? 0) eqn:Hrc.
  - apply bind_Throw. erewrite bind_Ok by apply sdk_call_run.
    unfold bcmCheckError. by rewrite Hrc.
  - erewrite bind_Ok; last first.
    { erewrite bind_Ok by apply sdk_call_run.
      unfold bcmCheckError. rewrite Hrc. reflexivity. }
    by apply update_host_insert.
Qed.

Lemma insertBcmEgress_run egress s :
  egressMap_ s !! getID egress = None →
  insertBcmEgress egress s
  = Ok tt (set_egressMap <[getID egress := (egress, 1%nat)]> s).
Proof. intros He. unfold insertBcmEgress. unfold_m. by rewrite He. Qed.

(** X8.  [program] on a host entry that has no egress object yet and is
    not added, with no warm boot entry for it, when the hardware accepts
    both calls and hands out an id the registry does not hold.  The call
    returns.  Two SDK calls were made, in this order: the creation of an
    egress object with the action asked for, and the L3-host add of the
    host's entry through the id the hardware assigned.  The new object is
    registered under that id with count one; the host has that egress id,
    the port given, and is added; the port index was updated for that id
    from the stored port to the port given. *)
Theorem BcmHost_program_unprogrammed (key : HostKey) (intf : Z)
    (mac : option MacAddress) (port : Z) (action : RouteForwardAction)
    (s : BcmSwitch) (b : boxed BcmHost.t) (n : nat) :
  hosts_ s !! key = Some (Some b, n) →
  BcmHost.egressId_ (target b) = INVALID →
  BcmHost.added_ (target b) = false →
  warmBootCache_ s !! (BcmHost.vrf_ (target b), BcmHost.addr_ (target b))
    = None →
  let a := egress_action intf mac port action in
  let create := opennsl_l3_egress_create INVALID a in
  let r1 := sdk (trace s) create in
  let add :=
    opennsl_l3_host_add
      (initHostCommon
         (BcmHost.Make (BcmHost.vrf_ (target b)) (BcmHost.addr_ (target b))
                       (assigned r1) (BcmHost.port_ (target b)) false)) in
  let r2 := sdk (trace s ++ [Sdk create r1]) add in
  0 ≤ rc r1 →
  egressMap_ s !! assigned r1 = None →
  0 ≤ rc r2 →
  ∃ s',
    BcmHost_program key intf mac port action s = Ok tt s'
    ∧ hosts_ s'
      = <[key := (Some (Box (address b)
                     (BcmHost.Make (BcmHost.vrf_ (target b))
                        (BcmHost.addr_ (target b)) (assigned r1) port true)),
                  n)]> (hosts_ s)
    ∧ egressMap_ s'
      = <[assigned r1 := (BcmEgress (assigned r1) a, 1%nat)]> (egressMap_ s)
    ∧ port2EgressIds_ s'
      = updatePortEgressMapping_map (assigned r1) (BcmHost.port_ (target b))
          port (port2EgressIds_ s)
    ∧ ecmpHosts_ s' = ecmpHosts_ s
    ∧ trace s' = trace s ++ [Sdk create r1; Sdk add r2].
Proof.
  intros Hb Hinv Ha Hc a create r1 add r2 H1 Hfresh H2.
  assert (Hr1 : (rc r1 <? 0) = false) by (apply Z.ltb_ge; lia).
  assert (Hr2 : (rc r2 <? 0) = false) by (apply Z.ltb_ge; lia).
  subst a create r1 add r2.
  eexists. split.
  - unfold BcmHost_program.
    erewrite bind_Ok by exact (this_host_run _ _ _ _ Hb).
    cbv zeta. rewrite !(bool_decide_eq_true_2 _ Hinv).
    erewrite (bind_Ok get) by reflexivity.
    erewrite bind_Ok by reflexivity.
    rewrite program_egress_action.
    erewrite bind_Ok; last first.
    { rewrite BcmEgress_program_common_run. cbv zeta. rewrite Hr1.
      rewrite bool_decide_eq_true_2 by done. reflexivity. }
    erewrite bind_Ok; last first.
    { erewrite bind_Ok by (apply update_host_insert; exact Hb).
      apply insertBcmEgress_run. exact Hfresh. }
    rewrite Ha. cbn [negb].
    erewrite bind_Ok; last first.
    { erewrite BcmHost_addBcmHost_run by
        first [simpl; apply lookup_insert_eq | simpl; exact Ha
              | simpl; exact Hc].
      cbv zeta. cbn [target address getID trace set_trace set_hosts
                       set_egressMap l3_host_of BcmHost.vrf_ BcmHost.addr_
                       BcmHost.egressId_ BcmHost.port_ BcmHost.added_].
      rewrite Ha, Hr2. reflexivity. }
    erewrite bind_Ok by reflexivity.
    apply update_host_insert. simpl.
    rewrite lookup_insert_eq. reflexivity.
  - simpl. split_and!; try reflexivity.
    + by rewrite !insert_insert_eq.
    + by rewrite <- app_assoc.
Qed.


(** X10.  The ways [program] fails on a host entry that has no egress
    object yet.  If the hardware refuses the egress object, the error is
    thrown and the table is as it was (the refused call is all that was
    observed).  If the hardware hands out an id the registry already holds,
    the insertion aborts the process.  If the egress object was made but
    the hardware refuses the L3-host add, the error is thrown with the call
    half done: the new object is registered with count one and the host
    has its id, but the host is not added, and neither its port nor the
    port index was updated. *)
Theorem BcmHost_program_failures (key : HostKey) (intf : Z)
    (mac : option MacAddress) (port : Z) (action : RouteForwardAction)
    (s : BcmSwitch) (b : boxed BcmHost.t) (n : nat) :
  hosts_ s !! key = Some (Some b, n) →
  BcmHost.egressId_ (target b) = INVALID →
  let a := egress_action intf mac port action in
  let create := opennsl_l3_egress_create INVALID a in
  let r1 := sdk (trace s) create in
  let h1 := BcmHost.Make (BcmHost.vrf_ (target b)) (BcmHost.addr_ (target b))
                         (assigned r1) (BcmHost.port_ (target b)) false in
  let add := opennsl_l3_host_add (initHostCommon h1) in
  let r2 := sdk (trace s ++ [Sdk create r1]) add in
  (rc r1 < 0 →
   BcmHost_program key intf mac port action s
   = Throw (set_trace (λ t, t ++ [Sdk create r1]) s))
  ∧ (0 ≤ rc r1 → is_Some (egressMap_ s !! assigned r1) →
     ∃ s', BcmHost_program key intf mac port action s = Fatal s')
  ∧ (0 ≤ rc r1 → egressMap_ s !! assigned r1 = None →
     BcmHost.added_ (target b) = false →
     warmBootCache_ s !! (BcmHost.vrf_ (target b), BcmHost.addr_ (target b))
       = None →
     rc r2 < 0 →
     ∃ s',
       BcmHost_program key intf mac port action s = Throw s'
       ∧ hosts_ s' = <[key := (Some (Box (address b) h1), n)]> (hosts_ s)
       ∧ egressMap_ s'
         = <[assigned r1 := (BcmEgress (assigned r1) a, 1%nat)]> (egressMap_ s)
       ∧ port2EgressIds_ s' = port2EgressIds_ s
       ∧ trace s' = trace s ++ [Sdk create r1; Sdk add r2]).
Proof.
  intros Hb Hinv a create r1 h1 add r2.
  assert (Hhead : BcmHost_program key intf mac port action s
            = (egress <- BcmEgress_program_common INVALID
                           (BcmHost.vrf_ (target b)) (BcmHost.addr_ (target b))
                           a ;;
               (update_host key
                  (λ h, BcmHost.Make (BcmHost.vrf_ h) (BcmHost.addr_ h)
                          (getID egress) (BcmHost.port_ h)
                          (BcmHost.added_ h)) ;;;
                insertBcmEgress egress) ;;;
               (if negb (BcmHost.added_ (target b))
                then BcmHost_addBcmHost key false else ret tt) ;;;
               updatePortEgressMapping (getID egress)
                 (BcmHost.port_ (target b)) port ;;;
               update_host key
                 (λ h, BcmHost.Make (BcmHost.vrf_ h) (BcmHost.addr_ h)
                         (BcmHost.egressId_ h) port (BcmHost.added_ h))) s).
  { unfold BcmHost_program.
    erewrite bind_Ok by exact (this_host_run _ _ _ _ Hb).
    cbv zeta. rewrite !(bool_decide_eq_true_2 _ Hinv).
    erewrite (bind_Ok get) by reflexivity.
    erewrite bind_Ok by reflexivity.
    by rewrite program_egress_action. }
  rewrite Hhead. clear Hhead.
  subst a create r1 h1 add r2. split_and!.
  - intros H1. apply bind_Throw.
    rewrite BcmEgress_program_common_run. cbv zeta.
    by rewrite (proj2 (Z.ltb_lt _ _) H1).
  - intros H1 [e He].
    erewrite bind_Ok; last first.
    { rewrite BcmEgress_program_common_run. cbv zeta.
      rewrite (proj2 (Z.ltb_ge _ _) H1).
      rewrite bool_decide_eq_true_2 by done. reflexivity. }
    eexists. apply bind_Fatal.
    erewrite bind_Ok by (apply update_host_insert; exact Hb).
    unfold insertBcmEgress. unfold_m. simpl. rewrite He. reflexivity.
  - intros H1 Hfresh Ha Hc H2.
    eexists. split.
    + erewrite bind_Ok; last first.
      { rewrite BcmEgress_program_common_run. cbv zeta.
        rewrite (proj2 (Z.ltb_ge _ _) H1).
        rewrite bool_decide_eq_true_2 by done. reflexivity. }
      erewrite bind_Ok; last first.
      { erewrite bind_Ok by (apply update_host_insert; exact Hb).
        apply insertBcmEgress_run. exact Hfresh. }
      rewrite Ha. cbn [negb].
      apply bind_Throw.
      erewrite BcmHost_addBcmHost_run by
        first [simpl; apply lookup_insert_eq | simpl; exact Ha
              | simpl; exact Hc].
      cbv zeta. cbn [target address getID trace set_trace set_hosts
                       set_egressMap l3_host_of BcmHost.vrf_ BcmHost.addr_
                       BcmHost.egressId_ BcmHost.port_ BcmHost.added_].
      rewrite Ha, (proj2 (Z.ltb_lt _ _) H2). reflexivity.
    + simpl. split_and!; try reflexivity.
      by rewrite <- app_assoc.
Qed.

(** ** Destroying a host entry *)

Lemma BcmHost_dtor_run h s :
  BcmHost.added_ h = true →
  BcmHost_dtor h s
  = let del := opennsl_l3_host_delete (initHostCommon h) in
    let r := sdk (trace s) del in
    let s1 := set_trace (λ t, t ++ [Sdk del r]) s in
    if rc r <? 0 then Fatal s1
    else (derefEgress (BcmHost.egressId_ h) ;;; ret tt) s1.
Proof.
  intros Ha. unfold BcmHost_dtor. rewrite Ha. cbn [negb].
  erewrite bind_Ok by apply sdk_call_run.
  unfold bcmLogFatal. cbv zeta. by destruct (rc _ <? 0).
Qed.

Lemma derefBcmHost_last_run vrf addr s host :
  hosts_ s !! (vrf, addr) = Some (host, 1%nat) →
  derefBcmHost vrf addr s
  = noexcept
      (match host with
       | Some b => BcmHost_dtor (target b)
       | None => ret tt
       end ;;; ret None)
      (set_hosts (delete (vrf, addr))
         (set_trace (λ t, t ++ [HostReleased vrf addr]) s)).
Proof.
  intros Hk. unfold derefBcmHost.
  by rewrite (release_last_eq hosts_ set_hosts BcmHost_dtor
                (λ key, HostReleased key.1 key.2) (vrf, addr) s host Hk).
Qed.

Lemma set_trace_set_hosts_app f e1 e2 s :
  set_trace (λ t, t ++ [e2]) (set_hosts f (set_trace (λ t, t ++ [e1]) s))
  = set_hosts f (set_trace (λ t, t ++ [e1; e2]) s).
Proof.
  unfold set_trace, set_hosts. simpl. f_equal. by rewrite <- app_assoc.
Qed.

Lemma derefBcmHost_last_added_run vrf addr s b :
  hosts_ s !! (vrf, addr) = Some (Some b, 1%nat) →
  BcmHost.added_ (target b) = true →
  derefBcmHost vrf addr s
  = let del := opennsl_l3_host_delete (initHostCommon (target b)) in
    let r := sdk (trace s ++ [HostReleased vrf addr]) del in
    let s1 := set_hosts (delete (vrf, addr))
                (set_trace (λ t, t ++ [HostReleased vrf addr; Sdk del r]) s) in
    if rc r <? 0 then Fatal s1
    else match derefEgress (BcmHost.egressId_ (target b)) s1 with
         | Ok _ s' => Ok None s'
         | Throw s' | Fatal s' => Fatal s'
         end.
Proof.
  intros Hk Ha. cbv zeta.
  rewrite (derefBcmHost_last_run _ _ _ _ Hk).
  unfold noexcept, bind at 1. rewrite (BcmHost_dtor_run _ _ Ha). cbv zeta.
  cbn [trace set_trace set_hosts].
  rewrite set_trace_set_hosts_app.
  destruct (rc _ <? 0); [reflexivity |].
  unfold bind. by destruct (derefEgress _ _).
Qed.

(** X11.  The release of the last reference to a host entry that is
    added: the entry is erased and the host destroyed.  The destructor
    deletes the host's entry in the hardware and, after that, releases one
    reference on the host's egress object, which is erased from the
    registry when that was its last.  If the hardware refuses the delete,
    or the registry does not hold the host's egress id, the process aborts
    with the egress registry untouched. *)
Theorem derefBcmHost_destroys_added_host (vrf : Z) (addr : IPAddress)
    (s : BcmSwitch) (b : boxed BcmHost.t) :
  hosts_ s !! (vrf, addr) = Some (Some b, 1%nat) →
  BcmHost.added_ (target b) = true →
  let id := BcmHost.egressId_ (target b) in
  let del := opennsl_l3_host_delete (initHostCommon (target b)) in
  let r := sdk (trace s ++ [HostReleased vrf addr]) del in
  (rc r < 0 ∨ egressMap_ s !! id = None →
   ∃ s', derefBcmHost vrf addr s = Fatal s'
       ∧ egressMap_ s' = egressMap_ s
       ∧ trace s' = trace s ++ [HostReleased vrf addr; Sdk del r])
  ∧ (0 ≤ rc r → ∀ obj m,
       egressMap_ s !! id = Some (obj, S m) →
       ∃ s', derefBcmHost vrf addr s = Ok None s'
           ∧ hosts_ s' = delete (vrf, addr) (hosts_ s)
           ∧ egressMap_ s'
             = match m with
               | O => delete id (egressMap_ s)
               | S _ => <[id := (obj, m)]> (egressMap_ s)
               end
           ∧ trace s'
             = trace s ++ [HostReleased vrf addr; Sdk del r;
                           EgressReleased id]).
Proof.
  intros Hk Ha id del r.
  pose proof (derefBcmHost_last_added_run vrf addr s b Hk Ha) as Hrun.
  cbv zeta in Hrun. fold del r id in Hrun.
  set (s1 := set_hosts (delete (vrf, addr))
               (set_trace (λ t, t ++ [HostReleased vrf addr; Sdk del r]) s))
    in Hrun.
  rewrite Hrun. split.
  - intros Hfail. destruct (rc r <? 0) eqn:Hr.
    + exists s1. split_and!; reflexivity.
    + destruct Hfail as [Hlt | He]; [apply Z.ltb_ge in Hr; lia |].
      exists s1. split_and!; try reflexivity.
      unfold derefEgress. unfold_m.
      replace (egressMap_ s1) with (egressMap_ s) by reflexivity.
      by rewrite He.
  - intros Hr obj m He. rewrite (proj2 (Z.ltb_ge _ _) Hr).
    assert (He1 : egressMap_ s1 !! id = Some (obj, S m)) by exact He.
    destruct m as [| m].
    + rewrite (derefEgress_last _ _ _ He1). eexists.
      split; [reflexivity |]. simpl. split_and!; try reflexivity.
      by rewrite <- app_assoc.
    + rewrite (derefEgress_shared _ _ _ _ He1). eexists.
      split; [reflexivity |]. simpl. split_and!; try reflexivity.
      by rewrite <- app_assoc.
Qed.

(** ** The life of a host entry *)

(** X12.  A host entry from its creation to its destruction.  A key the
    map does not hold is acquired, the host is programmed, and the one
    reference is released; all three calls return.  Then the programming
    made one egress object, under an id the registry did not hold, and the
    release undid what the two calls before it had done to the maps: the
    release returns null, the hardware entry of the host is deleted and
    the reference on its egress object is released (in this order), and
    the host map, the ECMP map and the egress registry are what they were
    before the key was acquired. *)
Theorem host_entry_life_cycle (vrf : Z) (addr : IPAddress) (intf : Z)
    (mac : option MacAddress) (port : Z) (action : RouteForwardAction)
    (s s1 s2 s3 : BcmSwitch) (p r : option N) :
  hosts_ s !! (vrf, addr) = None →
  incRefOrCreateBcmHost vrf addr s = Ok p s1 →
  BcmHost_program (vrf, addr) intf mac port action s1 = Ok tt s2 →
  derefBcmHost vrf addr s2 = Ok r s3 →
  ∃ id a rd,
    hosts_ s2 !! (vrf, addr)
    = Some (Some (Box (heap_next s) (BcmHost.Make vrf addr id port true)),
            1%nat)
    ∧ egressMap_ s !! id = None
    ∧ egressMap_ s2 = <[id := (BcmEgress id a, 1%nat)]> (egressMap_ s)
    ∧ r = None
    ∧ hosts_ s3 = hosts_ s
    ∧ ecmpHosts_ s3 = ecmpHosts_ s
    ∧ egressMap_ s3 = egressMap_ s
    ∧ trace s3
      = trace s2
        ++ [HostReleased vrf addr;
            Sdk (opennsl_l3_host_delete
                   (initHostCommon (BcmHost.Make vrf addr id port true))) rd;
            EgressReleased id].
Proof.
  intros Hk Hacq Hprog Hrel.
  rewrite incRefOrCreateBcmHost_run, Hk in Hacq. injection Hacq as <- <-.
  apply BcmHost_program_Ok in Hprog
    as (b & n & egress & cnt & evs & Hb & Hh2 & He2 & [a Ha] & Hother & Hnew
        & _ & _ & Hecmp & _ & _).
  simpl in Hb. rewrite lookup_insert_eq in Hb. injection Hb as <- <-.
  unfold programmed_egress in *. simpl in *.
  rewrite bool_decide_eq_true_2 in * by done.
  destruct Hnew as [Hfresh ->]; [done |].
  rewrite insert_insert_eq in Hh2.
  assert (Hk2 : hosts_ s2 !! (vrf, addr)
                = Some (Some (Box (heap_next s)
                                (BcmHost.Make vrf addr (getID egress) port
                                   true)), 1%nat))
    by by rewrite Hh2, lookup_insert_eq.
  assert (Hmap2 : egressMap_ s2
                  = <[getID egress := (BcmEgress (getID egress) a, 1%nat)]>
                      (egressMap_ s)).
  { apply map_eq. intros k. destruct (decide (k = getID egress)) as [-> | Hne].
    - by rewrite He2, lookup_insert_eq, <- Ha.
    - by rewrite lookup_insert_ne, Hother. }
  rewrite (derefBcmHost_last_added_run vrf addr s2 _ Hk2 eq_refl) in Hrel.
  cbv zeta in Hrel. cbn [target BcmHost.egressId_] in Hrel.
  destruct (rc _ <? 0); [done |].
  erewrite derefEgress_last in Hrel by (simpl; exact He2).
  injection Hrel as <- <-.
  eexists (getID egress), a, _. split_and!; try done.
  - simpl. rewrite Hh2. by apply delete_insert_id.
  - simpl. rewrite Hmap2. by apply delete_insert_id.
  - simpl. by rewrite <- app_assoc.
Qed.

(** ** The references an ECMP host holds on its members *)

(** The constructor, when it returns: the host records the vrf and the
    next hops given, and every host key's count is up by the number of
    next hops that use the key. *)
Lemma BcmEcmpHost_ctor_Ok_counts vrf fwd s h s1 :
  BcmEcmpHost_ctor vrf fwd s = Ok h s1 →
  BcmEcmpHost.vrf_ h = vrf
  ∧ BcmEcmpHost.fwd_ h = fwd
  ∧ (counts_positive s → counts_positive s1)
  ∧ ∀ key, refcount s1 key = (refcount s key + uses vrf key fwd)%nat.
Proof.
  intros Hrun.
  change (BcmEcmpHost_ctor vrf fwd)
    with (CHECK (0 <? length fwd)%nat ;;;
          with_locals (Locals [] [])
            (SCOPE_FAIL (BcmEcmpHost_ctor_guard vrf)
                        (BcmEcmpHost_ctor_body vrf fwd))) in Hrun.
  apply bind_Ok_inv in Hrun as ([] & s0 & Hchk & Hrun).
  unfold CHECK in Hchk. destruct (0 <? length fwd)%nat; [| done].
  injection Hchk as <-.
  apply with_locals_Ok_inv in Hrun as (lf & Hrun).
  apply SCOPE_FAIL_Ok_inv in Hrun.
  pose proof (BcmEcmpHost_ctor_body_balanced vrf fwd (s, Locals [] []))
    as Hbal.
  rewrite Hrun in Hbal. destruct Hbal as [Hpos Hcount].
  simpl in Hpos, Hcount.
  unfold BcmEcmpHost_ctor_body in Hrun.
  apply bind_Ok_inv in Hrun as ([] & [s2 l2] & Hloop & Hrun).
  apply (for_each_Ok_inv (λ seen sl, prog sl.2 = seen)) in Hloop;
    [| | reflexivity]; last first.
  { intros seen x [sa la] [sb lb] Hseen Hx. simpl in *.
    apply BcmEcmpHost_ctor_path_Ok in Hx as (b & n & _ & _ & -> & _).
    simpl. by rewrite Hseen. }
  simpl in Hloop.
  assert (Htail : BcmEcmpHost.vrf_ h = vrf ∧ BcmEcmpHost.fwd_ h = prog l2
                  ∧ prog lf = prog l2).
  { apply bind_Ok_inv in Hrun as (l & [s3 l3] & [= <- <- <-] & Hrun).
    destruct (length (paths l2) =? 1)%nat.
    - by injection Hrun as <- <- <-.
    - apply bind_Ok_inv in Hrun as (ecmp & [s4 l4] & Hecmp & Hrun).
      apply lift_Ok_inv in Hecmp as (s4' & _ & [= -> ->]).
      apply bind_Ok_inv in Hrun as ([] & [s5 l5] & Hins & Hrun).
      apply lift_Ok_inv in Hins as (s5' & _ & [= -> ->]).
      by injection Hrun as <- <- <-. }
  destruct Htail as (Hvrf & Hfwd & Hprog).
  split; [exact Hvrf |]. split; [congruence |]. split; [exact Hpos |].
  intros key. specialize (Hcount key).
  rewrite Hprog, Hloop in Hcount.
  unfold uses in Hcount at 1. rewrite filter_nil in Hcount. simpl in Hcount.
  lia.
Qed.

(** The destructor, when it returns: every host key's count is down by
    the number of the host's next hops that use the key. *)
Lemma BcmEcmpHost_dtor_Ok_counts h s s' :
  counts_positive s →
  (∀ key, uses (BcmEcmpHost.vrf_ h) key (BcmEcmpHost.fwd_ h)
          ≤ refcount s key)%nat →
  BcmEcmpHost_dtor h s = Ok tt s' →
  counts_positive s'
  ∧ ∀ key, (refcount s' key
            + uses (BcmEcmpHost.vrf_ h) key (BcmEcmpHost.fwd_ h))%nat
           = refcount s key.
Proof.
  intros Hpos Hle Hrun. unfold BcmEcmpHost_dtor in Hrun.
  apply bind_Ok_inv in Hrun as ([] & s0 & Hgroup & Hrun).
  assert (Hsame : hosts_ s0 = hosts_ s).
  { destruct (bool_decide _); [| by injection Hgroup as <-].
    apply bind_Ok_inv in Hgroup as (r & s0' & Hd & [= <-]).
    pose proof (derefEgress_hosts (BcmEcmpHost.ecmpEgressId_ h) s) as Hp.
    by rewrite Hd in Hp. }
  apply guard_releases in Hrun as [Hpos' Hcount].
  - split; [exact Hpos' |]. intros key. rewrite Hcount.
    unfold refcount. by rewrite Hsame.
  - intros key e n. rewrite Hsame. apply Hpos.
  - intros key. unfold refcount. rewrite Hsame. apply Hle.
Qed.

(** X13.  An ECMP host holds one reference on a member host entry for
    each of its next hops.  When the constructor returns, the count of
    every host key is up by the number of next hops that use the key (an
    address reached through two interfaces is counted twice).  And in a
    table whose host counts are all positive, acquiring an ECMP host under
    a key the ECMP map does not hold and releasing it again gives all
    these references back: when both calls return, the release returns
    null, every host key has the count it had, and the ECMP map is what it
    was. *)
Theorem BcmEcmpHost_member_references (vrf : Z) (fwd : RouteForwardNexthops)
    (s : BcmSwitch) :
  (∀ h s1, BcmEcmpHost_ctor vrf fwd s = Ok h s1 →
     ∀ key, refcount s1 key = (refcount s key + uses vrf key fwd)%nat)
  ∧ (counts_positive s →
     ecmpHosts_ s !! (vrf, fwd) = None →
     ∀ p s1 r s2,
       incRefOrCreateBcmEcmpHost vrf fwd s = Ok p s1 →
       derefBcmEcmpHost vrf fwd s1 = Ok r s2 →
       r = None ∧ refcounts s2 = refcounts s ∧ ecmpHosts_ s2 = ecmpHosts_ s).
Proof.
  split.
  { intros h s1 Hrun. by apply BcmEcmpHost_ctor_Ok_counts in Hrun as (_ & _ & _ & ?). }
  intros Hpos Hk p s1 r s2 Hacq Hrel.
  (* the acquisition ran the constructor *)
  unfold incRefOrCreateBcmEcmpHost, incRefOrCreateBcmHost_ in Hacq.
  unfold bind at 1, get in Hacq. rewrite Hk in Hacq.
  unfold bind at 1, modify at 1 in Hacq.
  apply SCOPE_FAIL_Ok_inv in Hacq.
  apply bind_Ok_inv in Hacq as (newHost & s3 & Hmk & Hrest).
  unfold make_unique in Hmk.
  apply bind_Ok_inv in Hmk as (? & ? & [= <- <-] & Hmk).
  apply bind_Ok_inv in Hmk as ([] & ? & [= <-] & Hmk).
  apply bind_Ok_inv in Hmk as (obj & s4 & Hc & [= <- <-]).
  simpl in Hc.
  unfold bind, modify, ret in Hrest. injection Hrest as _ <-.
  pose proof (BcmEcmpHost_ctor_ecmpHosts vrf fwd
                (set_heap_next N.succ
                   (set_ecmpHosts <[(vrf, fwd) := (None, 1%nat)]> s)))
    as Hecmp.
  rewrite Hc in Hecmp. unfold same in Hecmp. simpl in Hecmp.
  apply BcmEcmpHost_ctor_Ok_counts in Hc as (Hvrf & Hfwd & Hpos4 & Hcount4).
  (* the release ran the destructor *)
  unfold derefBcmEcmpHost in Hrel.
  erewrite (release_last_eq ecmpHosts_ set_ecmpHosts) in Hrel; last first.
  { simpl. rewrite Hecmp, lookup_alter_eq, lookup_insert_eq. reflexivity. }
  unfold noexcept in Hrel.
  match type of Hrel with
  | match ?c with _ => _ end = _ => destruct c as [r' s5 | |] eqn:Hd
  end; [| done | done].
  injection Hrel as <- <-.
  apply bind_Ok_inv in Hd as ([] & s6 & Hd & [= <- <-]).
  cbn [target] in Hd.
  match type of Hd with
  | BcmEcmpHost_dtor _ ?sA = _ =>
      pose proof (BcmEcmpHost_dtor_ecmpHosts obj sA) as Hecmp2
  end.
  rewrite Hd in Hecmp2. unfold same in Hecmp2. simpl in Hecmp2.
  apply BcmEcmpHost_dtor_Ok_counts in Hd as [Hpos5 Hcount5].
  - split; [reflexivity |]. split.
    + apply refcounts_eq; [done | done |]. intros key.
      specialize (Hcount4 key). specialize (Hcount5 key).
      rewrite Hvrf, Hfwd in Hcount5.
      change (refcount (set_ecmpHosts _ (set_trace _ (set_ecmpHosts _ s4))) key)
        with (refcount s4 key) in Hcount5.
      change (refcount (set_heap_next _ (set_ecmpHosts _ s)) key)
        with (refcount s key) in Hcount4.
      lia.
    + rewrite Hecmp2, Hecmp.
      rewrite <- (delete_insert_id (ecmpHosts_ s) (vrf, fwd) (None, 1%nat) Hk)
        at 2.
      apply map_eq. intros k. destruct (decide (k = (vrf, fwd))) as [-> | Hne].
      * by rewrite !lookup_delete_eq.
      * by rewrite !lookup_delete_ne, lookup_alter_ne.
  - by apply Hpos4.
  - intros key. rewrite Hvrf, Hfwd. specialize (Hcount4 key).
    change (refcount (set_ecmpHosts _ (set_trace _ (set_ecmpHosts _ s4))) key)
      with (refcount s4 key).
    lia.
Qed.

(** ** Link state, again *)

(** What [linkStateChanged] does for one entry of the ECMP map. *)
Definition link_entry (up : bool) (affected : gset Z)
    (x : EcmpKey * (option (boxed BcmEcmpHost.t) * nat)) : M BcmSwitch unit :=
  match x.2.1 with
  | None => fatal
  | Some ecmpHost =>
      let ecmpId := BcmEcmpHost.ecmpEgressId_ (target ecmpHost) in
      if bool_decide (ecmpId = INVALID) then ret tt else
      getEcmpEgressObject ecmpId ;;;
      for_each (elements affected)
        (λ path,
           modify (set_egressMap
                     (alter (λ e, ((if up then pathReachable path
                                    else pathUnreachable path) e.1, e.2))
                            ecmpId)))
  end.

Lemma linkStateChanged_entries port up s :
  linkStateChanged port up s
  = if bool_decide (getEgressIdsForPort s port = ∅) then Ok tt s
    else for_each (map_to_list (ecmpHosts_ s))
           (link_entry up (getEgressIdsForPort s port)) s.
Proof.
  unfold linkStateChanged. unfold bind at 1, get.
  by destruct (bool_decide _).
Qed.

(** One entry either aborts, or returns with nothing but alterations of
    entries the registry holds. *)
Lemma link_entry_cases up affected x s :
  link_entry up affected x s = Fatal s
  ∨ ∃ s', link_entry up affected x s = Ok tt s'
        ∧ ∀ id, egressMap_ s !! id = None → egressMap_ s' !! id = None.
Proof.
  unfold link_entry. destruct x.2.1 as [b |]; [| by left]. cbv zeta.
  case_bool_decide; [right; by exists s |].
  destruct (egressMap_ s !! BcmEcmpHost.ecmpEgressId_ (target b))
    as [[[? ? | g paths] cnt] |] eqn:He.
  - left. apply bind_Fatal.
    unfold getEcmpEgressObject, getEgressObjectIf, bind, get.
    by rewrite He.
  - right. erewrite bind_Ok; last first.
    { unfold getEcmpEgressObject, getEgressObjectIf, bind, get.
      rewrite He. reflexivity. }
    rewrite linkStateChanged_paths. eexists. split; [reflexivity |].
    intros id Hid. simpl.
    destruct (decide (id = BcmEcmpHost.ecmpEgressId_ (target b)))
      as [-> | Hid'].
    + by rewrite lookup_alter_eq, Hid.
    + by rewrite lookup_alter_ne.
  - left. apply bind_Fatal.
    unfold getEcmpEgressObject, getEgressObjectIf, bind, get.
    by rewrite He.
Qed.

Lemma link_entries_abort up affected l s x b n :
  x ∈ l → x.2 = (Some b, n) →
  BcmEcmpHost.ecmpEgressId_ (target b) ≠ INVALID →
  egressMap_ s !! BcmEcmpHost.ecmpEgressId_ (target b) = None →
  ∃ s', for_each l (link_entry up affected) s = Fatal s'.
Proof.
  intros Hin Hx Hne. revert s. induction l as [| y l IH]; intros s He.
  { by apply elem_of_nil in Hin. }
  cbn [for_each]. apply elem_of_cons in Hin as [<- | Hin].
  - exists s. apply bind_Fatal. unfold link_entry. rewrite Hx. cbv zeta.
    cbn [fst]. rewrite bool_decide_eq_false_2 by done.
    unfold getEcmpEgressObject, getEgressObjectIf. unfold bind, get.
    by rewrite He.
  - destruct (link_entry_cases up affected y s) as [Hf | (s' & Hok & Hkeep)].
    + exists s. by apply bind_Fatal.
    + erewrite bind_Ok by exact Hok. apply (IH Hin). by apply Hkeep.
Qed.

(** X14.  [linkStateChanged] relies on every group id of the ECMP map
    being in the egress registry: when an egress id is indexed under the
    port and some ECMP host's group id is not the invalid id and is not in
    the registry, the call aborts. *)
Theorem linkStateChanged_unresolved_group_aborts (port : Z) (up : bool)
    (s : BcmSwitch) (key : EcmpKey) (b : boxed BcmEcmpHost.t) (n : nat) :
  getEgressIdsForPort s port ≠ ∅ →
  ecmpHosts_ s !! key = Some (Some b, n) →
  BcmEcmpHost.ecmpEgressId_ (target b) ≠ INVALID →
  egressMap_ s !! BcmEcmpHost.ecmpEgressId_ (target b) = None →
  ∃ s', linkStateChanged port up s = Fatal s'.
Proof.
  intros Haff Hk Hne He. rewrite linkStateChanged_entries.
  rewrite bool_decide_eq_false_2 by done.
  apply (link_entries_abort up _ _ s (key, (Some b, n)) b n); try done.
  by apply elem_of_map_to_list.
Qed.

Lemma relink_override up up' affected e :
  relink up' affected (relink up affected e) = relink up' affected e.
Proof.
  destruct e as [[id a | id paths] n]; [done |].
  unfold relink. simpl. f_equal. f_equal.
  rewrite <- list_fmap_compose. apply list_fmap_ext. intros i [pid r] _.
  simpl. by repeat (case_bool_decide; simpl).
Qed.

Lemma relink_all_override up up' affected ids m :
  relink_all up' affected ids (relink_all up affected ids m)
  = relink_all up' affected ids m.
Proof.
  apply map_eq. intros id. rewrite !relink_all_lookup.
  case_bool_decide; [| done].
  destruct (m !! id) as [e |]; [| done]. simpl. by rewrite relink_override.
Qed.

Lemma groups_resolve_relink_all up affected ids s :
  groups_resolve s →
  groups_resolve (set_egressMap (relink_all up affected ids) s).
Proof.
  intros Hwf key e n Hk. destruct (Hwf key e n Hk) as (b & -> & Hg).
  exists b. split; [done |].
  destruct Hg as [Hg | (id & paths & k & Hg)]; [by left | right].
  simpl. rewrite relink_all_lookup, Hg.
  case_bool_decide; simpl; eauto.
Qed.

Lemma linkStateChanged_run port up s :
  groups_resolve s →
  linkStateChanged port up s
  = Ok tt (if bool_decide (getEgressIdsForPort s port = ∅) then s
           else set_egressMap
                  (relink_all up (getEgressIdsForPort s port)
                     (group_ids (map_to_list (ecmpHosts_ s)))) s).
Proof.
  intros Hwf. unfold linkStateChanged. unfold bind at 1, get.
  case_bool_decide; [done |].
  apply linkStateChanged_hosts.
  intros [key [e n]] Hx. apply elem_of_map_to_list in Hx.
  apply (Hwf key e n Hx).
Qed.

(** X15.  Repeated link notifications for a port, in a table where every
    ECMP host's group id is the id of a group in the registry: the call
    returns, and what a second notification for the same port leaves
    behind does not depend on the first.  So a notification repeated
    changes nothing more, and after "down" then "up" the table is as after
    "up" alone. *)
Theorem linkStateChanged_last_notification_wins (port : Z) (up up' : bool)
    (s : BcmSwitch) :
  groups_resolve s →
  ∃ s1,
    linkStateChanged port up s = Ok tt s1
    ∧ linkStateChanged port up' s1 = linkStateChanged port up' s
    ∧ linkStateChanged port up s1 = Ok tt s1.
Proof.
  intros Hwf.
  assert (Hgen : ∀ v,
            linkStateChanged port v
              (if bool_decide (getEgressIdsForPort s port = ∅) then s
               else set_egressMap
                      (relink_all up (getEgressIdsForPort s port)
                         (group_ids (map_to_list (ecmpHosts_ s)))) s)
            = linkStateChanged port v s).
  { intros v. case_bool_decide as Haff; [done |].
    rewrite !linkStateChanged_run
      by first [done | by apply groups_resolve_relink_all].
    f_equal.
    change (getEgressIdsForPort (set_egressMap _ s) port)
      with (getEgressIdsForPort s port).
    rewrite bool_decide_eq_false_2 by done.
    cbn [ecmpHosts_ set_egressMap].
    unfold set_egressMap. simpl. f_equal. apply relink_all_override. }
  eexists. split; [by apply linkStateChanged_run |].
  split; [apply Hgen |].
  rewrite Hgen. by apply linkStateChanged_run.
Qed.

(** ** Reference counts stay positive *)

(** No entry of the host map, of the ECMP map or of the egress registry
    has count zero. *)
Definition counts_all_positive (s : BcmSwitch) : Prop :=
  map_Forall (λ _ e, (0 < e.2)%nat) (hosts_ s)
  ∧ map_Forall (λ _ e, (0 < e.2)%nat) (ecmpHosts_ s)
  ∧ map_Forall (λ _ e, (0 < e.2)%nat) (egressMap_ s).

(** A property of the switch that holds afterwards if it held before. *)
Definition keeps (P : BcmSwitch → Prop) : relation BcmSwitch :=
  λ s s', P s → P s'.

#[local] Instance keeps_preorder P : PreOrder (keeps P).
Proof.
  split.
  - intros s Hs. exact Hs.
  - intros x y z Hxy Hyz Hx. by apply Hyz, Hxy.
Qed.

Lemma map_Forall_alter_count `{Countable K} {A}
    (f : A * nat → A * nat) (i : K) (m : gmap K (A * nat)) :
  (∀ e, (f e).2 = e.2) →
  map_Forall (λ _ e, (0 < e.2)%nat) m →
  map_Forall (λ _ e, (0 < e.2)%nat) (alter f i m).
Proof.
  intros Hf Hm k e. destruct (decide (k = i)) as [-> | Hne].
  - rewrite lookup_alter_eq. destruct (m !! i) as [e0 |] eqn:Hi; [| done].
    intros [= <-]. rewrite Hf. by apply (Hm i).
  - rewrite lookup_alter_ne by done. apply Hm.
Qed.

Ltac counts_step :=
  first
    [ apply preserves_ret | apply preserves_throw | apply preserves_fatal
    | apply preserves_get | apply preserves_CHECK
    | apply preserves_locals | apply preserves_set_locals
    | apply preserves_bind; [.. | intros ?]
    | apply preserves_noexcept
    | apply preserves_SCOPE_FAIL
    | apply preserves_for_each; [.. | intros ?]
    | apply preserves_lift
    | apply preserves_with_locals
    | lazymatch goal with
      | |- preserves _ (match ?x with _ => _ end) => destruct x eqn:?
      | |- preserves _ (let _ := _ in _) => cbv zeta
      end ];
  lazymatch goal with
  | |- PreOrder _ => apply _
  | _ => idtac
  end.

Ltac counts_modify :=
  apply preserves_modify; intros ? (? & ? & ?);
  repeat match goal with
         | H : (_ =? _)%nat = false |- _ => apply Nat.eqb_neq in H
         end;
  split_and!; simpl; try assumption;
  first [ apply map_Forall_insert_2; [simpl; lia | assumption]
        | apply map_Forall_delete; assumption
        | apply map_Forall_alter_count; [by intros [] | assumption] ].

Create HintDb counts discriminated.

Ltac solve_keeps :=
  repeat first
    [solve [eauto 2 with counts nocore] | counts_step | counts_modify].

Lemma sdk_call_counts c : preserves (keeps counts_all_positive) (sdk_call c).
Proof. unfold sdk_call, log. solve_keeps. Qed.

Lemma incEgressReference_counts id :
  preserves (keeps counts_all_positive) (incEgressReference id).
Proof. unfold incEgressReference. solve_keeps. Qed.

Lemma derefEgress_counts id :
  preserves (keeps counts_all_positive) (derefEgress id).
Proof. unfold derefEgress, log. solve_keeps. Qed.

Lemma insertBcmEgress_counts e :
  preserves (keeps counts_all_positive) (insertBcmEgress e).
Proof. unfold insertBcmEgress. solve_keeps. Qed.

Lemma this_host_counts key :
  preserves (keeps counts_all_positive) (this_host key).
Proof. unfold this_host. solve_keeps. Qed.

Lemma update_host_counts key f :
  preserves (keeps counts_all_positive) (update_host key f).
Proof. unfold update_host. solve_keeps. Qed.

Lemma getBcmIfId_counts intf :
  preserves (keeps counts_all_positive) (getBcmIfId intf).
Proof. unfold getBcmIfId. solve_keeps. Qed.

Lemma updatePortEgressMapping_counts id oldPort newPort :
  preserves (keeps counts_all_positive)
            (updatePortEgressMapping id oldPort newPort).
Proof. unfold updatePortEgressMapping. solve_keeps. Qed.

#[local] Hint Resolve sdk_call_counts incEgressReference_counts
  derefEgress_counts insertBcmEgress_counts this_host_counts
  update_host_counts getBcmIfId_counts updatePortEgressMapping_counts
  : counts.

Lemma BcmEgress_program_common_counts id vrf addr a :
  preserves (keeps counts_all_positive)
            (BcmEgress_program_common id vrf addr a).
Proof. unfold BcmEgress_program_common, bcmCheckError. solve_keeps. Qed.

Lemma BcmEcmpEgress_program_counts paths :
  preserves (keeps counts_all_positive) (BcmEcmpEgress_program paths).
Proof. unfold BcmEcmpEgress_program, bcmCheckError. solve_keeps. Qed.

Lemma BcmHost_ctor_counts vrf addr egressId :
  preserves (keeps counts_all_positive) (BcmHost_ctor vrf addr egressId).
Proof. unfold BcmHost_ctor. solve_keeps. Qed.

Lemma BcmHost_dtor_counts h :
  preserves (keeps counts_all_positive) (BcmHost_dtor h).
Proof. unfold BcmHost_dtor, bcmLogFatal. solve_keeps. Qed.

Lemma BcmHost_addBcmHost_counts key isMultipath :
  preserves (keeps counts_all_positive) (BcmHost_addBcmHost key isMultipath).
Proof.
  unfold BcmHost_addBcmHost, programmed, bcmCheckError, log. solve_keeps.
Qed.

#[local] Hint Resolve BcmEgress_program_common_counts
  BcmEcmpEgress_program_counts BcmHost_ctor_counts BcmHost_dtor_counts
  BcmHost_addBcmHost_counts : counts.

Lemma BcmHost_program_counts key intf mac port action :
  preserves (keeps counts_all_positive)
            (BcmHost_program key intf mac port action).
Proof.
  unfold BcmHost_program, BcmEgress_program, BcmEgress_programToDrop,
    BcmEgress_programToCPU.
  solve_keeps.
Qed.

#[local] Hint Resolve BcmHost_program_counts : counts.

Lemma incRefOrCreateBcmHost_egress_counts vrf addr egressId :
  preserves (keeps counts_all_positive)
            (incRefOrCreateBcmHost_egress vrf addr egressId).
Proof.
  unfold incRefOrCreateBcmHost_egress, incRefOrCreateBcmHost_, make_unique.
  solve_keeps.
Qed.

Lemma incRefOrCreateBcmHost_counts vrf addr :
  preserves (keeps counts_all_positive) (incRefOrCreateBcmHost vrf addr).
Proof.
  unfold incRefOrCreateBcmHost, incRefOrCreateBcmHost_, make_unique.
  solve_keeps.
Qed.

Lemma derefBcmHost_counts vrf addr :
  preserves (keeps counts_all_positive) (derefBcmHost vrf addr).
Proof. unfold derefBcmHost, derefBcmHost_, log. solve_keeps. Qed.

#[local] Hint Resolve incRefOrCreateBcmHost_egress_counts
  incRefOrCreateBcmHost_counts derefBcmHost_counts : counts.

Lemma BcmEcmpHost_ctor_counts vrf fwd :
  preserves (keeps counts_all_positive) (BcmEcmpHost_ctor vrf fwd).
Proof.
  unfold BcmEcmpHost_ctor, BcmEcmpHost_ctor_guard, BcmEcmpHost_ctor_path,
    BcmHost_programToCPU.
  solve_keeps.
Qed.

Lemma BcmEcmpHost_dtor_counts h :
  preserves (keeps counts_all_positive) (BcmEcmpHost_dtor h).
Proof. unfold BcmEcmpHost_dtor. solve_keeps. Qed.

#[local] Hint Resolve BcmEcmpHost_ctor_counts BcmEcmpHost_dtor_counts : counts.

Lemma incRefOrCreateBcmEcmpHost_counts vrf fwd :
  preserves (keeps counts_all_positive) (incRefOrCreateBcmEcmpHost vrf fwd).
Proof.
  unfold incRefOrCreateBcmEcmpHost, incRefOrCreateBcmHost_, make_unique.
  solve_keeps.
Qed.

Lemma derefBcmEcmpHost_counts vrf fwd :
  preserves (keeps counts_all_positive) (derefBcmEcmpHost vrf fwd).
Proof. unfold derefBcmEcmpHost, derefBcmHost_, log. solve_keeps. Qed.

Lemma linkStateChanged_counts port up :
  preserves (keeps counts_all_positive) (linkStateChanged port up).
Proof.
  unfold linkStateChanged, getEcmpEgressObject. solve_keeps.
Qed.

(** X16.  The operations of the host table keep every reference count
    positive.  In a table where no entry of the host map, of the ECMP map
    or of the egress registry has count zero, none has count zero after
    any of the calls below, however the call ends (so the checks
    [CHECK_GT(count, 0)] of the release functions hold whenever the table
    is driven through these calls alone). *)
Theorem reference_counts_stay_positive (s : BcmSwitch) :
  counts_all_positive s →
  (∀ vrf addr,
     counts_all_positive (final (incRefOrCreateBcmHost vrf addr s)))
  ∧ (∀ vrf addr egressId,
       counts_all_positive
         (final (incRefOrCreateBcmHost_egress vrf addr egressId s)))
  ∧ (∀ vrf fwd,
       counts_all_positive (final (incRefOrCreateBcmEcmpHost vrf fwd s)))
  ∧ (∀ vrf addr, counts_all_positive (final (derefBcmHost vrf addr s)))
  ∧ (∀ vrf fwd, counts_all_positive (final (derefBcmEcmpHost vrf fwd s)))
  ∧ (∀ id, counts_all_positive (final (incEgressReference id s)))
  ∧ (∀ id, counts_all_positive (final (derefEgress id s)))
  ∧ (∀ egress, counts_all_positive (final (insertBcmEgress egress s)))
  ∧ (∀ key intf mac port action,
       counts_all_positive
         (final (BcmHost_program key intf mac port action s)))
  ∧ (∀ id oldPort newPort,
       counts_all_positive
         (final (updatePortEgressMapping id oldPort newPort s)))
  ∧ (∀ port up, counts_all_positive (final (linkStateChanged port up s))).
Proof.
  intros Hs. split_and!; intros.
  - by apply incRefOrCreateBcmHost_counts.
  - by apply incRefOrCreateBcmHost_egress_counts.
  - by apply incRefOrCreateBcmEcmpHost_counts.
  - by apply derefBcmHost_counts.
  - by apply derefBcmEcmpHost_counts.
  - by apply incEgressReference_counts.
  - by apply derefEgress_counts.
  - by apply insertBcmEgress_counts.
  - by apply BcmHost_program_counts.
  - by apply updatePortEgressMapping_counts.
  - by apply linkStateChanged_counts.
Qed.

(** ** What the operations leave alone *)

Lemma linkStateChanged_same {T} (f : BcmSwitch → T) port up :
  (∀ g s, f (set_egressMap g s) = f s) →
  preserves (same f) (linkStateChanged port up).
Proof.
  intros Hf. unfold linkStateChanged, getEcmpEgressObject.
  repeat first [preserves_step | apply preserves_modify; intros ?; apply Hf].
Qed.

Lemma linkStateChanged_ids port up :
  preserves (same (λ s, dom (egressMap_ s))) (linkStateChanged port up).
Proof.
  unfold linkStateChanged, getEcmpEgressObject.
  repeat first
    [ preserves_step
    | apply preserves_modify; intros ?; unfold same; simpl;
      apply dom_alter_L ].
Qed.

Lemma egress_call_same {T} (f : BcmSwitch → T) :
  (∀ g s, f (set_egressMap g s) = f s) →
  (∀ g s, f (set_trace g s) = f s) →
  (∀ id, preserves (same f) (incEgressReference id))
  ∧ (∀ id, preserves (same f) (derefEgress id))
  ∧ (∀ e, preserves (same f) (insertBcmEgress e)).
Proof.
  intros He Ht. split_and!; intros x;
    unfold incEgressReference, derefEgress, insertBcmEgress, log;
    repeat first
      [ preserves_step
      | apply preserves_modify; intros ?; first [apply He | apply Ht] ].
Qed.

(** X17.  What the operations never touch, however they end (return,
    exception or abort).  [program] changes neither the keys of the host
    map nor their reference counts, nor the ECMP map.  Acquiring and
    releasing a host entry never touches the ECMP map.  The three
    operations of the egress registry touch neither the host map, the
    ECMP map nor the port index.  [linkStateChanged] touches neither the
    host map, the ECMP map nor the port index, and neither adds an id to
    the egress registry nor removes one. *)
Theorem operations_leave_the_other_maps_alone (s : BcmSwitch) :
  (∀ key intf mac port action,
     refcounts (final (BcmHost_program key intf mac port action s))
     = refcounts s
     ∧ ecmpHosts_ (final (BcmHost_program key intf mac port action s))
       = ecmpHosts_ s)
  ∧ (∀ vrf addr,
       ecmpHosts_ (final (incRefOrCreateBcmHost vrf addr s)) = ecmpHosts_ s
       ∧ ecmpHosts_ (final (derefBcmHost vrf addr s)) = ecmpHosts_ s)
  ∧ (∀ id,
       hosts_ (final (incEgressReference id s)) = hosts_ s
       ∧ ecmpHosts_ (final (incEgressReference id s)) = ecmpHosts_ s
       ∧ port2EgressIds_ (final (incEgressReference id s))
         = port2EgressIds_ s)
  ∧ (∀ id,
       hosts_ (final (derefEgress id s)) = hosts_ s
       ∧ ecmpHosts_ (final (derefEgress id s)) = ecmpHosts_ s
       ∧ port2EgressIds_ (final (derefEgress id s)) = port2EgressIds_ s)
  ∧ (∀ egress,
       hosts_ (final (insertBcmEgress egress s)) = hosts_ s
       ∧ ecmpHosts_ (final (insertBcmEgress egress s)) = ecmpHosts_ s
       ∧ port2EgressIds_ (final (insertBcmEgress egress s))
         = port2EgressIds_ s)
  ∧ (∀ port up,
       hosts_ (final (linkStateChanged port up s)) = hosts_ s
       ∧ ecmpHosts_ (final (linkStateChanged port up s)) = ecmpHosts_ s
       ∧ port2EgressIds_ (final (linkStateChanged port up s))
         = port2EgressIds_ s
       ∧ dom (egressMap_ (final (linkStateChanged port up s)))
         = dom (egressMap_ s)).
Proof.
  split_and!.
  - intros key intf mac port action. split.
    + apply BcmHost_program_refcounts.
    + apply BcmHost_program_ecmpHosts.
  - intros vrf addr. split.
    + apply incRefOrCreateBcmHost_ecmpHosts.
    + apply derefBcmHost_ecmpHosts.
  - intros id.
    destruct (egress_call_same hosts_) as (H1 & _); [done | done |].
    destruct (egress_call_same ecmpHosts_) as (H2 & _); [done | done |].
    destruct (egress_call_same port2EgressIds_) as (H3 & _); [done | done |].
    split_and!; [apply H1 | apply H2 | apply H3].
  - intros id.
    destruct (egress_call_same hosts_) as (_ & H1 & _); [done | done |].
    destruct (egress_call_same ecmpHosts_) as (_ & H2 & _); [done | done |].
    destruct (egress_call_same port2EgressIds_) as (_ & H3 & _);
      [done | done |].
    split_and!; [apply H1 | apply H2 | apply H3].
  - intros egress.
    destruct (egress_call_same hosts_) as (_ & _ & H1); [done | done |].
    destruct (egress_call_same ecmpHosts_) as (_ & _ & H2); [done | done |].
    destruct (egress_call_same port2EgressIds_) as (_ & _ & H3);
      [done | done |].
    split_and!; [apply H1 | apply H2 | apply H3].
  - intros port up. split_and!.
    + by apply linkStateChanged_same.
    + by apply linkStateChanged_same.
    + by apply linkStateChanged_same.
    + apply linkStateChanged_ids.
Qed.

(** ** State export *)

Lemma BcmHost_toFollyDynamic_run (s : BcmSwitch) (h : BcmHost.t) :
  BcmHost_toFollyDynamic s h
  = let base :=
      <[kEgressId := dInt (BcmHost.egressId_ h)]>
        (<[kPort := dInt (BcmHost.port_ h)]>
           (<[kIp := dString (IPAddress_str exporter (BcmHost.addr_ h))]>
              (<[kVrf := dInt (BcmHost.vrf_ h)]> ∅))) in
    if bool_decide (BcmHost.egressId_ h = INVALID
                    ∨ BcmHost.egressId_ h = getDropEgressId exporter)
    then Some (dObject base)
    else match egressMap_ s !! BcmHost.egressId_ h with
         | Some e =>
             Some (dObject
                     (<[kEgress := BcmEgressBase_toFollyDynamic exporter e.1]>
                        base))
         | None => None
         end.
Proof.
  unfold BcmHost_toFollyDynamic, getEgressObjectIf. cbv zeta.
  repeat case_bool_decide; simpl; try tauto;
    try (destruct (egressMap_ s !! BcmHost.egressId_ h); reflexivity).
Qed.

Lemma BcmEcmpHost_toFollyDynamic_run (s : BcmSwitch) (h : BcmEcmpHost.t) :
  BcmEcmpHost_toFollyDynamic s h
  = let base :=
      <[kEcmpEgressId := dInt (BcmEcmpHost.ecmpEgressId_ h)]>
        (<[kEgressId := dInt (BcmEcmpHost.egressId_ h)]>
           (<[kNextHops :=
                dArray (RouteForwardInfo_toFollyDynamic exporter
                          <$> BcmEcmpHost.fwd_ h)]>
              (<[kVrf := dInt (BcmEcmpHost.vrf_ h)]> ∅))) in
    if bool_decide (BcmEcmpHost.ecmpEgressId_ h = INVALID)
    then Some (dObject base)
    else match egressMap_ s !! BcmEcmpHost.ecmpEgressId_ h with
         | Some e =>
             Some (dObject
                     (<[kEcmpEgress :=
                          BcmEgressBase_toFollyDynamic exporter e.1]>
                        base))
         | None => None
         end.
Proof.
  unfold BcmEcmpHost_toFollyDynamic, getEgressObjectIf. cbv zeta.
  repeat case_bool_decide; simpl; try tauto;
    try (destruct (egressMap_ s !! BcmEcmpHost.ecmpEgressId_ h);
         reflexivity).
Qed.

Ltac read_key :=
  unfold kVrf, kIp, kPort, kNextHops, kEgress, kEcmpEgress, kEgressId,
    kEcmpEgressId, kHosts, kEcmpHosts;
  repeat (rewrite lookup_insert_ne by discriminate);
  first [apply lookup_insert_eq | apply lookup_empty].

(** X18.  What the export of one host and of one ECMP host holds.  When
    the export gives a value, it is an object in which every field written
    reads back as written (no key overwrites another): the VRF, the address
    as a string, the port and the egress id of a host; the VRF, the array
    of the next hops in their order, the egress id and the id of the group
    of an ECMP host.  The key "egress" is set, to the export of the
    registered egress object, exactly when the host's egress id is neither
    INVALID nor the id of the drop egress object; the key "ecmpEgress"
    exactly when the group's id is not INVALID.  The export gives no value
    only when such an id is not in the egress registry (the null pointer
    that the lookup returned is then dereferenced). *)
Theorem toFollyDynamic_fields (s : BcmSwitch) :
  (∀ h : BcmHost.t,
     let id := BcmHost.egressId_ h in
     match BcmHost_toFollyDynamic s h with
     | Some (dObject fields) =>
         fields !! kVrf = Some (dInt (BcmHost.vrf_ h))
         ∧ fields !! kIp
           = Some (dString (IPAddress_str exporter (BcmHost.addr_ h)))
         ∧ fields !! kPort = Some (dInt (BcmHost.port_ h))
         ∧ fields !! kEgressId = Some (dInt id)
         ∧ fields !! kEgress
           = (if bool_decide (id = INVALID ∨ id = getDropEgressId exporter)
              then None
              else BcmEgressBase_toFollyDynamic exporter
                     <$> getEgressObjectIf s id)
         ∧ (id = INVALID ∨ id = getDropEgressId exporter
            ∨ is_Some (getEgressObjectIf s id))
         ∧ dom fields ⊆ {[kVrf; kIp; kPort; kEgressId; kEgress]}
     | Some _ => False
     | None =>
         id ≠ INVALID ∧ id ≠ getDropEgressId exporter
         ∧ getEgressObjectIf s id = None
     end)
  ∧ (∀ h : BcmEcmpHost.t,
       let id := BcmEcmpHost.ecmpEgressId_ h in
       match BcmEcmpHost_toFollyDynamic s h with
       | Some (dObject fields) =>
           fields !! kVrf = Some (dInt (BcmEcmpHost.vrf_ h))
           ∧ fields !! kNextHops
             = Some (dArray (RouteForwardInfo_toFollyDynamic exporter
                               <$> BcmEcmpHost.fwd_ h))
           ∧ fields !! kEgressId = Some (dInt (BcmEcmpHost.egressId_ h))
           ∧ fields !! kEcmpEgressId = Some (dInt id)
           ∧ fields !! kEcmpEgress
             = (if bool_decide (id = INVALID) then None
                else BcmEgressBase_toFollyDynamic exporter
                       <$> getEgressObjectIf s id)
           ∧ (id = INVALID ∨ is_Some (getEgressObjectIf s id))
           ∧ dom fields
             ⊆ {[kVrf; kNextHops; kEgressId; kEcmpEgressId; kEcmpEgress]}
       | Some _ => False
       | None => id ≠ INVALID ∧ getEgressObjectIf s id = None
       end).
Proof.
  split.
  - intros h id. rewrite BcmHost_toFollyDynamic_run. cbv zeta.
    unfold getEgressObjectIf. fold id.
    case_bool_decide as Hid.
    + split_and!; try read_key.
      * tauto.
      * rewrite !dom_insert_L. set_solver.
    + destruct (egressMap_ s !! id) as [e |] eqn:He; simpl.
      * split_and!; try read_key.
        -- right. right. by eexists.
        -- rewrite !dom_insert_L. set_solver.
      * split_and!; [tauto | tauto | congruence].
  - intros h id. rewrite BcmEcmpHost_toFollyDynamic_run. cbv zeta.
    unfold getEgressObjectIf. fold id.
    case_bool_decide as Hid.
    + split_and!; try read_key.
      * tauto.
      * rewrite !dom_insert_L. set_solver.
    + destruct (egressMap_ s !! id) as [e |] eqn:He; simpl.
      * split_and!; try read_key.
        -- right. by eexists.
        -- rewrite !dom_insert_L. set_solver.
      * split_and!; [tauto | done].
Qed.

(** An entry of the host map can be exported when it holds a host whose
    egress id needs no egress object (INVALID, or the drop object's) or is
    in the egress registry; an entry of the ECMP map when it holds an ECMP
    host whose group id is INVALID or in the registry. *)
Definition host_exportable (s : BcmSwitch)
    (e : option (boxed BcmHost.t) * nat) : Prop :=
  ∃ b, e.1 = Some b
       ∧ (BcmHost.egressId_ (target b) = INVALID
          ∨ BcmHost.egressId_ (target b) = getDropEgressId exporter
          ∨ is_Some (egressMap_ s !! BcmHost.egressId_ (target b))).

Definition ecmp_exportable (s : BcmSwitch)
    (e : option (boxed BcmEcmpHost.t) * nat) : Prop :=
  ∃ b, e.1 = Some b
       ∧ (BcmEcmpHost.ecmpEgressId_ (target b) = INVALID
          ∨ is_Some (egressMap_ s !! BcmEcmpHost.ecmpEgressId_ (target b))).

Definition exportable (s : BcmSwitch) : Prop :=
  map_Forall (λ _, host_exportable s) (hosts_ s)
  ∧ map_Forall (λ _, ecmp_exportable s) (ecmpHosts_ s).

Lemma host_export_is_Some (s : BcmSwitch)
    (e : option (boxed BcmHost.t) * nat) :
  is_Some (e.1 ≫= λ host, BcmHost_toFollyDynamic s (target host))
  ↔ host_exportable s e.
Proof.
  unfold host_exportable. destruct e as [[b |] n]; simpl.
  - rewrite BcmHost_toFollyDynamic_run. cbv zeta.
    case_bool_decide as Hid.
    + split; [| by eexists]. intros _. exists b. split; [done | tauto].
    + destruct (egressMap_ s !! BcmHost.egressId_ (target b)) eqn:He.
      * split; [| by eexists]. intros _. exists b.
        split; [done |]. right. right. by eexists.
      * split; [by intros [? ?] |].
        intros (b' & [= <-] & [? | [? | [? ?]]]); [tauto | tauto | congruence].
  - split; [by intros [? ?] | by intros (? & ? & _)].
Qed.

Lemma ecmp_export_is_Some (s : BcmSwitch)
    (e : option (boxed BcmEcmpHost.t) * nat) :
  is_Some (e.1 ≫= λ host, BcmEcmpHost_toFollyDynamic s (target host))
  ↔ ecmp_exportable s e.
Proof.
  unfold ecmp_exportable. destruct e as [[b |] n]; simpl.
  - rewrite BcmEcmpHost_toFollyDynamic_run. cbv zeta.
    case_bool_decide as Hid.
    + split; [| by eexists]. intros _. exists b. split; [done | tauto].
    + destruct (egressMap_ s !! BcmEcmpHost.ecmpEgressId_ (target b)) eqn:He.
      * split; [| by eexists]. intros _. exists b.
        split; [done |]. right. by eexists.
      * split; [by intros [? ?] |].
        intros (b' & [= <-] & [? | [? ?]]); [tauto | congruence].
  - split; [by intros [? ?] | by intros (? & ? & _)].
Qed.

Lemma mapM_elem_of {A B} (f : A → option B) (l : list A) (k : list B) :
  mapM f l = Some k →
  length k = length l ∧ ∀ y, y ∈ k ↔ ∃ x, x ∈ l ∧ f x = Some y.
Proof.
  rewrite mapM_Some. induction 1 as [| x y l k Hxy _ [IHlen IH]].
  - split; [done |]. intros y. split.
    + by intros ?%elem_of_nil.
    + by intros (? & ?%elem_of_nil & _).
  - split; [simpl; by rewrite IHlen |]. intros y'. rewrite elem_of_cons, IH.
    split.
    + intros [-> | (x' & Hx' & Hf)].
      * exists x. split; [apply elem_of_cons; by left | done].
      * exists x'. split; [apply elem_of_cons; by right | done].
    + intros (x' & [-> | Hx']%elem_of_cons & Hf).
      * left. congruence.
      * right. by exists x'.
Qed.

Lemma mapM_over_map `{Countable K} {V B} (f : V → option B)
    (m : gmap K V) :
  match mapM (λ kv : K * V, f kv.2) (map_to_list m) with
  | Some k =>
      map_Forall (λ _ v, is_Some (f v)) m
      ∧ length k = size m
      ∧ ∀ y, y ∈ k ↔ ∃ key v, m !! key = Some v ∧ f v = Some y
  | None => ¬ map_Forall (λ _ v, is_Some (f v)) m
  end.
Proof.
  destruct (mapM _ _) as [k |] eqn:Hk.
  - assert (Hall : is_Some (mapM (λ kv : K * V, f kv.2) (map_to_list m)))
      by by eexists.
    apply mapM_is_Some in Hall.
    apply mapM_elem_of in Hk as [Hlen Hmem]. split_and!.
    + apply map_Forall_to_list. eapply Forall_impl; [exact Hall |].
      by intros [? ?].
    + by rewrite Hlen, length_map_to_list.
    + intros y. rewrite Hmem. split.
      * intros ([key v] & Hin%elem_of_map_to_list & Hf). by exists key, v.
      * intros (key & v & Hin & Hf). exists (key, v).
        split; [by apply elem_of_map_to_list | done].
  - intros Hall. apply map_Forall_to_list in Hall.
    assert (His : is_Some (mapM (λ kv : K * V, f kv.2) (map_to_list m))).
    { apply mapM_is_Some. eapply Forall_impl; [exact Hall |].
      by intros [? ?]. }
    rewrite Hk in His. by destruct His.
Qed.

(** X19.  The export of the whole table.  It gives a value exactly when
    every entry of the two maps can be exported: the entry holds an object
    (not a null pointer), and an egress id that the export follows is in
    the egress registry.  The value is then an object with the two keys
    "host" and "ecmpHosts" and no other; each is an array with one element
    per entry of its map (its length is the size of the map, whatever the
    reference counts), and the elements are exactly the exports of the
    hosts the map holds. *)
Theorem BcmHostTable_toFollyDynamic_exports (s : BcmSwitch) :
  match BcmHostTable_toFollyDynamic s with
  | Some (dObject fields) =>
      exportable s
      ∧ dom fields = {[kHosts; kEcmpHosts]}
      ∧ ∃ hostsJson ecmpHostsJson,
          fields !! kHosts = Some (dArray hostsJson)
          ∧ fields !! kEcmpHosts = Some (dArray ecmpHostsJson)
          ∧ length hostsJson = size (hosts_ s)
          ∧ length ecmpHostsJson = size (ecmpHosts_ s)
          ∧ (∀ d, d ∈ hostsJson
                  ↔ ∃ key host n,
                      hosts_ s !! key = Some (Some host, n)
                      ∧ BcmHost_toFollyDynamic s (target host) = Some d)
          ∧ (∀ d, d ∈ ecmpHostsJson
                  ↔ ∃ key host n,
                      ecmpHosts_ s !! key = Some (Some host, n)
                      ∧ BcmEcmpHost_toFollyDynamic s (target host) = Some d)
  | Some _ => False
  | None => ¬ exportable s
  end.
Proof.
  unfold BcmHostTable_toFollyDynamic, exportable.
  pose proof (mapM_over_map
                (λ e : option (boxed BcmHost.t) * nat,
                   e.1 ≫= λ host, BcmHost_toFollyDynamic s (target host))
                (hosts_ s)) as Hh.
  pose proof (mapM_over_map
                (λ e : option (boxed BcmEcmpHost.t) * nat,
                   e.1 ≫= λ host, BcmEcmpHost_toFollyDynamic s (target host))
                (ecmpHosts_ s)) as He.
  cbv beta in Hh, He.
  destruct (mapM _ (map_to_list (hosts_ s))) as [hs |]; simpl.
  - destruct (mapM _ (map_to_list (ecmpHosts_ s))) as [es |]; simpl.
    + destruct Hh as (Hh1 & Hh2 & Hh3). destruct He as (He1 & He2 & He3).
      split_and!.
      * eapply map_Forall_impl; [exact Hh1 |].
        intros ? ?. apply host_export_is_Some.
      * eapply map_Forall_impl; [exact He1 |].
        intros ? ?. apply ecmp_export_is_Some.
      * rewrite !dom_insert_L. set_solver.
      * exists hs, es. split_and!; try read_key; try done.
        -- intros d. rewrite Hh3. split.
           ++ intros (key & [[host |] n] & Hk & Hd); [| done].
              by exists key, host, n.
           ++ intros (key & host & n & Hk & Hd). by exists key, (Some host, n).
        -- intros d. rewrite He3. split.
           ++ intros (key & [[host |] n] & Hk & Hd); [| done].
              by exists key, host, n.
           ++ intros (key & host & n & Hk & Hd). by exists key, (Some host, n).
    + intros [_ Hall]. apply He. eapply map_Forall_impl; [exact Hall |].
      intros ? ?. apply ecmp_export_is_Some.
  - intros [Hall _]. apply Hh. eapply map_Forall_impl; [exact Hall |].
    intros ? ?. apply host_export_is_Some.
Qed.

End BcmHostCpp.

(** ** Concrete runs *)

(** A platform on which every SDK call succeeds and the hardware numbers
    the objects it creates by the length of the history. *)
Definition sdk_ok (t : list Event) (c : SdkCall) : SdkReply :=
  Reply 0 (100 + Z.of_nat (length t)).

Definition wedge : Platform :=
  {| BcmEgressBase_INVALID := -1;
     L3_IP6 := 131072;
     L3_MULTIPATH := 16384;
     sdk_reply := sdk_ok |}.

(** The same platform, except that the creation of an ECMP group fails. *)
Definition wedge_no_ecmp : Platform :=
  {| BcmEgressBase_INVALID := -1;
     L3_IP6 := 131072;
     L3_MULTIPATH := 16384;
     sdk_reply := λ t c,
       match c with
       | opennsl_l3_egress_ecmp_create _ => Reply (-1) 0
       | _ => sdk_ok t c
       end |}.

(** The same platform, except that the hardware L3-host add fails. *)
Definition wedge_no_host_add : Platform :=
  {| BcmEgressBase_INVALID := -1;
     L3_IP6 := 131072;
     L3_MULTIPATH := 16384;
     sdk_reply := λ t c,
       match c with
       | opennsl_l3_host_add _ => Reply (-1) 0
       | _ => sdk_ok t c
       end |}.

(** An empty table on a switch with two interfaces. *)
Definition switch0 : BcmSwitch :=
  Switch ∅ ∅ ∅ ∅ {[ 1 := 11; 2 := 12 ]} ∅ [] 0.

Definition hostA : IPAddress := IPAddressV4 167772161.
Definition hostB : IPAddress := IPAddressV4 167772162.
Definition twoPaths : RouteForwardNexthops :=
  [NextHop 1 hostA; NextHop 2 hostB].

(** The state a computation ends in, started on [switch0]. *)
Definition after {A} (c : M BcmSwitch A) : BcmSwitch := final (c switch0).

(** On the empty table: the egress release aborts, the two host releases
    return null. *)
Lemma deref_absent_witness :
  derefEgress 100 switch0 = Fatal switch0
  ∧ derefBcmHost wedge 0 hostA switch0 = Ok None switch0
  ∧ derefBcmEcmpHost wedge 0 twoPaths switch0 = Ok None switch0.
Proof.
  apply (deref_absent wedge switch0 100 0 hostA twoPaths); reflexivity.
Defined.

(** Against C4 as stated: releasing a host key that the table does not hold
    returns normally, with a null pointer, and changes nothing. *)
Lemma derefBcmHost_absent_returns :
  hosts_ switch0 !! (0, hostA) = None
  ∧ derefBcmHost wedge 0 hostA switch0 = Ok None switch0
  ∧ ecmpHosts_ switch0 !! (0, twoPaths) = None
  ∧ derefBcmEcmpHost wedge 0 twoPaths switch0 = Ok None switch0.
Proof. repeat split. Qed.

(** *** Warm boot *)

(** A host that is not yet added, with its egress object, and what the
    warm boot cache discovered for its key: the same entry with stray bits
    in the flags ([discovered]), or one through another egress object
    ([changed]). *)
Definition discovered : opennsl_l3_host_t := L3Host 3 0 100 167772161 0.
Definition changed : opennsl_l3_host_t := L3Host 0 0 999 167772161 0.

Definition switch_with_cache (found : opennsl_l3_host_t) : BcmSwitch :=
  Switch {[ (0, hostA) :=
              (Some (Box 0%N (BcmHost.Make 0 hostA 100 0 false)), 1%nat) ]}
         ∅ {[ 100 := (BcmEgress 100 (ToCPU 11), 1%nat) ]} ∅
         {[ 1 := 11; 2 := 12 ]} {[ (0, hostA) := found ]} [] 1.

(** The discovered entry is acknowledged once and nothing is written to
    the hardware; the changed one aborts the process. *)
Lemma addBcmHost_warm_boot_witness :
  (∃ s', BcmHost_addBcmHost wedge (0, hostA) false
           (switch_with_cache discovered) = Ok tt s'
       ∧ trace s' = [WarmBootProgrammed 0 hostA]
       ∧ hosts_ s' !! (0, hostA)
         = Some (Some (Box 0%N (BcmHost.Make 0 hostA 100 0 true)), 1%nat)
       ∧ BcmHost_addBcmHost wedge (0, hostA) false s' = Ok tt s')
  ∧ BcmHost_addBcmHost wedge (0, hostA) false (switch_with_cache changed)
    = Fatal (switch_with_cache changed).
Proof.
  split.
  - exact (addBcmHost_warm_boot wedge (0, hostA) false
             (switch_with_cache discovered) _ _ _ eq_refl eq_refl eq_refl).
  - exact (addBcmHost_warm_boot wedge (0, hostA) false
             (switch_with_cache changed) _ _ _ eq_refl eq_refl eq_refl).
Defined.

(** *** A host over a referenced egress object *)

Definition switch_with_egress : BcmSwitch :=
  Switch ∅ ∅ {[ 100 := (BcmEgress 100 (ToCPU 11), 1%nat) ]} ∅
         {[ 1 := 11; 2 := 12 ]} ∅ [] 0.

(** A host over egress object 100, constructed and destroyed without ever
    being added: the count of the object goes from 1 to 2 and stays. *)
Lemma BcmHost_not_added_keeps_egress_reference_witness :
  ∃ s1 s2,
    incRefOrCreateBcmHost_egress wedge 0 hostA 100 switch_with_egress
      = Ok (Some 0%N) s1
    ∧ derefBcmHost wedge 0 hostA s1 = Ok None s2
    ∧ hosts_ s2 !! (0, hostA) = None
    ∧ egressMap_ switch_with_egress !! 100
      = Some (BcmEgress 100 (ToCPU 11), 1%nat)
    ∧ egressMap_ s2 !! 100 = Some (BcmEgress 100 (ToCPU 11), 2%nat).
Proof.
  destruct (BcmHost_not_added_keeps_egress_reference wedge 0 hostA 100
              switch_with_egress (BcmEgress 100 (ToCPU 11)) 1
              ltac:(discriminate) eq_refl eq_refl)
    as [(s1 & Hctor & _ & _ & s2 & Hdtor & Hgone & Hcount) _].
  exists s1, s2. repeat split; assumption.
Defined.

(** *** An ECMP host over two next hops *)

Definition ecmpAB : BcmEcmpHost.t := BcmEcmpHost.Make 0 twoPaths 104 104.

(** The table after host A was acquired once. *)
Definition switchA : BcmSwitch := after (incRefOrCreateBcmHost wedge 0 hostA).

Definition switchAB : BcmSwitch :=
  after (incRefOrCreateBcmEcmpHost wedge 0 twoPaths).

(** Destroying the ECMP host over A and B, whose group is 104. *)
Lemma BcmEcmpHost_dtor_group_first_witness :
  (BcmEcmpHost_dtor wedge ecmpAB switchAB = Fatal switchAB
   ∨ ∃ tl, trace (final (BcmEcmpHost_dtor wedge ecmpAB switchAB))
           = trace switchAB ++ EgressReleased 104 :: tl)
  ∧ (∀ pre vrf addr post,
       trace (final (BcmEcmpHost_dtor wedge ecmpAB switchAB))
       = trace switchAB ++ pre ++ HostReleased vrf addr :: post →
       EgressReleased 104 ∈ pre).
Proof.
  apply (BcmEcmpHost_dtor_group_first wedge ecmpAB switchAB). discriminate.
Defined.

(** The events of that destruction: the group first, then each member with
    the hardware delete of its host entry and the release of its egress
    object. *)
Example BcmEcmpHost_dtor_events :
  ∃ del1 del2 r1 r2,
    trace (final (BcmEcmpHost_dtor wedge ecmpAB switchAB))
    = trace switchAB
      ++ [EgressReleased 104;
          HostReleased 0 hostA; Sdk (opennsl_l3_host_delete del1) r1;
          EgressReleased 100;
          HostReleased 0 hostB; Sdk (opennsl_l3_host_delete del2) r2;
          EgressReleased 102].
Proof. do 4 eexists. vm_compute. reflexivity. Qed.

(** Over A and B the constructor makes group 104 over egress ids 100 and
    102; over A alone it makes no group and shows A's egress id 100. *)
Lemma BcmEcmpHost_ctor_egress_witness :
  (∃ h s',
     BcmEcmpHost_ctor wedge 0 twoPaths switch0 = Ok h s'
     ∧ BcmEcmpHost.fwd_ h = twoPaths
     ∧ BcmEcmpHost.ecmpEgressId_ h = BcmEcmpHost.egressId_ h
     ∧ egressMap_ s' !! BcmEcmpHost.egressId_ h
       = Some (BcmEcmpEgress 104 [(100, true); (102, true)], 1%nat))
  ∧ (∃ h s',
       BcmEcmpHost_ctor wedge 0 [NextHop 1 hostA] switch0 = Ok h s'
       ∧ BcmEcmpHost.ecmpEgressId_ h = -1
       ∧ BcmEcmpHost.egressId_ h = 100
       ∧ member_egress wedge 0 s' (NextHop 1 hostA) = 100).
Proof.
  split.
  - pose (s' := final (BcmEcmpHost_ctor wedge 0 twoPaths switch0)).
    assert (Hrun : BcmEcmpHost_ctor wedge 0 twoPaths switch0 = Ok ecmpAB s')
      by (vm_compute; reflexivity).
    destruct (BcmEcmpHost_ctor_egress wedge 0 twoPaths switch0 ecmpAB s' Hrun)
      as (_ & Hfwd & _ & _ & Hgroup).
    destruct Hgroup as (Hid & _ & Hobj); [discriminate |].
    exists ecmpAB, s'. split; [exact Hrun |]. split; [exact Hfwd |].
    split; [exact Hid |]. rewrite Hobj. vm_compute. reflexivity.
  - pose (h := BcmEcmpHost.Make 0 [NextHop 1 hostA] 100 (-1)).
    pose (s' := final (BcmEcmpHost_ctor wedge 0 [NextHop 1 hostA] switch0)).
    assert (Hrun : BcmEcmpHost_ctor wedge 0 [NextHop 1 hostA] switch0
                   = Ok h s') by (vm_compute; reflexivity).
    destruct (BcmEcmpHost_ctor_egress wedge 0 [NextHop 1 hostA] switch0 h s'
                Hrun) as (_ & _ & _ & Hone & _).
    destruct Hone as (Hinv & Hid & _); [reflexivity |].
    exists h, s'. split; [exact Hrun |]. split; [exact Hinv |].
    split; [reflexivity |].
    exact (f_equal (λ l, default 0 (head l)) (eq_sym Hid)).
Defined.

(** *** Acquire and release *)

(** Three acquisitions and three releases of host A, and of the ECMP host
    over A and B. *)
Lemma acquire_release_shares_witness :
  (∃ a s2 s3 s4,
     repeatM 2 (incRefOrCreateBcmHost wedge 0 hostA) switchA
     = Ok [Some a; Some a] s2
     ∧ repeatM 2 (derefBcmHost wedge 0 hostA) s2 = Ok [Some a; Some a] s3
     ∧ getBcmHostIf s3 0 hostA = Some a
     ∧ (∃ s', incRefOrCreateBcmHost wedge 0 hostA s3 = Ok (Some a) s')
     ∧ derefBcmHost wedge 0 hostA s3 = Ok None s4
     ∧ hosts_ s4 !! (0, hostA) = None)
  ∧ (∃ a s2 s3,
       repeatM 2 (incRefOrCreateBcmEcmpHost wedge 0 twoPaths) switchAB
       = Ok [Some a; Some a] s2
       ∧ repeatM 2 (derefBcmEcmpHost wedge 0 twoPaths) s2
         = Ok [Some a; Some a] s3
       ∧ getBcmEcmpHostIf s3 0 twoPaths = Some a
       ∧ (∃ s', incRefOrCreateBcmEcmpHost wedge 0 twoPaths s3
                = Ok (Some a) s')
       ∧ ∀ r s4, derefBcmEcmpHost wedge 0 twoPaths s3 = Ok r s4 →
                 r = None ∧ ecmpHosts_ s4 !! (0, twoPaths) = None).
Proof.
  split.
  - assert (Hrun : incRefOrCreateBcmHost_egress wedge 0 hostA (-1) switch0
                   = Ok (Some 0%N) switchA) by (vm_compute; reflexivity).
    destruct (proj1 (proj2 (acquire_release_shares wedge 2 switch0 0)) hostA
                (-1) (Some 0%N) switchA eq_refl Hrun)
      as (a & s2 & s3 & s4 & _ & H2 & H3 & Hget & Hagain & Hlast & Hgone).
    exists a, s2, s3, s4. split; [exact H2 |]. split; [exact H3 |].
    split; [exact Hget |]. split; [exact Hagain |].
    split; [exact Hlast | exact Hgone].
  - assert (Hrun : incRefOrCreateBcmEcmpHost wedge 0 twoPaths switch0
                   = Ok (Some 0%N) switchAB) by (vm_compute; reflexivity).
    destruct (proj2 (proj2 (acquire_release_shares wedge 2 switch0 0))
                twoPaths (Some 0%N) switchAB eq_refl Hrun)
      as (a & s2 & s3 & _ & H2 & H3 & Hget & Hagain & _ & Hlast).
    exists a, s2, s3. split; [exact H2 |]. split; [exact H3 |].
    split; [exact Hget |]. split; [exact Hagain | exact Hlast].
Defined.

Definition macA : MacAddress := 2%N.

(** *** Programming a host twice *)

Definition switchA1 : BcmSwitch :=
  final (BcmHost_program wedge (0, hostA) 11 (Some macA) 5 NEXTHOPS switchA).

Definition switchA2 : BcmSwitch :=
  final (BcmHost_program wedge (0, hostA) 11 (Some macA) 5 NEXTHOPS switchA1).

(** Host A programmed twice to the same MAC address and port 5: one
    hardware add in all, egress id 100 indexed under port 5 by the first
    call, the index untouched by the second. *)
Lemma BcmHost_program_twice_witness :
  host_adds (trace switchA1) = 1%nat
  ∧ host_adds (trace switchA2) = 1%nat
  ∧ getEgressIdsForPort switchA 5 = ∅
  ∧ getEgressIdsForPort switchA1 5 = {[ 100 ]}
  ∧ port2EgressIds_ switchA2 = port2EgressIds_ switchA1
  ∧ ∃ b n egress cnt,
      hosts_ switchA !! (0, hostA) = Some (Some b, n)
      ∧ egressMap_ switchA1 !! programmed_egress wedge (target b) egress
        = Some (egress, cnt)
      ∧ (host_adds (trace switchA1) ≤ host_adds (trace switchA) + 1)%nat
      ∧ host_adds (trace switchA2) = host_adds (trace switchA1)
      ∧ port2EgressIds_ switchA1
        = updatePortEgressMapping_map (getID egress)
            (BcmHost.port_ (target b)) 5 (port2EgressIds_ switchA)
      ∧ (∃ b1, hosts_ switchA1 !! (0, hostA) = Some (Some b1, n)
             ∧ BcmHost.port_ (target b1) = 5)
      ∧ ((∀ p, getID egress ∈ getEgressIdsForPort switchA p
               ↔ p = BcmHost.port_ (target b)
                 ∧ BcmHost.port_ (target b) ≠ 0) →
         (∃ p, getEgressIdsForPort switchA1 p ≠ getEgressIdsForPort switchA p)
         ↔ 5 ≠ BcmHost.port_ (target b))
      ∧ (getID egress ≠ BcmEgressBase_INVALID wedge →
         port2EgressIds_ switchA2 = port2EgressIds_ switchA1).
Proof.
  split; [vm_compute; reflexivity |].
  split; [vm_compute; reflexivity |].
  split; [vm_compute; reflexivity |].
  split; [vm_compute; reflexivity |].
  split; [vm_compute; reflexivity |].
  apply (BcmHost_program_twice wedge (0, hostA) 11 (Some macA) 5 NEXTHOPS
           switchA switchA1 switchA2); vm_compute; reflexivity.
Defined.

(** Against C6 as stated.  Host A is programmed to port 5 and gets egress
    object 100; host B is created over that same egress object and then
    programmed to port 5 as well.  B's stored port is 0, the port given is
    5, and the index is the same after the call as before. *)
Definition switchShared : BcmSwitch :=
  final (incRefOrCreateBcmHost_egress wedge 0 hostB 100 switchA1).

Lemma BcmHost_program_shared_egress_index_unchanged :
  (∃ b, hosts_ switchShared !! (0, hostB) = Some (Some b, 1%nat)
      ∧ BcmHost.port_ (target b) = 0
      ∧ BcmHost.egressId_ (target b) = 100)
  ∧ 5 ≠ 0
  ∧ ∃ s', BcmHost_program wedge (0, hostB) 11 (Some macA) 5 NEXTHOPS
            switchShared = Ok tt s'
        ∧ port2EgressIds_ s' = port2EgressIds_ switchShared
        ∧ ∀ p, getEgressIdsForPort s' p = getEgressIdsForPort switchShared p.
Proof.
  split.
  { exists (Box 1%N (BcmHost.Make 0 hostB 100 0 false)).
    split; [vm_compute; reflexivity |]. split; reflexivity. }
  split; [discriminate |].
  eexists. split; [vm_compute; reflexivity |].
  assert (Hidx : port2EgressIds_
                   (final (BcmHost_program wedge (0, hostB) 11 (Some macA) 5
                             NEXTHOPS switchShared))
                 = port2EgressIds_ switchShared) by (vm_compute; reflexivity).
  split; [exact Hidx |].
  intros p. unfold getEgressIdsForPort.
  change (port2EgressIds_ _ !! p) with
    (port2EgressIds_
       (final (BcmHost_program wedge (0, hostB) 11 (Some macA) 5 NEXTHOPS
                 switchShared)) !! p) at 1.
  by rewrite Hidx.
Qed.

(** *** A constructor that fails *)

Lemma counts_positive_switch0 : counts_positive switch0.
Proof.
  unfold counts_positive, switch0. simpl. intros key e n Hk.
  by rewrite lookup_empty in Hk.
Qed.

(** An ECMP host over A and B on the empty table, when the creation of
    the group fails. *)
Lemma BcmEcmpHost_failure_releases_witness :
  counts_positive switch0
  ∧ ∃ s', incRefOrCreateBcmEcmpHost wedge_no_ecmp 0 twoPaths switch0
          = Throw s'
        ∧ refcounts s' = refcounts switch0
        ∧ ecmpHosts_ s' = ecmpHosts_ switch0.
Proof.
  split; [exact counts_positive_switch0 |].
  exists (final (incRefOrCreateBcmEcmpHost wedge_no_ecmp 0 twoPaths switch0)).
  split; [vm_compute; reflexivity |].
  apply (proj2 (BcmEcmpHost_failure_releases wedge_no_ecmp 0 twoPaths switch0
                  _ counts_positive_switch0));
    vm_compute; reflexivity.
Defined.

(** Against C3 as stated.  Host A is in the table, held once and not yet
    programmed; the egress registry is empty.  An ECMP host over A and B is
    then requested and the creation of its group fails.  The reference
    taken on A is given back, but A stays programmed to punt to the CPU,
    and the egress object made for it stays in the registry: the
    registries are not what they were. *)
Lemma BcmEcmpHost_failure_leaves_member_programmed :
  hosts_ switchA !! (0, hostA)
  = Some (Some (Box 0%N (BcmHost.Make 0 hostA (-1) 0 false)), 1%nat)
  ∧ egressMap_ switchA = ∅
  ∧ ∃ s', incRefOrCreateBcmEcmpHost wedge_no_ecmp 0 twoPaths switchA
          = Throw s'
        ∧ hosts_ s' !! (0, hostA)
          = Some (Some (Box 0%N (BcmHost.Make 0 hostA 100 0 true)), 1%nat)
        ∧ egressMap_ s' !! 100 = Some (BcmEgress 100 (ToCPU 11), 1%nat)
        ∧ hosts_ s' ≠ hosts_ switchA
        ∧ egressMap_ s' ≠ egressMap_ switchA.
Proof.
  split; [vm_compute; reflexivity |].
  split; [vm_compute; reflexivity |].
  exists (final (incRefOrCreateBcmEcmpHost wedge_no_ecmp 0 twoPaths switchA)).
  split; [vm_compute; reflexivity |].
  split; [vm_compute; reflexivity |].
  split; [vm_compute; reflexivity |].
  split.
  - intros Heq. apply (f_equal (λ m, m !! (0, hostA))) in Heq.
    vm_compute in Heq. discriminate.
  - intros Heq. apply (f_equal (λ m, m !! 100)) in Heq.
    vm_compute in Heq. discriminate.
Qed.

(** The same request on the empty table when the hardware L3-host add of
    the first member fails: the member's host entry is removed again, but
    it was not marked added, so its destructor does not release the egress
    object made for it, which stays in the registry with count one. *)
Example BcmEcmpHost_failure_keeps_egress_object :
  egressMap_ switch0 = ∅
  ∧ ∃ s', incRefOrCreateBcmEcmpHost wedge_no_host_add 0 twoPaths switch0
          = Throw s'
        ∧ hosts_ s' = ∅
        ∧ ecmpHosts_ s' = ∅
        ∧ egressMap_ s' !! 100 = Some (BcmEgress 100 (ToCPU 11), 1%nat).
Proof.
  split; [reflexivity |].
  exists (final (incRefOrCreateBcmEcmpHost wedge_no_host_add 0 twoPaths
                   switch0)).
  split; [vm_compute; reflexivity |].
  split; [vm_compute; reflexivity |].
  split; vm_compute; reflexivity.
Qed.

(** *** Link state *)

(** The ECMP host over A and B, with A then resolved to port 5. *)
Definition switchLink : BcmSwitch :=
  final (BcmHost_program wedge (0, hostA) 11 (Some macA) 5 NEXTHOPS switchAB).

Lemma groups_resolve_switchLink : groups_resolve wedge switchLink.
Proof.
  intros key e n Hk.
  assert (Hmap : ecmpHosts_ switchLink
                 = {[ (0, twoPaths) := (Some (Box 0%N ecmpAB), 1%nat) ]})
    by (vm_compute; reflexivity).
  rewrite Hmap in Hk. apply lookup_singleton_Some in Hk as [<- [= <- <-]].
  exists (Box 0%N ecmpAB). split; [reflexivity |]. right.
  eexists _, _, _. vm_compute. reflexivity.
Qed.

(** Port 5 goes down: the path through egress object 100 of group 104 is
    marked unreachable, the other path is as before; port 7, under which
    nothing is indexed, changes nothing. *)
Lemma linkStateChanged_spec_witness :
  getEgressIdsForPort switchLink 5 = {[ 100 ]}
  ∧ egressMap_ switchLink !! 104
    = Some (BcmEcmpEgress 104 [(100, true); (102, true)], 1%nat)
  ∧ egressMap_ (final (linkStateChanged wedge 5 false switchLink)) !! 104
    = Some (BcmEcmpEgress 104 [(100, false); (102, true)], 1%nat)
  ∧ linkStateChanged wedge 7 false switchLink = Ok tt switchLink
  ∧ ∃ s', linkStateChanged wedge 5 false switchLink = Ok tt s'
        ∧ set_egressMap (λ _, egressMap_ switchLink) s' = switchLink
        ∧ (∀ id, owns_group wedge switchLink id →
                 egressMap_ s' !! id
                 = (λ e, (mark_affected false
                            (getEgressIdsForPort switchLink 5) e.1, e.2))
                   <$> egressMap_ switchLink !! id)
        ∧ (∀ id, ¬ owns_group wedge switchLink id →
                 egressMap_ s' !! id = egressMap_ switchLink !! id).
Proof.
  split; [vm_compute; reflexivity |].
  split; [vm_compute; reflexivity |].
  split; [vm_compute; reflexivity |].
  split.
  - apply (proj1 (linkStateChanged_spec wedge 7 false switchLink)).
    vm_compute. reflexivity.
  - apply (proj2 (linkStateChanged_spec wedge 5 false switchLink)).
    + intros Heq. apply (f_equal (λ ids : gset Z, bool_decide (100 ∈ ids)))
        in Heq.
      vm_compute in Heq. discriminate.
    + exact groups_resolve_switchLink.
Defined.

(** ** More concrete runs *)

(** The same platform, except that the creation of an egress object
    fails. *)
Definition wedge_no_egress_create : Platform :=
  {| BcmEgressBase_INVALID := -1;
     L3_IP6 := 131072;
     L3_MULTIPATH := 16384;
     sdk_reply := λ t c,
       match c with
       | opennsl_l3_egress_create _ _ => Reply (-1) 0
       | _ => sdk_ok t c
       end |}.

(** The same platform, except that the hardware L3-host delete fails. *)
Definition wedge_no_host_delete : Platform :=
  {| BcmEgressBase_INVALID := -1;
     L3_IP6 := 131072;
     L3_MULTIPATH := 16384;
     sdk_reply := λ t c,
       match c with
       | opennsl_l3_host_delete _ => Reply (-1) 0
       | _ => sdk_ok t c
       end |}.

Definition egress100 : BcmEgressBase := BcmEgress 100 (ToCPU 11).

(** *** The egress registry *)

(** Two more references on egress object 100, held once, and two
    releases. *)
Lemma egress_references_round_trip_witness :
  ∃ s1,
    repeatM 2 (incEgressReference 100) switch_with_egress
    = Ok [Some egress100; Some egress100] s1
    ∧ egressMap_ s1 !! 100 = Some (egress100, 3%nat)
    ∧ repeatM 2 (derefEgress 100) s1
      = Ok [Some egress100; Some egress100]
           (set_trace (λ t, t ++ [EgressReleased 100; EgressReleased 100])
                      switch_with_egress).
Proof.
  exact (egress_references_round_trip 2 100 switch_with_egress egress100 0
           eq_refl).
Defined.

(** Egress object 100 inserted into the empty registry, found, and
    released. *)
Lemma insertBcmEgress_lookup_release_witness :
  ∃ s1 s2,
    insertBcmEgress egress100 switch0 = Ok tt s1
    ∧ getEgressObjectIf s1 100 = Some egress100
    ∧ (∀ id, id ≠ 100 → getEgressObjectIf s1 id = getEgressObjectIf switch0 id)
    ∧ (∀ other, getID other = 100 → insertBcmEgress other s1 = Fatal s1)
    ∧ derefEgress 100 s1 = Ok None s2
    ∧ egressMap_ s2 = egressMap_ switch0
    ∧ getEgressObjectIf s2 100 = None.
Proof.
  exact (insertBcmEgress_lookup_release egress100 switch0 eq_refl).
Defined.

(** *** The port index *)

(** Egress id 100, indexed under port 5 once host A is programmed, is
    moved to port 6 and back. *)
Lemma updatePortEgressMapping_there_and_back_witness :
  getEgressIdsForPort switchA1 5 = {[ 100 ]}
  ∧ getEgressIdsForPort switchA1 6 = ∅
  ∧ ∃ s1 s2,
      updatePortEgressMapping 100 5 6 switchA1 = Ok tt s1
      ∧ updatePortEgressMapping 100 6 5 s1 = Ok tt s2
      ∧ (6 ≠ 0 → 100 ∈ getEgressIdsForPort s1 6)
      ∧ (5 ≠ 0 → 100 ∉ getEgressIdsForPort s1 5)
      ∧ ∀ port, getEgressIdsForPort s2 port = getEgressIdsForPort switchA1 port.
Proof.
  assert (H5 : getEgressIdsForPort switchA1 5 = {[ 100 ]})
    by (vm_compute; reflexivity).
  assert (H6 : getEgressIdsForPort switchA1 6 = ∅)
    by (vm_compute; reflexivity).
  split; [exact H5 |]. split; [exact H6 |].
  apply (updatePortEgressMapping_there_and_back 100 5 6 switchA1).
  - rewrite H5. by apply elem_of_singleton.
  - rewrite H6. apply not_elem_of_empty.
Defined.

(** *** Lookups *)

(** Host A is found after it was acquired, and no longer after its one
    reference was released. *)
Lemma getBcmHost_after_acquire_and_release_witness :
  incRefOrCreateBcmHost wedge 0 hostA switch0 = Ok (Some 0%N) switchA
  ∧ getBcmHost 0 hostA switchA = Ok 0%N switchA
  ∧ ∃ s2, derefBcmHost wedge 0 hostA switchA = Ok None s2
        ∧ getBcmHost 0 hostA s2 = Throw s2.
Proof.
  assert (Hacq : incRefOrCreateBcmHost wedge 0 hostA switch0
                 = Ok (Some 0%N) switchA) by (vm_compute; reflexivity).
  split; [exact Hacq |]. split.
  - exact (proj1 (getBcmHost_after_acquire_and_release wedge 0 switch0)
             hostA (Some 0%N) switchA Hacq).
  - exists (final (derefBcmHost wedge 0 hostA switchA)).
    assert (Hrel : derefBcmHost wedge 0 hostA switchA
                   = Ok None (final (derefBcmHost wedge 0 hostA switchA)))
      by (vm_compute; reflexivity).
    split; [exact Hrel |].
    exact (proj1 (proj2 (proj2 (getBcmHost_after_acquire_and_release
                                  wedge 0 switchA)))
             hostA None _ Hrel).
Defined.

(** *** Acquiring a host entry *)

(** Host A acquired on the empty table. *)
Lemma incRefOrCreateBcmHost_never_fails_witness :
  ∃ p s1,
    incRefOrCreateBcmHost wedge 0 hostA switch0 = Ok p s1
    ∧ refcount s1 (0, hostA) = S (refcount switch0 (0, hostA))
    ∧ (∀ key, key ≠ (0, hostA) → hosts_ s1 !! key = hosts_ switch0 !! key)
    ∧ ecmpHosts_ s1 = ecmpHosts_ switch0
    ∧ egressMap_ s1 = egressMap_ switch0
    ∧ port2EgressIds_ s1 = port2EgressIds_ switch0
    ∧ trace s1 = trace switch0
    ∧ (hosts_ switch0 !! (0, hostA) = None →
       p = Some (heap_next switch0)
       ∧ hosts_ s1 !! (0, hostA)
         = Some (Some (Box (heap_next switch0)
                         (BcmHost.Make 0 hostA (BcmEgressBase_INVALID wedge)
                                       0 false)), 1%nat)).
Proof. exact (incRefOrCreateBcmHost_never_fails wedge 0 hostA switch0). Defined.

(** Host A, already in the table, is acquired again with an egress id the
    registry does not hold: the id is ignored.  Host B, not in the table,
    acquired with that id: the process aborts. *)
Lemma incRefOrCreateBcmHost_egress_uses_id_for_new_hosts_only_witness :
  egressMap_ switchA !! 777 = None
  ∧ (∃ s1, incRefOrCreateBcmHost_egress wedge 0 hostA 777 switchA
           = Ok (Some 0%N) s1
         ∧ incRefOrCreateBcmHost wedge 0 hostA switchA = Ok (Some 0%N) s1
         ∧ egressMap_ s1 = egressMap_ switchA)
  ∧ (∃ s', incRefOrCreateBcmHost_egress wedge 0 hostB 777 switchA = Fatal s'
         ∧ egressMap_ s' = egressMap_ switchA).
Proof.
  split; [vm_compute; reflexivity |]. split.
  - destruct (proj1 (incRefOrCreateBcmHost_egress_uses_id_for_new_hosts_only
                       wedge 0 hostA 777 switchA)
                (Some (Box 0%N (BcmHost.Make 0 hostA (-1) 0 false))) 1%nat)
      as [Hrun Hsame]; [vm_compute; reflexivity |].
    eexists. split; [exact Hrun |]. split; [| reflexivity].
    rewrite <- Hsame. exact Hrun.
  - apply (proj2 (incRefOrCreateBcmHost_egress_uses_id_for_new_hosts_only
                    wedge 0 hostB 777 switchA)).
    + vm_compute. reflexivity.
    + discriminate.
    + vm_compute. reflexivity.
Defined.

(** *** Warm boot *)

(** The discovered entry of [switch_with_cache] carries the stray flag
    bits 3. *)
Lemma addBcmHost_accepts_stray_flag_bits_witness :
  l3a_flags discovered = Z.lor 0 3
  ∧ ∃ s', BcmHost_addBcmHost wedge (0, hostA) false
            (switch_with_cache discovered) = Ok tt s'
        ∧ trace s' = [WarmBootProgrammed 0 hostA]
        ∧ hosts_ s' !! (0, hostA)
          = Some (Some (Box 0%N (BcmHost.Make 0 hostA 100 0 true)), 1%nat)
        ∧ egressMap_ s' = egressMap_ (switch_with_cache discovered).
Proof.
  split; [reflexivity |].
  exact (addBcmHost_accepts_stray_flag_bits wedge (0, hostA) false
           (switch_with_cache discovered)
           (Box 0%N (BcmHost.Make 0 hostA 100 0 false)) 1 discovered 3
           eq_refl eq_refl eq_refl eq_refl eq_refl eq_refl eq_refl eq_refl).
Defined.

(** *** Programming a host entry *)

(** Host A, just acquired, is programmed to a MAC address on port 5. *)
Lemma BcmHost_program_unprogrammed_witness :
  BcmHost_program wedge (0, hostA) 11 (Some macA) 5 NEXTHOPS switchA
  = Ok tt switchA1
  ∧ hosts_ switchA1 !! (0, hostA)
    = Some (Some (Box 0%N (BcmHost.Make 0 hostA 100 5 true)), 1%nat)
  ∧ egressMap_ switchA1 !! 100 = Some (BcmEgress 100 (ToPort 11 macA 5), 1%nat)
  ∧ getEgressIdsForPort switchA1 5 = {[ 100 ]}
  ∧ trace switchA1
    = [Sdk (opennsl_l3_egress_create (-1) (ToPort 11 macA 5)) (Reply 0 100);
       Sdk (opennsl_l3_host_add (L3Host 0 0 100 167772161 0)) (Reply 0 101)].
Proof.
  destruct (BcmHost_program_unprogrammed wedge (0, hostA) 11 (Some macA) 5
              NEXTHOPS switchA
              (Box 0%N (BcmHost.Make 0 hostA (-1) 0 false)) 1)
    as (s' & Hrun & Hh & He & Hp & _ & Ht);
    try (vm_compute; reflexivity); try (vm_compute; discriminate).
  assert (Hc : BcmHost_program wedge (0, hostA) 11 (Some macA) 5 NEXTHOPS
                 switchA = Ok tt switchA1) by (vm_compute; reflexivity).
  assert (Hs : s' = switchA1) by congruence.
  subst s'.
  split; [exact Hrun |].
  split; [rewrite Hh; vm_compute; reflexivity |].
  split; [rewrite He; vm_compute; reflexivity |].
  split; [unfold getEgressIdsForPort; rewrite Hp; vm_compute; reflexivity |].
  rewrite Ht. vm_compute. reflexivity.
Defined.



(** Host A, just acquired, is programmed on a platform that refuses the
    egress object, and on one that refuses the L3-host add. *)
Lemma BcmHost_program_failures_witness :
  (∃ ev, BcmHost_program wedge_no_egress_create (0, hostA) 11 (Some macA) 5
           NEXTHOPS switchA
         = Throw (set_trace (λ t, t ++ [ev]) switchA))
  ∧ (∃ s',
       BcmHost_program wedge_no_host_add (0, hostA) 11 (Some macA) 5 NEXTHOPS
         switchA = Throw s'
       ∧ hosts_ s' !! (0, hostA)
         = Some (Some (Box 0%N (BcmHost.Make 0 hostA 100 0 false)), 1%nat)
       ∧ egressMap_ s' !! 100
         = Some (BcmEgress 100 (ToPort 11 macA 5), 1%nat)
       ∧ port2EgressIds_ s' = port2EgressIds_ switchA).
Proof.
  split.
  - eexists.
    apply (proj1 (BcmHost_program_failures wedge_no_egress_create (0, hostA)
                    11 (Some macA) 5 NEXTHOPS switchA
                    (Box 0%N (BcmHost.Make 0 hostA (-1) 0 false)) 1
                    ltac:(vm_compute; reflexivity) eq_refl)).
    vm_compute. reflexivity.
  - destruct (proj2 (proj2 (BcmHost_program_failures wedge_no_host_add
                              (0, hostA) 11 (Some macA) 5 NEXTHOPS switchA
                              (Box 0%N (BcmHost.Make 0 hostA (-1) 0 false)) 1
                              ltac:(vm_compute; reflexivity) eq_refl)))
      as (s' & Hrun & Hh & He & Hp & _);
      try (vm_compute; reflexivity); try (vm_compute; discriminate).
    exists s'. split; [exact Hrun |].
    split; [rewrite Hh; vm_compute; reflexivity |].
    split; [rewrite He; vm_compute; reflexivity |].
    exact Hp.
Defined.

(** *** Destroying a host entry *)

(** The one reference to the programmed host A is released; and the same
    on a platform that refuses the hardware delete. *)
Lemma derefBcmHost_destroys_added_host_witness :
  (∃ s', derefBcmHost wedge 0 hostA switchA1 = Ok None s'
       ∧ hosts_ s' = ∅
       ∧ egressMap_ s' = ∅
       ∧ trace s'
         = trace switchA1
           ++ [HostReleased 0 hostA;
               Sdk (opennsl_l3_host_delete (L3Host 0 0 100 167772161 0))
                   (Reply 0 103);
               EgressReleased 100])
  ∧ (∃ s', derefBcmHost wedge_no_host_delete 0 hostA switchA1 = Fatal s'
         ∧ egressMap_ s' = egressMap_ switchA1).
Proof.
  split.
  - destruct (proj2 (derefBcmHost_destroys_added_host wedge 0 hostA switchA1
                       (Box 0%N (BcmHost.Make 0 hostA 100 5 true))
                       ltac:(vm_compute; reflexivity) eq_refl)
                ltac:(vm_compute; discriminate)
                (BcmEgress 100 (ToPort 11 macA 5)) 0%nat
                ltac:(vm_compute; reflexivity))
      as (s' & Hrun & Hh & He & Ht).
    exists s'. split; [exact Hrun |].
    split; [rewrite Hh; vm_compute; reflexivity |].
    split; [rewrite He; vm_compute; reflexivity |].
    rewrite Ht. vm_compute. reflexivity.
  - destruct (proj1 (derefBcmHost_destroys_added_host wedge_no_host_delete 0
                       hostA switchA1
                       (Box 0%N (BcmHost.Make 0 hostA 100 5 true))
                       ltac:(vm_compute; reflexivity) eq_refl))
      as (s' & Hrun & He & _).
    + left. vm_compute. reflexivity.
    + exists s'. split; [exact Hrun | exact He].
Defined.

(** The table after the programmed host A was released. *)
Definition switchGone : BcmSwitch :=
  final (derefBcmHost wedge 0 hostA switchA1).

(** Host A from the empty table to the empty table. *)
Lemma host_entry_life_cycle_witness :
  ∃ id a rd,
    hosts_ switchA1 !! (0, hostA)
    = Some (Some (Box (heap_next switch0) (BcmHost.Make 0 hostA id 5 true)),
            1%nat)
    ∧ egressMap_ switch0 !! id = None
    ∧ egressMap_ switchA1 = <[id := (BcmEgress id a, 1%nat)]> (egressMap_ switch0)
    ∧ @None N = None
    ∧ hosts_ switchGone = hosts_ switch0
    ∧ ecmpHosts_ switchGone = ecmpHosts_ switch0
    ∧ egressMap_ switchGone = egressMap_ switch0
    ∧ trace switchGone
      = trace switchA1
        ++ [HostReleased 0 hostA;
            Sdk (opennsl_l3_host_delete
                   (initHostCommon wedge (BcmHost.Make 0 hostA id 5 true))) rd;
            EgressReleased id].
Proof.
  apply (host_entry_life_cycle wedge 0 hostA 11 (Some macA) 5 NEXTHOPS
           switch0 switchA switchA1 switchGone (Some 0%N) None);
    vm_compute; reflexivity.
Defined.

(** *** The references of an ECMP host *)

(** The ECMP host over A and B on the empty table: one reference on each
    of the two host entries, given back when the ECMP host is released. *)
Lemma BcmEcmpHost_member_references_witness :
  refcount switchAB (0, hostA) = 1%nat
  ∧ refcount switchAB (0, hostB) = 1%nat
  ∧ (∀ key, refcount (final (BcmEcmpHost_ctor wedge 0 twoPaths switch0)) key
            = (refcount switch0 key + uses 0 key twoPaths)%nat)
  ∧ ∃ s2, derefBcmEcmpHost wedge 0 twoPaths switchAB = Ok None s2
        ∧ refcounts s2 = refcounts switch0
        ∧ ecmpHosts_ s2 = ecmpHosts_ switch0.
Proof.
  split; [vm_compute; reflexivity |]. split; [vm_compute; reflexivity |].
  split.
  - apply (proj1 (BcmEcmpHost_member_references wedge 0 twoPaths switch0)
             ecmpAB).
    vm_compute. reflexivity.
  - exists (final (derefBcmEcmpHost wedge 0 twoPaths switchAB)).
    assert (Hrel : derefBcmEcmpHost wedge 0 twoPaths switchAB
                   = Ok None (final (derefBcmEcmpHost wedge 0 twoPaths
                                       switchAB)))
      by (vm_compute; reflexivity).
    split; [exact Hrel |].
    apply (proj2 (BcmEcmpHost_member_references wedge 0 twoPaths switch0)
             counts_positive_switch0 eq_refl (Some 0%N) switchAB None _);
      [vm_compute; reflexivity | exact Hrel].
Defined.

(** *** Link state *)

(** The table of [switchLink] with group 104 gone from the registry. *)
Definition switchLink_no_group : BcmSwitch :=
  set_egressMap (delete 104) switchLink.

(** A link notification for port 5 on that table aborts. *)
Lemma linkStateChanged_unresolved_group_aborts_witness :
  ∃ s', linkStateChanged wedge 5 false switchLink_no_group = Fatal s'.
Proof.
  apply (linkStateChanged_unresolved_group_aborts wedge 5 false
           switchLink_no_group (0, twoPaths) (Box 0%N ecmpAB) 1).
  - intros Heq. apply (f_equal (λ ids : gset Z, bool_decide (100 ∈ ids)))
      in Heq.
    vm_compute in Heq. discriminate.
  - vm_compute. reflexivity.
  - discriminate.
  - vm_compute. reflexivity.
Defined.

(** Port 5 goes down and comes up again. *)
Lemma linkStateChanged_last_notification_wins_witness :
  ∃ s1,
    linkStateChanged wedge 5 false switchLink = Ok tt s1
    ∧ linkStateChanged wedge 5 true s1 = linkStateChanged wedge 5 true switchLink
    ∧ linkStateChanged wedge 5 false s1 = Ok tt s1.
Proof.
  exact (linkStateChanged_last_notification_wins wedge 5 false true switchLink
           groups_resolve_switchLink).
Defined.

(** *** Reference counts *)

Lemma counts_all_positive_switchAB : counts_all_positive switchAB.
Proof.
  unfold counts_all_positive. split_and!;
    apply map_Forall_to_list; vm_compute; repeat constructor.
Qed.

(** In the table with the ECMP host over A and B, whose counts are all
    one: after the ECMP host is released, after a link notification, and
    after host A is acquired again, no count is zero. *)
Lemma reference_counts_stay_positive_witness :
  counts_all_positive switchAB
  ∧ counts_all_positive (final (derefBcmEcmpHost wedge 0 twoPaths switchAB))
  ∧ counts_all_positive (final (linkStateChanged wedge 5 false switchAB))
  ∧ counts_all_positive (final (incRefOrCreateBcmHost wedge 0 hostA switchAB)).
Proof.
  pose proof (reference_counts_stay_positive wedge switchAB
                counts_all_positive_switchAB)
    as (Hacq & _ & _ & _ & Hrel & _ & _ & _ & _ & _ & Hlink).
  split; [exact counts_all_positive_switchAB |].
  split; [apply Hrel |]. split; [apply Hlink | apply Hacq].
Defined.
